(** * JoyFood mail crawler: subject-date parsing, message selection and
      table normalisation

    A shallow embedding of
      - [gmail_crawler/utils/utils.py]: [parse_date_from_subject],
        [find_message_by_date], [find_latest_message];
      - [gmail_crawler/services/json_to_excel.py]: [_normalize_rows],
        [JSONToExcelConverter.json_tables_to_excel];
    together with the parts of the Python runtime these functions call
    ([re.search], [str.zfill], [datetime.strptime], [sorted], truthiness,
    [len], [list]).  The calls into pandas are kept as calls: they may
    raise, and the converter is studied for whatever they do. *)

From stdpp Require Import base list strings.
From Stdlib Require Import NArith ZArith Lia.
From Stdlib Require DecimalFacts DecimalN DecimalNat.

#[local] Set Warnings "-register-all".
Local Open Scope N_scope.

(** ** Python strings

    A Python [str] is a sequence of Unicode code points. *)

Abbreviation pystr := (list N).

Module PyStr.

(** An ASCII literal of the source, as code points. *)
Definition lit (s : string) : pystr :=
  map Ascii.N_of_ascii (String.list_ascii_of_string s).

(** U+B144, U+C6D4 and U+C77C: the Hangul syllables for year, month, day
    that the subject patterns use as markers. *)
Definition NYEON : N := 45380.
Definition WOL : N := 50900.
Definition IL : N := 51068.

(** [\d] on a [str] pattern is the Unicode category Nd.  Every Nd run is a
    block of ten consecutive code points 0..9; the table lists the zero of
    each block (Unicode 14.0, the database of CPython 3.11). *)
Definition decimal_zeros : list N :=
  [48; 1632; 1776; 1984; 2406; 2534; 2662; 2790; 2918; 3046; 3174; 3302;
   3430; 3558; 3664; 3792; 3872; 4160; 4240; 6112; 6160; 6470; 6608; 6784;
   6800; 6992; 7088; 7232; 7248; 42528; 43216; 43264; 43472; 43504; 43600;
   44016; 65296; 66720; 68912; 69734; 69872; 69942; 70096; 70384; 70736;
   70864; 71248; 71360; 71472; 71904; 72016; 72784; 73040; 73120; 92768;
   92864; 93008; 120782; 120792; 120802; 120812; 120822; 123200; 123632;
   125264; 130032].

Definition in_block (c z : N) : bool := (z <=? c) && (c <? z + 10).

Definition is_digit (c : N) : bool := existsb (in_block c) decimal_zeros.

(** The numeric value [int] gives a decimal digit. *)
Definition digit_value (c : N) : N :=
  match List.find (in_block c) decimal_zeros with
  | Some z => c - z
  | None => 0
  end.

(** [int(s)] on a string of decimal digits. *)
Definition int_of_digits (s : pystr) : N :=
  fold_left (fun acc c => 10 * acc + digit_value c) s 0.

Fixpoint uint_codes (u : Decimal.uint) : pystr :=
  match u with
  | Decimal.Nil => []
  | Decimal.D0 u => 48 :: uint_codes u
  | Decimal.D1 u => 49 :: uint_codes u
  | Decimal.D2 u => 50 :: uint_codes u
  | Decimal.D3 u => 51 :: uint_codes u
  | Decimal.D4 u => 52 :: uint_codes u
  | Decimal.D5 u => 53 :: uint_codes u
  | Decimal.D6 u => 54 :: uint_codes u
  | Decimal.D7 u => 55 :: uint_codes u
  | Decimal.D8 u => 56 :: uint_codes u
  | Decimal.D9 u => 57 :: uint_codes u
  end.

(** [str(n)] / [f"{n}"] for a non-negative [int]. *)
Definition str_of_N (n : N) : pystr := uint_codes (N.to_uint n).
Definition str_of_nat (n : nat) : pystr := uint_codes (Nat.to_uint n).

(** [s.zfill(width)]: left-pad with ASCII zeros, after a leading sign. *)
Definition zfill (width : nat) (s : pystr) : pystr :=
  if decide (width <= length s)%nat then s
  else
    let pad := replicate (width - length s) 48 in
    match s with
    | c :: t => if (c =? 43) || (c =? 45) then c :: pad ++ t else pad ++ s
    | [] => pad
    end.

(** [a < b] on [str]: lexicographic on code points. *)
Fixpoint str_ltb (a b : pystr) : bool :=
  match a, b with
  | _, [] => false
  | [], _ :: _ => true
  | x :: a', y :: b' => (x <? y) || ((x =? y) && str_ltb a' b')
  end.

End PyStr.

(** ** Python values and exceptions *)

(** The exception classes the program and the runtime name, and
    [LibraryError] for any other class, of a library or of the operating
    system, by its name. *)
Inductive exn :=
| TypeError
| AttributeError
| ValueError
| IndexError
| FileNotFoundError
| JSONDecodeError
| ValidationError
| FileProcessingError
| LibraryError (name : pystr).

Inductive result (A : Type) :=
| Ok (a : A)
| Raise (e : exn).
Arguments Ok {A} a.
Arguments Raise {A} e.

#[global] Instance result_ret : MRet result := fun A a => Ok a.
#[global] Instance result_bind : MBind result := fun A B f m =>
  match m with
  | Ok a => f a
  | Raise e => Raise e
  end.

Fixpoint mapM {A B} (f : A -> result B) (l : list A) : result (list B) :=
  match l with
  | [] => Ok []
  | x :: t => y ← f x; ys ← mapM f t; Ok (y :: ys)
  end.

(** The values the two modules handle: what [json.loads] produces and what
    a message dictionary holds.  A [dict] keeps insertion order; its keys
    are distinct and lookup takes the binding of the key.  A [float] is
    kept as its IEEE-754 binary64 bit pattern. *)
Inductive pyval :=
| VNone
| VBool (b : bool)
| VInt (z : Z)
| VFloat (bits : N)
| VStr (s : pystr)
| VList (l : list pyval)
| VDict (d : list (pystr * pyval)).

Module Py.
Import PyStr.

Fixpoint dict_lookup (k : pystr) (d : list (pystr * pyval)) : option pyval :=
  match d with
  | [] => None
  | (k', v) :: t => if decide (k' = k) then Some v else dict_lookup k t
  end.

(** [obj.get(key, default)]: only a [dict] has the method. *)
Definition get (obj : pyval) (key : pystr) (default : pyval) : result pyval :=
  match obj with
  | VDict d => Ok (match dict_lookup key d with Some v => v | None => default end)
  | _ => Raise AttributeError
  end.

(** Truth value testing. *)
Definition truthy (v : pyval) : bool :=
  match v with
  | VNone => false
  | VBool b => b
  | VInt z => negb (z =? 0)%Z
  | VFloat bits => negb (N.land bits (2 ^ 63 - 1) =? 0)
  | VStr s => match s with [] => false | _ => true end
  | VList l => match l with [] => false | _ => true end
  | VDict d => match d with [] => false | _ => true end
  end.

(** [a or b] *)
Definition or_ (a b : pyval) : pyval := if truthy a then a else b.

(** [len(v)] *)
Definition len (v : pyval) : result nat :=
  match v with
  | VStr s => Ok (length s)
  | VList l => Ok (length l)
  | VDict d => Ok (length d)
  | _ => Raise TypeError
  end.

(** The items iterating over [v] yields ([for x in v], [list(v)]). *)
Definition iter (v : pyval) : result (list pyval) :=
  match v with
  | VStr s => Ok (map (fun c => VStr [c]) s)
  | VList l => Ok l
  | VDict d => Ok (map (fun kv => VStr (fst kv)) d)
  | _ => Raise TypeError
  end.

(** [v[:n]] *)
Definition slice_to (v : pyval) (n : nat) : result pyval :=
  match v with
  | VStr s => Ok (VStr (take n s))
  | VList l => Ok (VList (take n l))
  | _ => Raise TypeError
  end.

End Py.

(** ** Regular expressions

    The part of [re] the program uses: literals, [\d], character ranges,
    sequence, alternation, greedy bounded repetition and capturing groups
    (never nested here), matched by backtracking as [re] does. *)

Module Re.
Import PyStr.

Inductive re :=
| Chr (c : N)
| Digit
| Range (lo hi : N)
| Seq (a b : re)
| Alt (a b : re)
| Rep (a : re) (lo extra : nat)
| Group (a : re).

(** The continuation receives the rest of the input and the groups
    closed so far; a [None] makes the matcher backtrack. *)
Definition cont (A : Type) : Type := pystr -> list pystr -> option A.

Definition first_some {A} (x y : option A) : option A :=
  match x with
  | Some r => Some r
  | None => y
  end.

Definition one_char {A} (p : N -> bool) (k : cont A) : cont A :=
  fun s caps =>
    match s with
    | c :: t => if p c then k t caps else None
    | [] => None
    end.

(** Up to [extra] more copies, as many as possible first. *)
Fixpoint rep_greedy {A} (m : cont A -> cont A) (extra : nat) (k : cont A) : cont A :=
  match extra with
  | O => k
  | S e => fun s caps => first_some (m (rep_greedy m e k) s caps) (k s caps)
  end.

Fixpoint rep_exact {A} (m : cont A -> cont A) (lo : nat) (k : cont A) : cont A :=
  match lo with
  | O => k
  | S n => m (rep_exact m n k)
  end.

Fixpoint rmatch {A} (r : re) (k : cont A) : cont A :=
  match r with
  | Chr c => one_char (N.eqb c) k
  | Digit => one_char is_digit k
  | Range lo hi => one_char (fun c => (lo <=? c) && (c <=? hi)) k
  | Seq a b => rmatch a (rmatch b k)
  | Alt a b => fun s caps => first_some (rmatch a k s caps) (rmatch b k s caps)
  | Rep a lo extra => rep_exact (rmatch a) lo (rep_greedy (rmatch a) extra k)
  | Group a =>
      fun s caps =>
        rmatch a (fun s' caps' => k s' (caps' ++ [take (length s - length s') s])) s caps
  end.

(** [pattern.match(s)]: the groups and the unread rest of [s]. *)
Definition re_match (r : re) (s : pystr) : option (list pystr * pystr) :=
  rmatch r (fun rest caps => Some (caps, rest)) s [].

(** [re.search(r, s)]: the match at the leftmost position that has one;
    the result is [match.groups()]. *)
Fixpoint re_search (r : re) (s : pystr) : option (list pystr) :=
  match re_match r s with
  | Some (caps, _) => Some caps
  | None =>
      match s with
      | [] => None
      | _ :: t => re_search r t
      end
  end.

(** [match.group(i)], [i >= 1]. *)
Definition group (i : nat) (caps : list pystr) : pystr := nth (i - 1) caps [].

(** [\d{n}] and [\d{1,2}] *)
Definition digits (n : nat) : re := Rep Digit n 0.
Definition digits_1_2 : re := Rep Digit 1 1.

End Re.

(** ** [datetime] *)

Module Datetime.
Import PyStr Re.

(** What [datetime.now()] returns. *)
Record datetime := {
  year : N;
  month : N;
  day : N;
  hour : N;
  minute : N;
  second : N;
  microsecond : N
}.

Definition is_leap (y : N) : bool :=
  (y mod 4 =? 0) && (negb (y mod 100 =? 0) || (y mod 400 =? 0)).

Definition days_in_month (y m : N) : N :=
  if m =? 2 then (if is_leap y then 29 else 28)
  else if (m =? 4) || (m =? 6) || (m =? 9) || (m =? 11) then 30
  else 31.

(** [datetime.date(y, m, d)] accepts exactly these. *)
Definition valid_date (y m d : N) : bool :=
  (1 <=? y) && (y <=? 9999) && (1 <=? m) && (m <=? 12) &&
  (1 <=? d) && (d <=? days_in_month y m).

Definition c (s : string) : N := nth 0 (lit s) 0.

(** The regular expression [_strptime] builds for ["%Y%m%d"]:
    [(?P<Y>\d\d\d\d)(?P<m>1[0-2]|0[1-9]|[1-9])(?P<d>3[0-1]|[1-2]\d|0[1-9]|[1-9]| [1-9])] *)
Definition format_regex : re :=
  Seq (Group (Seq Digit (Seq Digit (Seq Digit Digit))))
 (Seq (Group (Alt (Seq (Chr (c "1")) (Range (c "0") (c "2")))
             (Alt (Seq (Chr (c "0")) (Range (c "1") (c "9")))
                  (Range (c "1") (c "9")))))
      (Group (Alt (Seq (Chr (c "3")) (Range (c "0") (c "1")))
             (Alt (Seq (Range (c "1") (c "2")) Digit)
             (Alt (Seq (Chr (c "0")) (Range (c "1") (c "9")))
             (Alt (Range (c "1") (c "9"))
                  (Seq (Chr (c " ")) (Range (c "1") (c "9"))))))))).

(** [datetime.strptime(s, "%Y%m%d")]: the format must match at the start
    and use up the whole string, and the fields must name a date. *)
Definition strptime (data_string : pystr) : result (N * N * N) :=
  match re_match format_regex data_string with
  | None => Raise ValueError
  | Some (found, rest) =>
      if decide (rest = []) then
        let y := int_of_digits (group 1 found) in
        let m := int_of_digits (group 2 found) in
        let d := int_of_digits (group 3 found) in
        if valid_date y m d then Ok (y, m, d) else Raise ValueError
      else Raise ValueError
  end.

End Datetime.

(** ** gmail_crawler/utils/utils.py *)

Module Utils.
Import PyStr Re Datetime.

(** [(\d{4})U+B144(\d{1,2})U+C6D4(\d{1,2})U+C77C] *)
Definition pattern1 : re :=
  Seq (Group (digits 4)) (Seq (Chr NYEON)
 (Seq (Group digits_1_2) (Seq (Chr WOL)
 (Seq (Group digits_1_2) (Chr IL))))).

(** [(\d{8})] *)
Definition pattern2 : re := Group (digits 8).

(** [(\d{1,2})U+C6D4(\d{1,2})U+C77C] *)
Definition pattern3 : re :=
  Seq (Group digits_1_2) (Seq (Chr WOL) (Seq (Group digits_1_2) (Chr IL))).

(** [re.search(pattern, subject)] raises [TypeError] unless [subject] is
    a [str]. *)
Definition search (pattern : re) (subject : pyval) : result (option (list pystr)) :=
  match subject with
  | VStr s => Ok (re_search pattern s)
  | _ => Raise TypeError
  end.

(** [now] is what [datetime.now()] returns during the call. *)
Definition parse_date_from_subject (now : datetime) (subject : pyval)
  : result (option pystr) :=
  match1 ← search pattern1 subject;
  match match1 with
  | Some g =>
      let year := group 1 g in
      let month := group 2 g in
      let day := group 3 g in
      Ok (Some (year ++ zfill 2 month ++ zfill 2 day))
  | None =>
      let pattern3_step : result (option pystr) :=
        match3 ← search pattern3 subject;
        match match3 with
        | Some g =>
            let month := group 1 g in
            let day := group 2 g in
            let current_year := Datetime.year now in
            Ok (Some (str_of_N current_year ++ zfill 2 month ++ zfill 2 day))
        | None => Ok None
        end in
      match2 ← search pattern2 subject;
      match match2 with
      | Some g =>
          let date_str := group 1 g in
          match strptime date_str with
          | Ok _ => Ok (Some date_str)
          | Raise ValueError => pattern3_step
          | Raise e => Raise e
          end
      | None => pattern3_step
      end
  end.

(** [parsed_date == target_date], an optional [str] against a [str]. *)
Definition date_eqb (parsed_date : option pystr) (target_date : pystr) : bool :=
  match parsed_date with
  | Some d => bool_decide (d = target_date)
  | None => false
  end.

Fixpoint find_message_by_date (now : datetime) (messages_data : list pyval)
    (target_date : pystr) : result (option pyval) :=
  match messages_data with
  | [] => Ok None
  | msg_data :: rest =>
      subject ← Py.get msg_data (lit "subject") (VStr []);
      parsed_date ← parse_date_from_subject now subject;
      if date_eqb parsed_date target_date then Ok (Some msg_data)
      else find_message_by_date now rest target_date
  end.

(** [sorted(l, key=f, reverse=True)] on a list already decorated with its
    keys.  CPython reverses the list, sorts it with a stable sort that
    compares keys by [<] only, and reverses the outcome, so that equal
    keys keep their original order. *)
Section Sorted.
Context {V : Type}.

Fixpoint insert_stable (x : pystr * V) (l : list (pystr * V)) : list (pystr * V) :=
  match l with
  | [] => [x]
  | y :: t =>
      if str_ltb (fst y) (fst x) then y :: insert_stable x t else x :: y :: t
  end.

Fixpoint sort_stable (l : list (pystr * V)) : list (pystr * V) :=
  match l with
  | [] => []
  | x :: t => insert_stable x (sort_stable t)
  end.

Definition sorted_reverse (l : list (pystr * V)) : list (pystr * V) :=
  reverse (sort_stable (reverse l)).
End Sorted.

(** [lambda x: parse_date_from_subject(x.get('subject', '')) or '00000000'] *)
Definition sort_key (now : datetime) (x : pyval) : result pystr :=
  subject ← Py.get x (lit "subject") (VStr []);
  parsed ← parse_date_from_subject now subject;
  Ok (match parsed with
      | Some ((_ :: _) as d) => d
      | _ => lit "00000000"
      end).

Definition find_latest_message (now : datetime) (messages_data : list pyval)
  : result (option pyval) :=
  match messages_data with
  | [] => Ok None
  | _ =>
      keys ← mapM (sort_key now) messages_data;
      let sorted_messages := snd <$> sorted_reverse (zip keys messages_data) in
      match sorted_messages with
      | first :: _ => Ok (Some first)
      | [] => Raise IndexError
      end
  end.

End Utils.

(** ** gmail_crawler/services/json_to_excel.py *)

Module JSONToExcelConverter.
Import PyStr.

(** What [pd.DataFrame(rows_norm, columns=headers)] and [df.to_excel]
    receive for one table. *)
Record sheet := {
  sheet_name : pystr;
  columns : pyval;
  data : list (list pyval)
}.

(** [l[:stop]] on a list, for any integer [stop]: a negative one counts
    from the end. *)
Definition slice_stop {A} (l : list A) (stop : Z) : list A :=
  if decide (stop < 0)%Z then take (Z.to_nat (Z.of_nat (length l) + stop)) l
  else take (Z.to_nat stop) l.

Definition pad_or_truncate (num_cols : Z) (normalized_row : list pyval) : list pyval :=
  let n := Z.of_nat (length normalized_row) in
  if decide (n < num_cols)%Z then
    normalized_row ++ replicate (Z.to_nat (num_cols - n)) VNone
  else if decide (num_cols < n)%Z then
    slice_stop normalized_row num_cols
  else normalized_row.

Definition _normalize_rows (rows : pyval) (num_cols : Z) : result (list (list pyval)) :=
  rs ← Py.iter rows;
  mapM (fun row => normalized_row ← Py.iter row;
                   Ok (pad_or_truncate num_cols normalized_row)) rs.

(** The part of the loop body that is the converter's own (lines 78 to
    90 and 94): the two arguments of [pd.DataFrame] and the sheet name.
    The pandas calls of lines 93 and 95 come with [write_table] below.
    [num_cols] is a [len] or a maximum of [len]s here, never negative. *)
Definition table_to_sheet (idx : nat) (table : pyval) : result sheet :=
  h ← Py.get table (lit "headers") VNone;
  let headers := Py.or_ h (VList []) in
  r ← Py.get table (lit "rows") VNone;
  let rows := Py.or_ r (VList []) in
  num_cols ← (if Py.truthy headers then Py.len headers
              else rs ← Py.iter rows; lens ← mapM Py.len rs; Ok (max_list lens));
  rows_norm ← _normalize_rows rows (Z.of_nat num_cols);
  headers ← (if Py.truthy headers then
               n ← Py.len headers;
               if decide (n ≠ num_cols) then Py.slice_to headers num_cols
               else Ok headers
             else Ok headers);
  let headers :=
    if Py.truthy headers then headers
    else VList (map (fun i => VStr (lit "col_" ++ str_of_nat (i + 1))) (seq 0 num_cols)) in
  Ok {| sheet_name := lit "Table" ++ str_of_nat idx;
        columns := headers;
        data := rows_norm |}.

(** What is found at [json_path]: nothing, text [json.loads] rejects, or
    a document. *)
Inductive json_file :=
| Missing
| Malformed
| Document (data : pyval).

Inductive path :=
| Path (p : pystr)
| WithSuffixXlsx (p : pystr).

(** The calls into pandas: [pd.ExcelWriter(out_path, engine="openpyxl")],
    [pd.DataFrame(rows_norm, columns=headers)],
    [df.to_excel(writer, index=False, sheet_name=sheet_name)] and the
    writer's [__exit__], which saves the workbook.  What they do is the
    business of pandas, of openpyxl and of the file system; each of them
    may raise, and the converter is defined for whatever they do.  The
    frame is kept as the two arguments it was built from;
    [to_excel] and [ExcelWriter_exit] see the sheets the writer holds
    already. *)
Record pandas := {
  ExcelWriter : path → result unit;
  DataFrame : list (list pyval) → pyval → result unit;
  to_excel : path → list sheet → sheet → result unit;
  ExcelWriter_exit : path → list sheet → result unit
}.

(** The whole body of the loop: the frame is built and written.  The
    sheet name is computed between the two calls; computing it cannot
    fail. *)
Definition write_table (pd : pandas) (out_path : path) (done : list sheet)
    (idx : nat) (table : pyval) : result sheet :=
  sh ← table_to_sheet idx table;
  _ ← DataFrame pd (data sh) (columns sh);
  _ ← to_excel pd out_path done sh;
  Ok sh.

(** The state of the conversion: whether the workbook writer was opened
    and the sheets handed to it so far. *)
Record output := {
  writer_opened : bool;
  written : list sheet
}.

Fixpoint write_tables (pd : pandas) (out_path : path) (idx : nat) (tables : list pyval)
    (done : list sheet) : result unit * list sheet :=
  match tables with
  | [] => (Ok (), done)
  | table :: rest =>
      match write_table pd out_path done idx table with
      | Ok sh => write_tables pd out_path (S idx) rest (done ++ [sh])
      | Raise e => (Raise e, done)
      end
  end.

Definition isinstance_list (v : pyval) : bool :=
  match v with
  | VList _ => true
  | _ => false
  end.

(** [out_xlsx], or [json_file.with_suffix(".xlsx")] without one. *)
Definition out_path_of (json_path : pystr) (out_xlsx : option pystr) : path :=
  match out_xlsx with
  | None => WithSuffixXlsx json_path
  | Some p => Path p
  end.

(** The [with] block: the loop runs with the writer open, and the writer
    is left through [__exit__] whether the loop raised or not.  An
    exception of [__exit__] takes the place of the one of the loop. *)
Definition with_writer (pd : pandas) (out_path : path) (tables : pyval)
  : result path * output :=
  match ExcelWriter pd out_path with
  | Raise e => (Raise e, Build_output false [])
  | Ok _ =>
      let (r, w) :=
        match Py.iter tables with
        | Raise e => (Raise e, [])
        | Ok ts => write_tables pd out_path 1 ts []
        end in
      match ExcelWriter_exit pd out_path w, r with
      | Raise e, _ => (Raise e, Build_output true w)
      | Ok _, Raise e => (Raise e, Build_output true w)
      | Ok _, Ok _ => (Ok out_path, Build_output true w)
      end
  end.

(** The [try] block. *)
Definition convert (pd : pandas) (json_path : pystr) (file : json_file)
    (out_xlsx : option pystr) : result path * output :=
  match file with
  | Missing => (Raise FileNotFoundError, Build_output false [])
  | Malformed => (Raise JSONDecodeError, Build_output false [])
  | Document data =>
      match Py.get data (lit "tables") VNone with
      | Raise e => (Raise e, Build_output false [])
      | Ok t =>
          let tables := Py.or_ t (VList []) in
          if negb (isinstance_list tables) || negb (Py.truthy tables) then
            (Raise ValidationError, Build_output false [])
          else with_writer pd (out_path_of json_path out_xlsx) tables
      end
  end.

(** [except Exception as e: ... raise FileProcessingError(...)] around
    the whole block. *)
Definition json_tables_to_excel (pd : pandas) (json_path : pystr) (file : json_file)
    (out_xlsx : option pystr) : result path * output :=
  match convert pd json_path file out_xlsx with
  | (Ok p, o) => (Ok p, o)
  | (Raise _, o) => (Raise FileProcessingError, o)
  end.

End JSONToExcelConverter.

(** ** Vocabulary of the specification *)

Module Spec.
Import PyStr Re Datetime Utils JSONToExcelConverter.

Definition all_digits (s : pystr) : Prop := Forall (fun c => is_digit c = true) s.

(** One or two decimal digits. *)
Definition short_num (s : pystr) : Prop :=
  (length s = 1 ∨ length s = 2)%nat ∧ all_digits s.

(** The text [Y U+B144 M U+C6D4 D U+C77C] and when it is a year-bearing
    date: four digits, then one or two, then one or two. *)
Definition year_text (Y M D : pystr) : pystr := Y ++ [NYEON] ++ M ++ [WOL] ++ D ++ [IL].

Definition year_shape (Y M D : pystr) : Prop :=
  length Y = 4%nat ∧ all_digits Y ∧ short_num M ∧ short_num D.

(** The text [M U+C6D4 D U+C77C] without a year. *)
Definition md_text (M D : pystr) : pystr := M ++ [WOL] ++ D ++ [IL].

Definition md_shape (M D : pystr) : Prop := short_num M ∧ short_num D.

(** A run of eight consecutive decimal digits. *)
Definition eight_digits (run : pystr) : Prop := length run = 8%nat ∧ all_digits run.

(** [s] has a year-bearing date, a year-less date, eight digits, starting
    at offset [i]. *)
Definition year_date_at (i : nat) (s : pystr) : Prop :=
  ∃ Y M D rest, drop i s = year_text Y M D ++ rest ∧ year_shape Y M D.

Definition md_date_at (i : nat) (s : pystr) : Prop :=
  ∃ M D rest, drop i s = md_text M D ++ rest ∧ md_shape M D.

Definition eight_digits_at (i : nat) (s : pystr) : Prop :=
  ∃ run rest, drop i s = run ++ rest ∧ eight_digits run.

(** Zero-padded to two digits. *)
Definition pad2 (s : pystr) : pystr := replicate (2 - length s) 48 ++ s.

(** The date parses under [%Y%m%d]. *)
Definition calendar_valid (run : pystr) : Prop := ∃ ymd, strptime run = Ok ymd.

(** The first maximal run of decimal digits of a string. *)
Fixpoint take_digits (s : pystr) : pystr :=
  match s with
  | c :: t => if is_digit c then c :: take_digits t else []
  | [] => []
  end.

Fixpoint first_digit_run (s : pystr) : pystr :=
  match s with
  | c :: t => if is_digit c then take_digits s else first_digit_run t
  | [] => []
  end.

(** A message as the mailbox search supplies it: a [dict] whose
    ['subject'], when present, is a [str]. *)
Definition well_formed_message (c : pyval) : Prop :=
  ∃ d, c = VDict d ∧
       (Py.dict_lookup (lit "subject") d = None ∨
        ∃ s, Py.dict_lookup (lit "subject") d = Some (VStr s)).

Definition lacks_subject (c : pyval) : Prop :=
  ∃ d, c = VDict d ∧ Py.dict_lookup (lit "subject") d = None.

(** The subject text of a message, empty when the key is absent. *)
Definition subject_of (c : pyval) : pystr :=
  match c with
  | VDict d =>
      match Py.dict_lookup (lit "subject") d with
      | Some (VStr s) => s
      | _ => []
      end
  | _ => []
  end.

(** The date parsed from the subject of a message, if any. *)
Definition parsed_date (now : datetime) (c : pyval) : option pystr :=
  match parse_date_from_subject now (VStr (subject_of c)) with
  | Ok (Some d) => Some d
  | _ => None
  end.

(** The date a message is ranked by: its parsed date, ["00000000"] when
    it has none. *)
Definition date_key (now : datetime) (c : pyval) : pystr :=
  match parsed_date now c with
  | Some d => d
  | None => lit "00000000"
  end.

(** A subject whose parse never reaches the clock: pattern 1 matches, or
    the first eight-digit run is a calendar date, or no year-less date
    is there to complete. *)
Definition clock_free (s : pystr) : Prop :=
  (∃ i, year_date_at i s) ∨
  (∃ i run rest, drop i s = run ++ rest ∧ eight_digits run ∧
     (∀ l, (l < i)%nat → ¬ eight_digits_at l s) ∧ calendar_valid run) ∨
  (∀ i, ¬ md_date_at i s).

(** The entry [key] of a JSON object is the list [l]; a missing or null
    entry stands for the empty list. *)
Definition has_list (key : pystr) (d : list (pystr * pyval)) (l : list pyval) : Prop :=
  Py.dict_lookup key d = Some (VList l) ∨
  (l = [] ∧ (Py.dict_lookup key d = None ∨ Py.dict_lookup key d = Some VNone)).

(** A table of the input: headers [H] and rows [R]. *)
Definition table_of (t : pyval) (H : list pyval) (R : list (list pyval)) : Prop :=
  ∃ d, t = VDict d ∧ has_list (lit "headers") d H ∧ has_list (lit "rows") d (VList <$> R).

(** The target column count: the number of headers when there are
    some, else the greatest row length (0 without rows). *)
Definition target_columns (H : list pyval) (R : list (list pyval)) : nat :=
  match H with
  | [] => max_list (length <$> R)
  | _ => length H
  end.

(** The sheet emitted for a table with headers [H] and rows [R]: [N]
    column names, the given headers or [col_1 .. col_N] when there are
    none, and every row padded with nulls or cut to [N] cells. *)
Definition normalised_from (H : list pyval) (R : list (list pyval)) (sh : sheet) : Prop :=
  let N := target_columns H R in
  ∃ H', columns sh = VList H' ∧
    (H ≠ [] → H' = H) ∧
    (H = [] → ∀ i, (i < N)%nat → H' !! i = Some (VStr (lit "col_" ++ str_of_nat (i + 1)))) ∧
    length (data sh) = length R ∧
    (∀ i r, R !! i = Some r →
       ∃ r', data sh !! i = Some r' ∧
         ((length r < N)%nat → r' = r ++ replicate (N - length r) VNone) ∧
         ((N < length r)%nat → r' = take N r) ∧
         (length r = N → r' = r)) ∧
    length H' = N ∧
    Forall (fun r' => length r' = N) (data sh).

(** The document has no usable ["tables"]: the property is missing, is
    not a list, or is the empty list. *)
Definition no_tables (data : pyval) : Prop :=
  ∃ d, data = VDict d ∧
    (Py.dict_lookup (lit "tables") d = None ∨
     ∃ v, Py.dict_lookup (lit "tables") d = Some v ∧
          (JSONToExcelConverter.isinstance_list v = false ∨ v = VList [])).

(** A continuation that cannot go on with a digit: before it [\d{1,2}]
    takes the whole run of one or two digits. *)
Definition stops_digits {A} (k : cont A) : Prop :=
  ∀ c t caps, is_digit c = true → k (c :: t) caps = None.

(** What pattern 3 alone yields for a subject. *)
Definition pattern3_result (now : datetime) (s : pystr) : option pystr :=
  match re_search pattern3 s with
  | Some g => Some (str_of_N (year now) ++ zfill 2 (group 1 g) ++ zfill 2 (group 2 g))
  | None => None
  end.

(** The synthesized header names [col_1 .. col_n]. *)
Definition col_names (n : nat) : list pyval :=
  map (fun i => VStr (lit "col_" ++ str_of_nat (i + 1))) (seq 0 n).

(** pandas takes the frames of the tables [ts], numbered from [idx] on:
    neither [pd.DataFrame] nor [df.to_excel] raises for them. *)
Definition accepts (pd : pandas) (p : path) (idx : nat) (ts : list pyval) : Prop :=
  ∀ k t sh, ts !! k = Some t → table_to_sheet (idx + k) t = Ok sh →
    DataFrame pd (data sh) (columns sh) = Ok () ∧
    ∀ done, to_excel pd p done sh = Ok ().

Definition str_lt (a b : pystr) : Prop := str_ltb a b = true.
Definition str_le (a b : pystr) : Prop := str_ltb b a = false.

End Spec.

(** ** Sample data *)

Module Samples.
Import PyStr Datetime JSONToExcelConverter Spec.

Definition sample_now : datetime :=
  {| year := 2026; month := 11; day := 4; hour := 9; minute := 30;
     second := 0; microsecond := 0 |}.

Definition message (id subject : pystr) : pyval :=
  VDict [(lit "id", VStr id); (lit "subject", VStr subject)].

Definition msg1 : pyval := message (lit "msg1") (year_text (lit "2025") (lit "09") (lit "04") ++ lit " report").
Definition msg2 : pyval := message (lit "msg2") (year_text (lit "2025") (lit "09") (lit "06") ++ lit " report").
Definition msg3 : pyval := message (lit "msg3") (year_text (lit "2025") (lit "9") (lit "6") ++ lit " again").
Definition msg4 : pyval := VDict [(lit "id", VStr (lit "msg4"))].

Definition sample_2025 : datetime :=
  {| year := 2025; month := 12; day := 31; hour := 23; minute := 59;
     second := 59; microsecond := 0 |}.

Definition msg_md : pyval := message (lit "b") (md_text (lit "09") (lit "05") ++ lit " report").
Definition msg_eve : pyval := message (lit "a") (year_text (lit "2025") (lit "12") (lit "31") ++ lit " report").
Definition msg_new : pyval := message (lit "n") (md_text (lit "01") (lit "01") ++ lit " report").

Definition table1 : pyval :=
  VDict [(lit "headers", VList [VStr (lit "a"); VStr (lit "b")]);
         (lit "rows", VList [VList [VStr (lit "1")];
                             VList [VStr (lit "2"); VStr (lit "3"); VStr (lit "4")]])].

Definition table2 : pyval :=
  VDict [(lit "headers", VList []);
         (lit "rows", VList [VList [VStr (lit "x"); VStr (lit "y")]; VList [VStr (lit "z")]])].

(** The second table with a BEL character in a cell. *)
Definition table_bell : pyval :=
  VDict [(lit "headers", VList []);
         (lit "rows", VList [VList [VStr (lit "x"); VStr [7]]; VList [VStr (lit "z")]])].

(** A pandas for which every call goes through. *)
Definition pandas_ok : pandas :=
  {| ExcelWriter := fun _ => Ok ();
     DataFrame := fun _ _ => Ok ();
     to_excel := fun _ _ _ => Ok ();
     ExcelWriter_exit := fun _ _ => Ok () |}.

(** The characters openpyxl refuses in a cell. *)
Definition illegal_character (c : N) : bool :=
  (c <=? 8) || (11 <=? c) && (c <=? 12) || (14 <=? c) && (c <=? 31).

Definition illegal_cell (v : pyval) : bool :=
  match v with
  | VStr s => existsb illegal_character s
  | _ => false
  end.

(** A pandas whose [to_excel] refuses such cells and does nothing else
    wrong. *)
Definition pandas_openpyxl : pandas :=
  {| ExcelWriter := fun _ => Ok ();
     DataFrame := fun _ _ => Ok ();
     to_excel := fun _ _ sh =>
       if existsb (existsb illegal_cell) (data sh)
       then Raise (LibraryError (lit "IllegalCharacterError"))
       else Ok ();
     ExcelWriter_exit := fun _ _ => Ok () |}.

End Samples.

Import PyStr Re Datetime Utils JSONToExcelConverter Spec Samples.

(** ** gmail_crawler/utils/utils.py: file names and documents *)

Module FileNames.
Import PyStr Datetime.

(** [s.startswith(p)] *)
Fixpoint starts_with (p s : pystr) : bool :=
  match p, s with
  | [], _ => true
  | _ :: _, [] => false
  | a :: p', b :: s' => (a =? b) && starts_with p' s'
  end.

(** [sub in s] *)
Fixpoint contains (sub s : pystr) : bool :=
  starts_with sub s ||
  match s with
  | [] => false
  | _ :: t => contains sub t
  end.

(** [c in chars] for one character. *)
Definition char_in (c : N) (chars : pystr) : bool := existsb (N.eqb c) chars.

(** [s.replace(old, new)] for a non-empty [old]: the occurrences of [old]
    are replaced from the left, without overlap.  [skip] counts the
    characters of the occurrence just replaced that are still to pass. *)
Fixpoint replace_from (old new : pystr) (skip : nat) (s : pystr) : pystr :=
  match s with
  | [] => []
  | c :: t =>
      match skip with
      | S k => replace_from old new k t
      | O =>
          if starts_with old s then new ++ replace_from old new (length old - 1) t
          else c :: replace_from old new 0 t
      end
  end.

Definition replace (old new s : pystr) : pystr := replace_from old new 0 s.

(** [s.lstrip(chars)], [s.rstrip(chars)], [s.strip(chars)] *)
Fixpoint lstrip (chars s : pystr) : pystr :=
  match s with
  | [] => []
  | c :: t => if char_in c chars then lstrip chars t else s
  end.

Definition rstrip (chars s : pystr) : pystr := reverse (lstrip chars (reverse s)).

Definition strip (chars s : pystr) : pystr := rstrip chars (lstrip chars s).

(** The characters [unsafe_chars] of the source: less-than, greater-than,
    colon, double quote (code 34), slash, backslash, bar, question mark
    and star. *)
Definition unsafe_chars : pystr := lit "<>:" ++ [34] ++ lit "/\|?*".

(** The loop [while '__' in filename: filename = filename.replace('__', '_')].
    Each round shortens the name, so [rounds = len(filename)] rounds are
    never used up. *)
Fixpoint squeeze (rounds : nat) (filename : pystr) : pystr :=
  if contains (lit "__") filename then
    match rounds with
    | S n => squeeze n (replace (lit "__") (lit "_") filename)
    | O => filename
    end
  else filename.

Definition clean_filename (filename : pystr) : pystr :=
  let filename :=
    fold_left (fun name char => replace [char] (lit "_") name) unsafe_chars filename in
  let filename := squeeze (length filename) filename in
  strip (lit "_") filename.

Definition create_table_html (tables_html : pystr) : pystr :=
  lit "<html><head><meta charset='utf-8'>"
  ++ lit "<style>table{border-collapse:collapse;} td,th{border:1px solid #ccc;padding:4px;}</style>"
  ++ lit "</head><body>"
  ++ tables_html
  ++ lit "</body></html>".

Definition create_full_html (html_content : pystr) : pystr :=
  lit "<html><head><meta charset='utf-8'></head><body>" ++ html_content
  ++ lit "</body></html>".

(** [datetime.now().strftime("%Y%m%d_%H%M%S")].  [%m], [%d], [%H], [%M]
    and [%S] are two digits, zero-padded; [%Y] is the year in decimal
    (below 1000 its padding is left to the C library: glibc gives none). *)
Definition two_digits (n : N) : pystr := zfill 2 (str_of_N n).

Definition generate_timestamp (now : datetime) : pystr :=
  str_of_N (year now) ++ two_digits (month now) ++ two_digits (day now)
  ++ lit "_"
  ++ two_digits (hour now) ++ two_digits (minute now) ++ two_digits (second now).

End FileNames.

(** ** gmail_crawler/models/models.py *)

Module Models.
Import PyStr FileNames.

(** The characters [s.strip()] removes: those [str.isspace] accepts
    (Unicode 14.0). *)
Definition whitespace : pystr :=
  [9; 10; 11; 12; 13; 28; 29; 30; 31; 32; 133; 160; 5760; 8192; 8193; 8194;
   8195; 8196; 8197; 8198; 8199; 8200; 8201; 8202; 8232; 8233; 8239; 8287;
   12288].

Record EmailData := {
  message_id : pystr;
  sender : pystr;
  subject : pystr;
  date : pystr;
  html_content : option pystr;
  text_content : option pystr;
  tables_html : option pystr
}.

(** [bool(s and s.strip())] for an optional [str]. *)
Definition and_stripped (s : option pystr) : bool :=
  match s with
  | None => false
  | Some [] => false
  | Some text =>
      match strip whitespace text with
      | [] => false
      | _ => true
      end
  end.

Definition has_tables (e : EmailData) : bool := and_stripped (tables_html e).

Definition has_html (e : EmailData) : bool := and_stripped (html_content e).

End Models.

(** ** gmail_crawler/core/workflow.py *)

Module Workflow.
Import PyStr Datetime Utils FileNames Models.

(** What the workflow can raise: an exception of the layers below, a
    [KeyError] of its own subscripts, its [GmailCrawlerError], and the
    errors of the mail collaborator. *)
Inductive error :=
| Builtin (e : exn)
| KeyError
| GmailCrawlerError
| EmailNotFoundError
| EmailExtractionError.

Inductive outcome (A : Type) :=
| Done (a : A)
| Failed (e : error).
Arguments Done {A} a.
Arguments Failed {A} e.

#[global] Instance outcome_ret : MRet outcome := fun A a => Done a.
#[global] Instance outcome_bind : MBind outcome := fun A B f m =>
  match m with
  | Done a => f a
  | Failed e => Failed e
  end.

Definition of_result {A} (r : result A) : outcome A :=
  match r with
  | Ok a => Done a
  | Raise e => Failed (Builtin e)
  end.

(** [obj[key]] with a [str] key. *)
Definition getitem (obj : pyval) (key : pystr) : outcome pyval :=
  match obj with
  | VDict d =>
      match Py.dict_lookup key d with
      | Some v => Done v
      | None => Failed KeyError
      end
  | _ => Failed (Builtin TypeError)
  end.

(** The methods of [EmailExtractor] the workflow calls; they talk to the
    mail service. *)
Record EmailExtractor := {
  list_messages_from_sender : pystr → Z → outcome (list pyval);
  get_email_data : pyval → outcome EmailData
}.

(** The fields of [Config] that [extract_email_data] and
    [save_email_html] read. *)
Record Config := {
  sender_name : pystr;
  config_message_id : option pystr;
  max_results : Z
}.

(** Truth value of an optional [str]. *)
Definition given (s : option pystr) : bool :=
  match s with
  | Some (_ :: _) => true
  | _ => false
  end.

(** [GmailTableExtractor.extract_email_data]; the handler around the body
    logs and raises the same exception again. *)
Definition extract_email_data (now : datetime) (config : Config)
    (email_extractor : option EmailExtractor) (target_date : option pystr)
  : outcome (option EmailData) :=
  match email_extractor with
  | None => Failed GmailCrawlerError
  | Some extractor =>
      if given (config_message_id config) then
        email ← get_email_data extractor (VStr (default [] (config_message_id config)));
        Done (Some email)
      else
        messages_data ← list_messages_from_sender extractor
                          (sender_name config) (max_results config);
        match messages_data with
        | [] => Done None
        | _ =>
            selected_message ←
              (if given target_date then
                 selected ← of_result (find_message_by_date now messages_data
                                         (default [] target_date));
                 match selected with
                 | Some message =>
                     if Py.truthy message then
                       _ ← getitem message (lit "subject");
                       Done selected
                     else Done selected
                 | None => Done selected
                 end
               else
                 selected ← of_result (find_latest_message now messages_data);
                 match selected with
                 | Some message =>
                     if Py.truthy message then
                       subject ← getitem message (lit "subject");
                       _ ← of_result (parse_date_from_subject now subject);
                       Done selected
                     else Done selected
                 | None => Done selected
                 end);
            match selected_message with
            | Some message =>
                if Py.truthy message then
                  id ← getitem message (lit "id");
                  email ← get_email_data extractor id;
                  Done (Some email)
                else Done None
            | None => Done None
            end
        end
  end.

(** The file [save_email_html] hands to [save_html_file]: its name inside
    the output directory and its content. *)
Record html_file := {
  file_name : pystr;
  file_content : pystr
}.

(** [str + None] and the like raise [TypeError]. *)
Definition as_str (s : option pystr) : result pystr :=
  match s with
  | Some text => Ok text
  | None => Raise TypeError
  end.

(** [GmailTableExtractor.save_email_html], up to the call of
    [save_html_file]; [now] is the clock [generate_timestamp] reads. *)
Definition save_email_html (now : datetime) (config : Config) (email_data : EmailData)
  : result (option html_file) :=
  if negb (has_html email_data) && negb (has_tables email_data) then Ok None
  else
    let timestamp := generate_timestamp now in
    let sender_clean := clean_filename (sender_name config) in
    if has_tables email_data then
      tables ← as_str (tables_html email_data);
      Ok (Some {| file_name := sender_clean ++ lit "_" ++ timestamp ++ lit ".html";
                  file_content := create_table_html tables |})
    else
      html ← as_str (html_content email_data);
      Ok (Some {| file_name := sender_clean ++ lit "_" ++ timestamp ++ lit ".html";
                  file_content := create_full_html html |}).

End Workflow.

(** ** Vocabulary for file names *)

Module FileNameSpec.
Import PyStr FileNames.

(** A name [clean_filename] has nothing to do on: no unsafe character,
    no two underscores in a row, no underscore at either end. *)
Definition clean_name (s : pystr) : Prop :=
  Forall (fun c => char_in c unsafe_chars = false) s ∧
  contains (lit "__") s = false ∧
  head s ≠ Some 95 ∧ last s ≠ Some 95.

(** The characters [clean_filename] leaves alone: all but the unsafe ones
    and the underscore. *)
Definition kept (c : N) : bool := negb (char_in c unsafe_chars) && negb (c =? 95).

End FileNameSpec.

(** ** Vocabulary for the workflow *)

Module WorkflowSpec.
Import PyStr Datetime FileNames Models Workflow.

(** ASCII digits only. *)
Definition ascii_digits (s : pystr) : Prop := Forall (fun c => 48 <= c <= 57) s.

(** A clock reading with a four-digit year and fields in their ranges. *)
Definition clock_in_range (now : datetime) : Prop :=
  1000 <= year now <= 9999 ∧ 1 <= month now <= 12 ∧ 1 <= day now <= 31 ∧
  hour now <= 23 ∧ minute now <= 59 ∧ second now <= 59.

(** Absent, or nothing but white space. *)
Definition blank (s : option pystr) : Prop :=
  match s with
  | None => True
  | Some text => Forall (fun c => char_in c whitespace = true) text
  end.

(** A message with a ['subject'] that is a [str]. *)
Definition has_subject (c : pyval) : Prop :=
  ∃ d s, c = VDict d ∧ Py.dict_lookup (lit "subject") d = Some (VStr s).

(** Fetching the mail of the message [d]: its ['id'] goes to
    [get_email_data]; without the key the subscript raises. *)
Definition fetch (extractor : EmailExtractor) (d : list (pystr * pyval))
  : outcome (option EmailData) :=
  match Py.dict_lookup (lit "id") d with
  | Some id =>
      match get_email_data extractor id with
      | Done email => Done (Some email)
      | Failed e => Failed e
      end
  | None => Failed KeyError
  end.

End WorkflowSpec.

(** ** Sample mails *)

Module WorkflowSamples.
Import PyStr Datetime Spec Samples FileNames Models Workflow.

Definition sample_config : Config :=
  {| sender_name := lit "Joy/Food <orders>";
     config_message_id := None;
     max_results := 10 |}.

Definition sample_email : EmailData :=
  {| message_id := lit "m1";
     sender := lit "orders";
     subject := lit "report";
     date := lit "Thu, 4 Sep 2025";
     html_content := Some (lit "<p>hello</p>");
     text_content := None;
     tables_html := Some (lit "<table></table>") |}.

(** A mail service that lists three messages and fetches any id. *)
Definition sample_extractor : EmailExtractor :=
  {| list_messages_from_sender := fun _ _ => Done [msg1; msg2; msg3];
     get_email_data := fun id =>
       match id with
       | VStr i => Done {| message_id := i; sender := []; subject := []; date := [];
                           html_content := None; text_content := None;
                           tables_html := None |}
       | _ => Failed EmailExtractionError
       end |}.

(** A mail service whose only message has an id and no subject. *)
Definition bare_extractor : EmailExtractor :=
  {| list_messages_from_sender := fun _ _ => Done [msg4];
     get_email_data := get_email_data sample_extractor |}.

End WorkflowSamples.

(** ** Proof automation *)

Ltac norm_app :=
  repeat first [rewrite <- app_assoc | rewrite <- app_comm_cons | progress simpl].

Ltac shape_tac :=
  unfold year_shape, md_shape, eight_digits, short_num, all_digits;
  split_and!; first [reflexivity | by left | by right | by repeat constructor].

Ltac offsets l Hl tac :=
  first [ by (exfalso; simpl in Hl; lia)
        | destruct l as [|l]; [ tac | offsets l Hl tac ] ].

Ltac no_match_here := vm_compute; intros Hne; apply Hne; reflexivity.

Ltac wf_tac :=
  repeat constructor; eexists; (split; [reflexivity|]);
  first [by left | right; eexists; reflexivity].

(** ** Facts about the regular-expression matcher *)

Lemma NYEON_not_digit : is_digit NYEON = false.
Proof. reflexivity. Qed.

Lemma WOL_not_digit : is_digit WOL = false.
Proof. reflexivity. Qed.

Lemma IL_not_digit : is_digit IL = false.
Proof. reflexivity. Qed.

Lemma group_text (p r : pystr) : take (length (p ++ r) - length r) (p ++ r) = p.
Proof.
  rewrite length_app.
  replace (length p + length r - length r)%nat with (length p) by lia.
  apply take_app_length.
Qed.

Section ReFacts.
Context {A : Type}.
Implicit Types (k : cont A) (s : pystr) (caps : list pystr) (x : A).

Lemma first_some_Some (a b : option A) x :
  first_some a b = Some x ↔ a = Some x ∨ (a = None ∧ b = Some x).
Proof. destruct a; simpl; naive_solver. Qed.

Lemma first_some_None (a b : option A) :
  first_some a b = None ↔ a = None ∧ b = None.
Proof. destruct a; simpl; naive_solver. Qed.

Lemma one_char_Some (p : N → bool) k s caps x :
  one_char p k s caps = Some x ↔ ∃ c rest, s = c :: rest ∧ p c = true ∧ k rest caps = Some x.
Proof.
  unfold one_char. destruct s as [|c t].
  - split; [discriminate|]. intros (? & ? & ? & _). discriminate.
  - destruct (p c) eqn:E; split.
    + intros H. exists c, t. auto.
    + intros (? & ? & [= <- <-] & _ & H). exact H.
    + discriminate.
    + intros (? & ? & [= <- <-] & E' & _). congruence.
Qed.

Lemma rmatch_chr c k s caps x :
  rmatch (Chr c) k s caps = Some x ↔ ∃ rest, s = c :: rest ∧ k rest caps = Some x.
Proof.
  simpl. rewrite one_char_Some. split.
  - intros (c' & rest & -> & E & H). apply N.eqb_eq in E. subst. eauto.
  - intros (rest & -> & H). exists c, rest. rewrite N.eqb_refl. eauto.
Qed.

Lemma rep_exact_digit n k s caps x :
  rep_exact (rmatch Digit) n k s caps = Some x ↔
  ∃ Y rest, s = Y ++ rest ∧ length Y = n ∧ all_digits Y ∧ k rest caps = Some x.
Proof.
  revert s. induction n as [|n IH]; intros s; simpl.
  - split.
    + intros H. exists [], s. repeat split; auto. constructor.
    + intros (Y & rest & -> & HY & _ & H). destruct Y; [done|discriminate].
  - rewrite one_char_Some. split.
    + intros (c & t & -> & Hc & H). apply IH in H as (Y & rest & -> & HY & HD & H).
      exists (c :: Y), rest. repeat split; simpl; auto. constructor; auto.
    + intros (Y & rest & -> & HY & HD & H). destruct Y as [|c Y]; [discriminate|].
      inversion HD; subst. exists c, (Y ++ rest). repeat split; auto.
      apply IH. exists Y, rest. repeat split; auto.
Qed.

Lemma rmatch_group_digits n k s caps x :
  rmatch (Group (digits n)) k s caps = Some x ↔
  ∃ Y rest, s = Y ++ rest ∧ length Y = n ∧ all_digits Y ∧ k rest (caps ++ [Y]) = Some x.
Proof.
  unfold digits. cbn [rmatch rep_greedy]. rewrite rep_exact_digit. split.
  - intros (Y & rest & -> & HY & HD & H). rewrite group_text in H. eauto 10.
  - intros (Y & rest & -> & HY & HD & H). exists Y, rest. rewrite group_text. eauto.
Qed.

Lemma rmatch_group_digits_1_2 k s caps x :
  stops_digits k →
  rmatch (Group digits_1_2) k s caps = Some x ↔
  ∃ M rest, s = M ++ rest ∧ short_num M ∧ k rest (caps ++ [M]) = Some x.
Proof.
  intros Hk. unfold digits_1_2. cbn [rmatch rep_exact rep_greedy].
  rewrite one_char_Some. split.
  - intros (c1 & t & -> & H1 & H). apply first_some_Some in H as [H|[_ H]].
    + apply one_char_Some in H as (c2 & t' & -> & H2 & H).
      exists [c1; c2], t'. change ([c1; c2] ++ t') with (c1 :: c2 :: t') in *.
      change (c1 :: c2 :: t') with ([c1; c2] ++ t') in H. rewrite group_text in H.
      repeat split; auto. repeat constructor; auto.
    + exists [c1], t. change (c1 :: t) with ([c1] ++ t) in H. rewrite group_text in H.
      repeat split; auto. repeat constructor; auto.
  - intros (M & rest & -> & [HL HD] & H).
    destruct M as [|c1 [|c2 [|? ?]]]; simpl in HL; try lia.
    + inversion HD; subst. exists c1, rest. repeat split; auto.
      apply first_some_Some. right. split.
      * destruct rest as [|c2 t]; [done|]. simpl.
        destruct (is_digit c2) eqn:E; [|done].
        rewrite (Hk c2 t) in H by done. discriminate.
      * change (c1 :: rest) with ([c1] ++ rest). by rewrite group_text.
    + inversion HD as [|? ? H1 HD']; subst. inversion HD'; subst.
      exists c1, (c2 :: rest). repeat split; auto.
      apply first_some_Some. left. apply one_char_Some.
      exists c2, rest. repeat split; auto.
      change (c1 :: c2 :: rest) with ([c1; c2] ++ rest). by rewrite group_text.
Qed.

Lemma stops_digits_chr c k : is_digit c = false → stops_digits (rmatch (Chr c) k).
Proof.
  intros Hc c' t caps Hd. simpl. destruct (N.eqb_spec c c'); [congruence|done].
Qed.

End ReFacts.

Lemma rmatch_seq {A} (a b : re) (k : cont A) : rmatch (Seq a b) k = rmatch a (rmatch b k).
Proof. reflexivity. Qed.

Lemma pattern1_match s caps rest :
  re_match pattern1 s = Some (caps, rest) ↔
  ∃ Y M D, caps = [Y; M; D] ∧ s = year_text Y M D ++ rest ∧ year_shape Y M D.
Proof.
  unfold re_match, pattern1, year_text, year_shape. rewrite !rmatch_seq. split.
  - intros H.
    apply rmatch_group_digits in H as (Y & r1 & -> & HY & HYd & H).
    apply rmatch_chr in H as (r2 & -> & H).
    apply rmatch_group_digits_1_2 in H as (M & r3 & -> & HM & H);
      [|apply stops_digits_chr, WOL_not_digit].
    apply rmatch_chr in H as (r4 & -> & H).
    apply rmatch_group_digits_1_2 in H as (D & r5 & -> & HD & H);
      [|apply stops_digits_chr, IL_not_digit].
    apply rmatch_chr in H as (r6 & -> & H).
    injection H as <- <-. exists Y, M, D. split_and!; auto. by norm_app.
  - intros (Y & M & D & -> & -> & HY & HYd & HM & HD).
    apply rmatch_group_digits. exists Y, ([NYEON] ++ M ++ [WOL] ++ D ++ [IL] ++ rest).
    split; [by rewrite <- !app_assoc|]. split; [done|]. split; [done|].
    apply rmatch_chr. eexists. split; [reflexivity|].
    apply rmatch_group_digits_1_2; [apply stops_digits_chr, WOL_not_digit|].
    exists M, ([WOL] ++ D ++ [IL] ++ rest). split; [done|]. split; [done|].
    apply rmatch_chr. eexists. split; [reflexivity|].
    apply rmatch_group_digits_1_2; [apply stops_digits_chr, IL_not_digit|].
    exists D, ([IL] ++ rest). split; [done|]. split; [done|].
    apply rmatch_chr. eexists. split; [reflexivity|]. reflexivity.
Qed.

Lemma pattern3_match s caps rest :
  re_match pattern3 s = Some (caps, rest) ↔
  ∃ M D, caps = [M; D] ∧ s = md_text M D ++ rest ∧ md_shape M D.
Proof.
  unfold re_match, pattern3, md_text, md_shape. rewrite !rmatch_seq. split.
  - intros H.
    apply rmatch_group_digits_1_2 in H as (M & r3 & -> & HM & H);
      [|apply stops_digits_chr, WOL_not_digit].
    apply rmatch_chr in H as (r4 & -> & H).
    apply rmatch_group_digits_1_2 in H as (D & r5 & -> & HD & H);
      [|apply stops_digits_chr, IL_not_digit].
    apply rmatch_chr in H as (r6 & -> & H).
    injection H as <- <-. exists M, D. split_and!; auto. by norm_app.
  - intros (M & D & -> & -> & HM & HD).
    apply rmatch_group_digits_1_2; [apply stops_digits_chr, WOL_not_digit|].
    exists M, ([WOL] ++ D ++ [IL] ++ rest). split; [by rewrite <- !app_assoc|]. split; [done|].
    apply rmatch_chr. eexists. split; [reflexivity|].
    apply rmatch_group_digits_1_2; [apply stops_digits_chr, IL_not_digit|].
    exists D, ([IL] ++ rest). split; [done|]. split; [done|].
    apply rmatch_chr. eexists. split; [reflexivity|]. reflexivity.
Qed.

Lemma pattern2_match s caps rest :
  re_match pattern2 s = Some (caps, rest) ↔
  ∃ run, caps = [run] ∧ s = run ++ rest ∧ eight_digits run.
Proof.
  unfold re_match, pattern2, eight_digits. rewrite rmatch_group_digits. split.
  - intros (Y & r & -> & HY & HD & [= <- <-]). eauto.
  - intros (run & -> & -> & HL & HD). exists run, rest. auto.
Qed.

(** [re.search] returns the match at the least offset that has one. *)
Lemma re_search_None r s :
  re_search r s = None ↔ ∀ i, re_match r (drop i s) = None.
Proof.
  induction s as [|c t IH]; simpl.
  - destruct (re_match r []) as [[caps rest]|] eqn:E.
    + split; [discriminate|]. intros H. specialize (H 0%nat). simpl in H. congruence.
    + split; [|done]. intros _ i. by rewrite drop_nil.
  - destruct (re_match r (c :: t)) as [[caps rest]|] eqn:E.
    + split; [discriminate|]. intros H. specialize (H 0%nat). simpl in H. congruence.
    + rewrite IH. split.
      * intros H [|i]; [done|]. apply H.
      * intros H i. apply (H (S i)).
Qed.

Lemma re_search_Some r s caps :
  re_search r s = Some caps ↔
  ∃ i rest, re_match r (drop i s) = Some (caps, rest) ∧
            ∀ j, (j < i)%nat → re_match r (drop j s) = None.
Proof.
  induction s as [|c t IH]; simpl.
  - destruct (re_match r []) as [[caps' rest]|] eqn:E.
    + split.
      * intros [= <-]. exists 0%nat, rest. split; [done|]. intros; lia.
      * intros (i & rest' & H & _). rewrite drop_nil in H. congruence.
    + split; [discriminate|]. intros (i & rest' & H & _). rewrite drop_nil in H. congruence.
  - destruct (re_match r (c :: t)) as [[caps' rest]|] eqn:E.
    + split.
      * intros [= <-]. exists 0%nat, rest. split; [done|]. intros; lia.
      * intros ([|i] & rest' & H & Hmin).
        -- simpl in H. congruence.
        -- specialize (Hmin 0%nat ltac:(lia)). simpl in Hmin. congruence.
    + rewrite IH. split.
      * intros (i & rest & H & Hmin). exists (S i), rest. split; [done|].
        intros [|j] Hj; [done|]. apply Hmin. lia.
      * intros ([|i] & rest & H & Hmin).
        -- simpl in H. congruence.
        -- exists i, rest. split; [done|]. intros j Hj. apply (Hmin (S j)). lia.
Qed.

Lemma year_date_at_match i s :
  year_date_at i s ↔ re_match pattern1 (drop i s) ≠ None.
Proof.
  split.
  - intros (Y & M & D & rest & E & Hs) H.
    assert (re_match pattern1 (drop i s) = Some ([Y; M; D], rest)) as H'
      by (apply pattern1_match; eauto 10).
    congruence.
  - destruct (re_match pattern1 (drop i s)) as [[caps rest]|] eqn:E; [|done].
    intros _. apply pattern1_match in E as (Y & M & D & _ & E & Hs).
    exists Y, M, D, rest. auto.
Qed.

Lemma md_date_at_match i s :
  md_date_at i s ↔ re_match pattern3 (drop i s) ≠ None.
Proof.
  split.
  - intros (M & D & rest & E & Hs) H.
    assert (re_match pattern3 (drop i s) = Some ([M; D], rest)) as H'
      by (apply pattern3_match; eauto 10).
    congruence.
  - destruct (re_match pattern3 (drop i s)) as [[caps rest]|] eqn:E; [|done].
    intros _. apply pattern3_match in E as (M & D & _ & E & Hs).
    exists M, D, rest. auto.
Qed.

Lemma eight_digits_at_match i s :
  eight_digits_at i s ↔ re_match pattern2 (drop i s) ≠ None.
Proof.
  split.
  - intros (run & rest & E & Hs) H.
    assert (re_match pattern2 (drop i s) = Some ([run], rest)) as H'
      by (apply pattern2_match; eauto 10).
    congruence.
  - destruct (re_match pattern2 (drop i s)) as [[caps rest]|] eqn:E; [|done].
    intros _. apply pattern2_match in E as (run & _ & E & Hs).
    exists run, rest. auto.
Qed.

Lemma not_ne_None {A} (o : option A) : ¬ o ≠ None → o = None.
Proof. destruct o; [intros H; destruct H; discriminate|done]. Qed.

(** The first year-bearing date of a subject is what pattern 1 finds. *)
Lemma search_pattern1_first s i Y M D rest :
  drop i s = year_text Y M D ++ rest → year_shape Y M D →
  (∀ j, (j < i)%nat → ¬ year_date_at j s) →
  re_search pattern1 s = Some [Y; M; D].
Proof.
  intros E Hs Hmin. apply re_search_Some. exists i, rest. split.
  - apply pattern1_match. eauto 10.
  - intros j Hj. apply not_ne_None. rewrite <- year_date_at_match. auto.
Qed.

Lemma search_pattern1_Some s caps :
  re_search pattern1 s = Some caps →
  ∃ i Y M D rest, caps = [Y; M; D] ∧ drop i s = year_text Y M D ++ rest ∧
    year_shape Y M D ∧ ∀ j, (j < i)%nat → ¬ year_date_at j s.
Proof.
  intros H. apply re_search_Some in H as (i & rest & H & Hmin).
  apply pattern1_match in H as (Y & M & D & -> & E & Hs).
  exists i, Y, M, D, rest. split_and!; auto.
  intros j Hj. rewrite year_date_at_match. rewrite Hmin by done. auto.
Qed.

Lemma search_pattern1_None s :
  re_search pattern1 s = None ↔ ∀ i, ¬ year_date_at i s.
Proof.
  rewrite re_search_None. split.
  - intros H i. rewrite year_date_at_match, H. auto.
  - intros H i. apply not_ne_None. rewrite <- year_date_at_match. auto.
Qed.

Lemma search_pattern3_first s i M D rest :
  drop i s = md_text M D ++ rest → md_shape M D →
  (∀ j, (j < i)%nat → ¬ md_date_at j s) →
  re_search pattern3 s = Some [M; D].
Proof.
  intros E Hs Hmin. apply re_search_Some. exists i, rest. split.
  - apply pattern3_match. eauto 10.
  - intros j Hj. apply not_ne_None. rewrite <- md_date_at_match. auto.
Qed.

Lemma search_pattern3_Some s caps :
  re_search pattern3 s = Some caps →
  ∃ i M D rest, caps = [M; D] ∧ drop i s = md_text M D ++ rest ∧
    md_shape M D ∧ ∀ j, (j < i)%nat → ¬ md_date_at j s.
Proof.
  intros H. apply re_search_Some in H as (i & rest & H & Hmin).
  apply pattern3_match in H as (M & D & -> & E & Hs).
  exists i, M, D, rest. split_and!; auto.
  intros j Hj. rewrite md_date_at_match. rewrite Hmin by done. auto.
Qed.

Lemma search_pattern3_None s :
  re_search pattern3 s = None ↔ ∀ i, ¬ md_date_at i s.
Proof.
  rewrite re_search_None. split.
  - intros H i. rewrite md_date_at_match, H. auto.
  - intros H i. apply not_ne_None. rewrite <- md_date_at_match. auto.
Qed.

Lemma search_pattern2_first s i run rest :
  drop i s = run ++ rest → eight_digits run →
  (∀ j, (j < i)%nat → ¬ eight_digits_at j s) →
  re_search pattern2 s = Some [run].
Proof.
  intros E Hs Hmin. apply re_search_Some. exists i, rest. split.
  - apply pattern2_match. eauto 10.
  - intros j Hj. apply not_ne_None. rewrite <- eight_digits_at_match. auto.
Qed.

Lemma search_pattern2_None s :
  re_search pattern2 s = None ↔ ∀ i, ¬ eight_digits_at i s.
Proof.
  rewrite re_search_None. split.
  - intros H i. rewrite eight_digits_at_match, H. auto.
  - intros H i. apply not_ne_None. rewrite <- eight_digits_at_match. auto.
Qed.

(** ** Facts about [zfill] *)

Lemma digit_not_sign c : is_digit c = true → (c =? 43) || (c =? 45) = false.
Proof.
  intros H. destruct (N.eqb_spec c 43) as [->|]; [discriminate|].
  destruct (N.eqb_spec c 45) as [->|]; [discriminate|]. reflexivity.
Qed.

Lemma zfill_short_num M : short_num M → zfill 2 M = pad2 M.
Proof.
  intros [HL HD]. destruct M as [|c1 [|c2 [|? ?]]]; simpl in HL; try lia.
  - inversion HD; subst. unfold zfill, pad2. simpl. by rewrite digit_not_sign.
  - reflexivity.
Qed.

(** ** The subject date parser *)

Lemma strptime_raises run e : strptime run = Raise e → e = ValueError.
Proof.
  unfold strptime. destruct (re_match format_regex run) as [[found rest]|]; [|congruence].
  destruct (decide (rest = [])); [|congruence].
  destruct (valid_date _ _ _); congruence.
Qed.

Lemma parse_unfold now s :
  parse_date_from_subject now (VStr s) =
  match re_search pattern1 s with
  | Some g => Ok (Some (group 1 g ++ zfill 2 (group 2 g) ++ zfill 2 (group 3 g)))
  | None =>
      match re_search pattern2 s with
      | Some g =>
          match strptime (group 1 g) with
          | Ok _ => Ok (Some (group 1 g))
          | Raise _ => Ok (pattern3_result now s)
          end
      | None => Ok (pattern3_result now s)
      end
  end.
Proof.
  unfold parse_date_from_subject, pattern3_result. simpl.
  destruct (re_search pattern1 s); [done|].
  destruct (re_search pattern2 s) as [g|]; simpl.
  - destruct (strptime (group 1 g)) as [?|e] eqn:E; [done|].
    apply strptime_raises in E as ->. by destruct (re_search pattern3 s).
  - by destruct (re_search pattern3 s).
Qed.

Lemma parse_year_bearing now s i Y M D rest :
  drop i s = year_text Y M D ++ rest → year_shape Y M D →
  (∀ j, (j < i)%nat → ¬ year_date_at j s) →
  parse_date_from_subject now (VStr s) = Ok (Some (Y ++ pad2 M ++ pad2 D)).
Proof.
  intros E Hs Hmin. rewrite parse_unfold.
  rewrite (search_pattern1_first s i Y M D rest) by done.
  destruct Hs as (_ & _ & HM & HD). simpl.
  by rewrite !zfill_short_num.
Qed.

Lemma first_year_date s i :
  year_date_at i s →
  ∃ j Y M D rest, (j <= i)%nat ∧ drop j s = year_text Y M D ++ rest ∧
    year_shape Y M D ∧ ∀ l, (l < j)%nat → ¬ year_date_at l s.
Proof.
  intros Hi. destruct (re_search pattern1 s) as [caps|] eqn:E.
  - apply search_pattern1_Some in E as (j & Y & M & D & rest & _ & E & Hs & Hmin).
    exists j, Y, M, D, rest. split_and!; auto.
    destruct (decide (j <= i)%nat); [done|]. destruct (Hmin i); [lia|done].
  - rewrite search_pattern1_None in E. destruct (E i Hi).
Qed.

Lemma first_md_date s i :
  md_date_at i s →
  ∃ j M D rest, (j <= i)%nat ∧ drop j s = md_text M D ++ rest ∧
    md_shape M D ∧ ∀ l, (l < j)%nat → ¬ md_date_at l s.
Proof.
  intros Hi. destruct (re_search pattern3 s) as [caps|] eqn:E.
  - apply search_pattern3_Some in E as (j & M & D & rest & _ & E & Hs & Hmin).
    exists j, M, D, rest. split_and!; auto.
    destruct (decide (j <= i)%nat); [done|]. destruct (Hmin i); [lia|done].
  - rewrite search_pattern3_None in E. destruct (E i Hi).
Qed.

Lemma drop_prefix (pre t : pystr) : drop (length pre) (pre ++ t) = t.
Proof. apply drop_app_length. Qed.

Lemma drop_split (s : pystr) i : (i <= length s)%nat → s = take i s ++ drop i s ∧ length (take i s) = i.
Proof. intros H. split; [by rewrite take_drop|]. rewrite length_take. lia. Qed.

Lemma year_text_nonempty Y M D rest : year_text Y M D ++ rest ≠ [].
Proof. unfold year_text. destruct Y; simpl; discriminate. Qed.

Lemma md_text_nonempty M D rest : md_text M D ++ rest ≠ [].
Proof. unfold md_text. destruct M; simpl; discriminate. Qed.

Lemma drop_nonempty_lt (s : pystr) i : drop i s ≠ [] → (i < length s)%nat.
Proof.
  intros H. destruct (decide (i < length s)%nat); [done|].
  rewrite drop_ge in H by lia. done.
Qed.

(** The outcome of pattern 1, for a subject given as the text around one
    of its year-bearing dates. *)
Lemma year_date_parsed now pre Y M D post :
  year_shape Y M D →
  let s := pre ++ year_text Y M D ++ post in
  (∃ pre' Y' M' D' post',
      s = pre' ++ year_text Y' M' D' ++ post' ∧ year_shape Y' M' D' ∧
      (length pre' <= length pre)%nat ∧
      (∀ l, (l < length pre')%nat → ¬ year_date_at l s) ∧
      parse_date_from_subject now (VStr s) = Ok (Some (Y' ++ pad2 M' ++ pad2 D'))) ∧
  ((∀ l, (l < length pre)%nat → ¬ year_date_at l s) →
   parse_date_from_subject now (VStr s) = Ok (Some (Y ++ pad2 M ++ pad2 D))).
Proof.
  intros Hs s. split.
  - assert (year_date_at (length pre) s) as Hat.
    { exists Y, M, D, post. split; [apply drop_prefix|done]. }
    apply first_year_date in Hat as (j & Y' & M' & D' & rest & Hj & E & Hs' & Hmin).
    assert (j < length s)%nat as Hlt.
    { apply drop_nonempty_lt. rewrite E. apply year_text_nonempty. }
    destruct (drop_split s j) as [Es Hl]; [lia|].
    exists (take j s), Y', M', D', rest. rewrite Hl, <- E. split_and!; auto.
    apply (parse_year_bearing now s j Y' M' D' rest); auto.
  - intros Hmin. apply (parse_year_bearing now s (length pre) Y M D post); auto.
    apply drop_prefix.
Qed.

(** C8: a subject that contains a text of the form Y U+B144 M U+C6D4 D
    U+C77C, with Y four digits and M, D one or two digits each, parses to
    the year followed by month and day zero-padded to two digits.  The
    date is that of the first such text of the subject, so it is the given
    one when none starts earlier.  The values of month and day are not
    checked against the calendar: no hypothesis restricts them. *)
Theorem year_pattern_returns_padded_date now pre Y M D post :
  year_shape Y M D →
  let s := pre ++ year_text Y M D ++ post in
  (∃ pre' Y' M' D' post',
      s = pre' ++ year_text Y' M' D' ++ post' ∧ year_shape Y' M' D' ∧
      (length pre' <= length pre)%nat ∧
      (∀ l, (l < length pre')%nat → ¬ year_date_at l s) ∧
      parse_date_from_subject now (VStr s) = Ok (Some (Y' ++ pad2 M' ++ pad2 D'))) ∧
  ((∀ l, (l < length pre)%nat → ¬ year_date_at l s) →
   parse_date_from_subject now (VStr s) = Ok (Some (Y ++ pad2 M ++ pad2 D))).
Proof. apply year_date_parsed. Qed.

(** C5: a subject that contains both a year-bearing date Y U+B144 M U+C6D4
    D U+C77C and a calendar-valid run of eight digits parses to the date
    built from the year-bearing pattern (the first such date of the
    subject; the given one when none starts earlier), wherever the eight
    digits stand, before it or after it: the order of the patterns decides,
    not the position in the subject. *)
Theorem year_pattern_beats_eight_digits now pre Y M D post pre2 run post2 :
  year_shape Y M D →
  eight_digits run → calendar_valid run →
  pre ++ year_text Y M D ++ post = pre2 ++ run ++ post2 →
  let s := pre ++ year_text Y M D ++ post in
  (∃ pre' Y' M' D' post',
      s = pre' ++ year_text Y' M' D' ++ post' ∧ year_shape Y' M' D' ∧
      (length pre' <= length pre)%nat ∧
      (∀ l, (l < length pre')%nat → ¬ year_date_at l s) ∧
      parse_date_from_subject now (VStr s) = Ok (Some (Y' ++ pad2 M' ++ pad2 D'))) ∧
  ((∀ l, (l < length pre)%nat → ¬ year_date_at l s) →
   parse_date_from_subject now (VStr s) = Ok (Some (Y ++ pad2 M ++ pad2 D))).
Proof. intros Hs _ _ _. by apply year_date_parsed. Qed.

Lemma parse_no_year_invalid_run now s j run rest :
  (∀ i, ¬ year_date_at i s) →
  drop j s = run ++ rest → eight_digits run →
  (∀ l, (l < j)%nat → ¬ eight_digits_at l s) →
  ¬ calendar_valid run →
  parse_date_from_subject now (VStr s) = Ok (pattern3_result now s).
Proof.
  intros H1 E Hrun Hmin Hbad. rewrite parse_unfold.
  apply search_pattern1_None in H1. rewrite H1.
  rewrite (search_pattern2_first s j run rest) by done.
  change (group 1 [run]) with run.
  destruct (strptime run) as [ymd|e] eqn:Es; [|done].
  destruct Hbad. by exists ymd.
Qed.

Lemma pattern3_result_first now s i M D rest :
  drop i s = md_text M D ++ rest → md_shape M D →
  (∀ l, (l < i)%nat → ¬ md_date_at l s) →
  pattern3_result now s = Some (str_of_N (year now) ++ pad2 M ++ pad2 D).
Proof.
  intros E [HM HD] Hmin. unfold pattern3_result.
  rewrite (search_pattern3_first s i M D rest) by done. simpl.
  by rewrite !zfill_short_num.
Qed.

Lemma pattern3_result_None now s :
  (∀ i, ¬ md_date_at i s) → pattern3_result now s = None.
Proof.
  intros H. unfold pattern3_result. apply search_pattern3_None in H. by rewrite H.
Qed.

(** C6: in a subject with no year-bearing date whose first run of eight
    consecutive digits ([run], after [pre]) is not a calendar date under
    [%Y%m%d], the eight-digit pattern is given up altogether: the outcome
    is that of the year-less pattern alone, whatever other digit runs the
    subject holds.  So it is absent when the subject has no text M U+C6D4
    D U+C77C, and otherwise the current year of the call followed by the
    zero-padded month and day of the first such text. *)
Theorem invalid_eight_digits_fall_through now pre run post :
  let s := pre ++ run ++ post in
  (∀ i, ¬ year_date_at i s) →
  eight_digits run →
  (∀ l, (l < length pre)%nat → ¬ eight_digits_at l s) →
  ¬ calendar_valid run →
  ((∀ i, ¬ md_date_at i s) → parse_date_from_subject now (VStr s) = Ok None) ∧
  (∀ pre3 M D post3,
     s = pre3 ++ md_text M D ++ post3 → md_shape M D →
     (∀ l, (l < length pre3)%nat → ¬ md_date_at l s) →
     parse_date_from_subject now (VStr s) =
       Ok (Some (str_of_N (year now) ++ pad2 M ++ pad2 D))) ∧
  (∀ pre3 M D post3,
     s = pre3 ++ md_text M D ++ post3 → md_shape M D →
     ∃ pre' M' D' post',
       s = pre' ++ md_text M' D' ++ post' ∧ md_shape M' D' ∧
       (length pre' <= length pre3)%nat ∧
       parse_date_from_subject now (VStr s) =
         Ok (Some (str_of_N (year now) ++ pad2 M' ++ pad2 D'))).
Proof.
  intros s H1 Hrun Hmin Hbad.
  assert (parse_date_from_subject now (VStr s) = Ok (pattern3_result now s)) as Hp.
  { apply (parse_no_year_invalid_run now s (length pre) run post); auto.
    apply drop_prefix. }
  rewrite Hp. split_and!.
  - intros H3. by rewrite pattern3_result_None.
  - intros pre3 M D post3 E Hs Hmin3.
    rewrite (pattern3_result_first now s (length pre3) M D post3); auto.
    rewrite E. apply drop_prefix.
  - intros pre3 M D post3 E Hs.
    assert (md_date_at (length pre3) s) as Hat.
    { exists M, D, post3. split; [|done]. rewrite E. apply drop_prefix. }
    apply first_md_date in Hat as (j & M' & D' & rest & Hj & E' & Hs' & Hmin').
    assert (j < length s)%nat as Hlt.
    { apply drop_nonempty_lt. rewrite E'. apply md_text_nonempty. }
    destruct (drop_split s j) as [Es Hl]; [lia|].
    exists (take j s), M', D', rest. rewrite Hl, <- E'. split_and!; auto.
    by rewrite (pattern3_result_first now s j M' D' rest).
Qed.

(** ** The first digit run *)

Lemma take_digits_prefix s : ∃ rest, s = take_digits s ++ rest.
Proof.
  induction s as [|c t [rest IH]]; simpl.
  - by exists [].
  - destruct (is_digit c).
    + exists rest. simpl. by rewrite <- IH.
    + by exists (c :: t).
Qed.

Lemma take_digits_all s : all_digits (take_digits s).
Proof.
  induction s as [|c t IH]; simpl; [constructor|].
  destruct (is_digit c) eqn:E; constructor; auto.
Qed.

Lemma eight_digits_at_head c t : eight_digits_at 0 (c :: t) → is_digit c = true.
Proof.
  intros (run & rest & E & HL & HD). simpl in E.
  destruct run as [|c' run]; [discriminate|]. injection E as <- _.
  by inversion HD.
Qed.

Lemma first_digit_run_window s :
  (8 <= length (first_digit_run s))%nat →
  ∃ i rest, drop i s = take 8 (first_digit_run s) ++ rest ∧
            eight_digits (take 8 (first_digit_run s)) ∧
            ∀ l, (l < i)%nat → ¬ eight_digits_at l s.
Proof.
  induction s as [|c t IH]; [simpl; lia|].
  cbn [first_digit_run]. destruct (is_digit c) eqn:E.
  - intros HL. destruct (take_digits_prefix (c :: t)) as [rest Ht].
    set (run := take_digits (c :: t)) in *.
    exists 0%nat, (drop 8 run ++ rest). split_and!.
    + rewrite app_assoc, take_drop. exact Ht.
    + split.
      * rewrite length_take. lia.
      * apply Forall_take, take_digits_all.
    + intros; lia.
  - intros HL. destruct (IH HL) as (i & rest & Ed & H8 & Hmin).
    exists (S i), rest. split_and!; auto.
    intros [|l] Hl.
    + intros H. apply eight_digits_at_head in H. congruence.
    + apply (Hmin l). lia.
Qed.

(** C9, as the code has it: the eight-digit pattern needs no boundary.
    When the first digit run of a subject is longer than eight digits,
    pattern 2 takes the first eight digits of that run as its candidate;
    and when the subject holds no year-bearing date (pattern 1 comes
    first) and these eight digits are a calendar date, they are the
    result. *)
Theorem eight_digit_prefix_of_longer_run now s :
  (8 < length (first_digit_run s))%nat →
  re_search pattern2 s = Some [take 8 (first_digit_run s)] ∧
  ((∀ i, ¬ year_date_at i s) →
   calendar_valid (take 8 (first_digit_run s)) →
   parse_date_from_subject now (VStr s) = Ok (Some (take 8 (first_digit_run s)))).
Proof.
  intros HL.
  destruct (first_digit_run_window s) as (i & rest & E & H8 & Hmin); [lia|].
  pose proof (search_pattern2_first s i _ rest E H8 Hmin) as H2.
  split; [done|].
  intros H1 [ymd Hv]. rewrite parse_unfold.
  apply search_pattern1_None in H1. rewrite H1, H2.
  change (group 1 [take 8 (first_digit_run s)]) with (take 8 (first_digit_run s)).
  by rewrite Hv.
Qed.

Lemma year_pattern_returns_padded_date_witness :
  parse_date_from_subject sample_now
    (VStr (lit "Re: " ++ year_text (lit "2025") (lit "13") (lit "40") ++ lit " x"))
  = Ok (Some (lit "20251340")).
Proof.
  refine (proj2 (year_pattern_returns_padded_date sample_now
            (lit "Re: ") (lit "2025") (lit "13") (lit "40") (lit " x") _) _).
  - shape_tac.
  - intros l Hl. rewrite year_date_at_match.
    offsets l Hl no_match_here.
Defined.

Lemma year_pattern_beats_eight_digits_witness :
  parse_date_from_subject sample_now
    (VStr (lit "20240101 " ++ year_text (lit "2025") (lit "9") (lit "4") ++ []))
  = Ok (Some (lit "20250904")).
Proof.
  refine (proj2 (year_pattern_beats_eight_digits sample_now
            (lit "20240101 ") (lit "2025") (lit "9") (lit "4") []
            [] (lit "20240101") (lit " " ++ year_text (lit "2025") (lit "9") (lit "4"))
            _ _ _ _) _).
  - shape_tac.
  - shape_tac.
  - eexists. vm_compute. reflexivity.
  - reflexivity.
  - intros l Hl. rewrite year_date_at_match.
    offsets l Hl no_match_here.
Defined.

Lemma invalid_eight_digits_fall_through_witness :
  parse_date_from_subject sample_now
    (VStr ([] ++ lit "20251301" ++ lit " " ++ md_text (lit "9") (lit "4") ++ lit " 20250101"))
  = Ok (Some (lit "20260904")).
Proof.
  refine (proj1 (proj2 (invalid_eight_digits_fall_through sample_now
            [] (lit "20251301") (lit " " ++ md_text (lit "9") (lit "4") ++ lit " 20250101")
            _ _ _ _))
          (lit "20251301 ") (lit "9") (lit "4") (lit " 20250101") _ _ _).
  - apply search_pattern1_None. vm_compute. reflexivity.
  - shape_tac.
  - intros l Hl. simpl in Hl. lia.
  - intros [ymd Hv]. vm_compute in Hv. discriminate.
  - reflexivity.
  - shape_tac.
  - intros l Hl. rewrite md_date_at_match.
    offsets l Hl no_match_here.
Defined.

Lemma eight_digit_prefix_of_longer_run_witness :
  parse_date_from_subject sample_now (VStr (lit "PO 202509041 confirmed"))
  = Ok (Some (lit "20250904")).
Proof.
  refine (proj2 (eight_digit_prefix_of_longer_run sample_now
                   (lit "PO 202509041 confirmed") _) _ _).
  - vm_compute. lia.
  - apply search_pattern1_None. vm_compute. reflexivity.
  - eexists. vm_compute. reflexivity.
Defined.

(** A subject whose first digit run has nine digits, the first eight of
    them a calendar date, and which parses to another date: the
    year-bearing date that follows. *)
Lemma eight_digit_prefix_not_returned :
  let s := lit "202509041 " ++ year_text (lit "2025") (lit "1") (lit "1") in
  (8 < length (first_digit_run s))%nat ∧
  calendar_valid (take 8 (first_digit_run s)) ∧
  take 8 (first_digit_run s) = lit "20250904" ∧
  parse_date_from_subject sample_now (VStr s) = Ok (Some (lit "20250101")) ∧
  parse_date_from_subject sample_now (VStr s) ≠ Ok (Some (take 8 (first_digit_run s))).
Proof.
  split_and!.
  - vm_compute. lia.
  - eexists. vm_compute. reflexivity.
  - reflexivity.
  - reflexivity.
  - vm_compute. discriminate.
Qed.

(** ** The order on strings *)

Lemma str_ltb_irrefl a : str_ltb a a = false.
Proof.
  induction a as [|x a IH]; simpl; [done|].
  rewrite N.ltb_irrefl, N.eqb_refl, IH. done.
Qed.

Lemma str_ltb_cons x a y b :
  str_ltb (x :: a) (y :: b) = true ↔ x < y ∨ (x = y ∧ str_ltb a b = true).
Proof.
  simpl. rewrite orb_true_iff, andb_true_iff, N.ltb_lt, N.eqb_eq. done.
Qed.

Lemma str_ltb_trans a b c :
  str_ltb a b = true → str_ltb b c = true → str_ltb a c = true.
Proof.
  revert b c. induction a as [|x a IH]; intros [|y b] [|z c]; try done.
  rewrite !str_ltb_cons. intros [H1|[-> H1]] [H2|[-> H2]].
  - left. lia.
  - by left.
  - by left.
  - right. split; [done|]. by apply (IH b).
Qed.

Lemma str_ltb_total a b :
  str_ltb a b = false → str_ltb b a = false → a = b.
Proof.
  revert b. induction a as [|x a IH]; intros [|y b]; try done.
  intros H1 H2.
  destruct (N.lt_trichotomy x y) as [H|[->|H]].
  - assert (str_ltb (x :: a) (y :: b) = true) by (apply str_ltb_cons; auto). congruence.
  - f_equal. apply IH.
    + destruct (str_ltb a b) eqn:E; [|done].
      assert (str_ltb (y :: a) (y :: b) = true) by (apply str_ltb_cons; auto). congruence.
    + destruct (str_ltb b a) eqn:E; [|done].
      assert (str_ltb (y :: b) (y :: a) = true) by (apply str_ltb_cons; auto). congruence.
  - assert (str_ltb (y :: b) (x :: a) = true) by (apply str_ltb_cons; auto). congruence.
Qed.

Lemma str_ltb_asym a b : str_ltb a b = true → str_ltb b a = false.
Proof.
  intros H. destruct (str_ltb b a) eqn:E; [|done].
  pose proof (str_ltb_trans _ _ _ H E) as H'. by rewrite str_ltb_irrefl in H'.
Qed.

Lemma str_le_lt_trans y x a :
  str_ltb x y = false → str_ltb x a = true → str_ltb y a = true.
Proof.
  intros H1 H2. destruct (str_ltb y x) eqn:E.
  - by apply (str_ltb_trans _ x).
  - by rewrite (str_ltb_total _ _ E H1).
Qed.

(** ** The stable sort *)

Section SortFacts.
Context {V : Type}.
Implicit Types (x y : pystr * V) (l m : list (pystr * V)).

Lemma insert_stable_all_lt x m :
  (∀ y, y ∈ m → str_ltb (fst y) (fst x) = true) → insert_stable x m = m ++ [x].
Proof.
  induction m as [|y m IH]; intros H; simpl; [done|].
  rewrite (H y) by (by left). rewrite IH; [done|].
  intros z Hz. apply H. by right.
Qed.

Lemma insert_stable_nonempty x m : insert_stable x m ≠ [].
Proof. destruct m as [|y m]; simpl; [done|]. destruct (str_ltb _ _); done. Qed.

Lemma last_cons_nonempty {B} (a : B) (l : list B) : l ≠ [] → last (a :: l) = last l.
Proof. destruct l; done. Qed.

Lemma insert_stable_last x m z :
  last m = Some z → str_ltb (fst z) (fst x) = false →
  last (insert_stable x m) = Some z.
Proof.
  induction m as [|y m IH]; intros Hl Hz; [done|]. simpl.
  destruct m as [|y' m'].
  - simpl in Hl. injection Hl as ->. simpl. by rewrite Hz.
  - rewrite last_cons_nonempty in Hl by done.
    destruct (str_ltb (fst y) (fst x)).
    + rewrite last_cons_nonempty by apply insert_stable_nonempty. by apply IH.
    + by do 2 (rewrite last_cons_nonempty by done).
Qed.

Lemma elem_of_insert_stable x m y : y ∈ insert_stable x m → y = x ∨ y ∈ m.
Proof.
  induction m as [|z m IH]; simpl.
  - intros H. apply list_elem_of_singleton in H. auto.
  - destruct (str_ltb (fst z) (fst x)).
    + intros H. apply elem_of_cons in H as [->|H].
      * right. by left.
      * destruct (IH H) as [->|H']; [by left|]. right. by right.
    + intros H. apply elem_of_cons in H as [->|H]; auto.
Qed.

Lemma elem_of_sort_stable l y : y ∈ sort_stable l → y ∈ l.
Proof.
  induction l as [|x l IH]; simpl; [done|].
  intros H. apply elem_of_insert_stable in H as [->|H]; [by left|].
  right. by apply IH.
Qed.

(** The last element of the ascending stable sort: a greatest element,
    the last one of the input among the greatest. *)
Lemma sort_stable_last l :
  l ≠ [] →
  ∃ l1 x l2, l = l1 ++ x :: l2 ∧ last (sort_stable l) = Some x ∧
    (∀ y, y ∈ l1 → str_ltb (fst x) (fst y) = false) ∧
    (∀ y, y ∈ l2 → str_ltb (fst y) (fst x) = true).
Proof.
  induction l as [|a t IH]; [done|]. intros _.
  destruct t as [|b t'].
  - exists [], a, []. split_and!; [done|done| |]; intros y Hy; by apply elem_of_nil in Hy.
  - destruct IH as (l1 & x & l2 & E & Hl & H1 & H2); [done|].
    set (t := b :: t') in *. cbn [sort_stable].
    destruct (str_ltb (fst x) (fst a)) eqn:Ex.
    + exists [], a, t. split_and!; [done| |intros y Hy; by apply elem_of_nil in Hy|].
      * rewrite insert_stable_all_lt; [by rewrite last_snoc|].
        intros y Hy. apply elem_of_sort_stable in Hy.
        apply (str_le_lt_trans _ (fst x)); [|done].
        rewrite E in Hy. apply elem_of_app in Hy as [Hy|Hy]; [by apply H1|].
        apply elem_of_cons in Hy as [->|Hy]; [apply str_ltb_irrefl|].
        by apply str_ltb_asym, H2.
      * intros y Hy. apply (str_le_lt_trans _ (fst x)); [|done].
        rewrite E in Hy. apply elem_of_app in Hy as [Hy|Hy]; [by apply H1|].
        apply elem_of_cons in Hy as [->|Hy]; [apply str_ltb_irrefl|].
        by apply str_ltb_asym, H2.
    + exists (a :: l1), x, l2. split_and!.
      * by rewrite E.
      * by apply insert_stable_last.
      * intros y Hy. apply elem_of_cons in Hy as [->|Hy]; [done|by apply H1].
      * done.
Qed.

(** The head of [sorted(..., reverse=True)]: a greatest element, the
    first one of the input among the greatest. *)
Lemma sorted_reverse_head l :
  l ≠ [] →
  ∃ l1 x l2, l = l1 ++ x :: l2 ∧ head (sorted_reverse l) = Some x ∧
    (∀ y, y ∈ l1 → str_ltb (fst y) (fst x) = true) ∧
    (∀ y, y ∈ l2 → str_ltb (fst x) (fst y) = false).
Proof.
  intros Hl. unfold sorted_reverse.
  destruct (sort_stable_last (reverse l)) as (l1 & x & l2 & E & Hlast & H1 & H2).
  { intros H. apply (f_equal reverse) in H. rewrite reverse_involutive in H. done. }
  exists (reverse l2), x, (reverse l1). split_and!.
  - apply (f_equal reverse) in E. rewrite reverse_involutive in E.
    rewrite E, reverse_app, reverse_cons. by rewrite <- app_assoc.
  - by rewrite head_reverse.
  - intros y Hy. apply H2. by rewrite elem_of_reverse in Hy.
  - intros y Hy. apply H1. by rewrite elem_of_reverse in Hy.
Qed.

End SortFacts.

(** ** What a parsed date looks like *)

Lemma parse_str_total now s : ∃ r, parse_date_from_subject now (VStr s) = Ok r.
Proof.
  rewrite parse_unfold.
  destruct (re_search pattern1 s); [eauto|].
  destruct (re_search pattern2 s) as [g|]; [|eauto].
  destruct (strptime (group 1 g)); eauto.
Qed.

Lemma parse_Some_cases now s d :
  parse_date_from_subject now (VStr s) = Ok (Some d) →
  (∃ Y M D, year_shape Y M D ∧ d = Y ++ pad2 M ++ pad2 D) ∨
  (eight_digits d ∧ calendar_valid d) ∨
  (∃ M D, md_shape M D ∧ d = str_of_N (year now) ++ pad2 M ++ pad2 D).
Proof.
  rewrite parse_unfold.
  assert (pattern3_result now s = Some d →
          ∃ M D, md_shape M D ∧ d = str_of_N (year now) ++ pad2 M ++ pad2 D) as H3.
  { unfold pattern3_result. destruct (re_search pattern3 s) as [g|] eqn:E3; [|done].
    apply search_pattern3_Some in E3 as (i & M & D & rest & -> & _ & [HM HD] & _).
    intros [= <-]. exists M, D. split; [done|].
    change (group 1 [M; D]) with M. change (group 2 [M; D]) with D.
    by rewrite !zfill_short_num. }
  destruct (re_search pattern1 s) as [g|] eqn:E1.
  - apply search_pattern1_Some in E1 as (i & Y & M & D & rest & -> & _ & Hs & _).
    intros [= <-]. left. exists Y, M, D. split; [done|].
    change (group 1 [Y; M; D]) with Y. change (group 2 [Y; M; D]) with M.
    change (group 3 [Y; M; D]) with D.
    destruct Hs as (_ & _ & HM & HD). by rewrite !zfill_short_num.
  - destruct (re_search pattern2 s) as [g|] eqn:E2.
    + apply re_search_Some in E2 as (i & rest & E2 & _).
      apply pattern2_match in E2 as (run & -> & _ & H8).
      change (group 1 [run]) with run.
      destruct (strptime run) as [ymd|e] eqn:Ev.
      * intros [= <-]. right. left. split; [done|]. by exists ymd.
      * intros [= H]. right. right. by apply H3.
    + intros [= H]. right. right. by apply H3.
Qed.

Lemma pad2_length M : short_num M → length (pad2 M) = 2%nat.
Proof.
  intros [[H|H] _]; unfold pad2; rewrite length_app, length_replicate, H; done.
Qed.

Lemma parse_nonempty now s d :
  parse_date_from_subject now (VStr s) = Ok (Some d) → d ≠ [].
Proof.
  intros H. apply parse_Some_cases in H as [(Y & M & D & Hs & ->)|[[[HL _] _]|(M & D & [HM HD] & ->)]].
  - destruct Hs as (HL & _). destruct Y; [done|discriminate].
  - destruct d; [done|discriminate].
  - intros E. apply (f_equal length) in E. rewrite !length_app in E.
    rewrite !pad2_length in E by done. simpl in E. lia.
Qed.

Lemma digit_ge_48 c : is_digit c = true → 48 <= c.
Proof.
  unfold is_digit. rewrite existsb_exists. intros (z & Hz & Hb).
  assert (forallb (N.leb 48) decimal_zeros = true) as Hall by reflexivity.
  rewrite forallb_forall in Hall. apply Hall in Hz. apply N.leb_le in Hz.
  unfold in_block in Hb. apply andb_true_iff in Hb as [Hb _]. apply N.leb_le in Hb. lia.
Qed.

Lemma all_digits_ge_48 s : all_digits s → Forall (fun c => 48 <= c) s.
Proof. intros H. eapply Forall_impl; [exact H|]. intros c. apply digit_ge_48. Qed.

Lemma pad2_ge_48 M : short_num M → Forall (fun c => 48 <= c) (pad2 M).
Proof.
  intros [_ HD]. unfold pad2. apply Forall_app. split.
  - apply Forall_replicate. lia.
  - by apply all_digits_ge_48.
Qed.

Lemma not_below_zeros n d :
  Forall (fun c => 48 <= c) d → (n <= length d)%nat → str_ltb d (replicate n 48) = false.
Proof.
  revert d. induction n as [|n IH]; intros d Hd HL.
  - by destruct d.
  - destruct d as [|c d]; [simpl in HL; lia|]. inversion Hd; subst. simpl.
    rewrite IH by (auto; simpl in HL; lia).
    destruct (N.ltb_spec c 48); [lia|]. by rewrite andb_false_r.
Qed.

Lemma str_of_N_pos n : 1 <= n → ∃ c rest, str_of_N n = c :: rest ∧ 48 < c.
Proof.
  intros Hn. unfold str_of_N.
  assert (N.to_uint n = Decimal.unorm (N.to_uint n)) as Hu.
  { rewrite <- DecimalN.Unsigned.to_of. by rewrite DecimalN.Unsigned.of_to. }
  assert (N.to_uint n ≠ Decimal.zero) as Hz.
  { intros E. change Decimal.zero with (N.to_uint 0) in E.
    apply DecimalN.Unsigned.to_uint_inj in E. lia. }
  assert (∀ d', N.to_uint n ≠ Decimal.D0 d') as H0.
  { intros d' E. rewrite Hu in E. unfold Decimal.unorm in E.
    destruct (Decimal.nzhead (N.to_uint n)) eqn:Eh;
      try (rewrite <- Eh in E; by apply DecimalFacts.nzhead_nonzero in E).
    apply Hz. rewrite Hu. unfold Decimal.unorm. by rewrite Eh. }
  assert (N.to_uint n ≠ Decimal.Nil) as Hnil.
  { rewrite Hu. apply DecimalFacts.unorm_nonnil. }
  destruct (N.to_uint n) as [|u|u|u|u|u|u|u|u|u|u]; try done;
    try (by destruct (H0 u)); simpl; eexists _, _; (split; [reflexivity|lia]).
Qed.

(** With the year of the clock at least 1, as [datetime] guarantees, no
    parsed date sorts below ["00000000"]. *)
Lemma parsed_not_below_zeros now s d :
  1 <= year now →
  parse_date_from_subject now (VStr s) = Ok (Some d) →
  str_ltb d (lit "00000000") = false.
Proof.
  intros Hy H. change (lit "00000000") with (replicate 8 48).
  apply parse_Some_cases in H as [(Y & M & D & Hs & ->)|[[[HL HD] _]|(M & D & [HM HD] & ->)]].
  - destruct Hs as (HL & HYd & HM & HD). apply not_below_zeros.
    + rewrite !Forall_app. split_and!; auto using all_digits_ge_48, pad2_ge_48.
    + rewrite !length_app, !pad2_length by done. lia.
  - apply not_below_zeros; [by apply all_digits_ge_48|lia].
  - destruct (str_of_N_pos _ Hy) as (c & rest & -> & Hc). simpl.
    destruct (N.ltb_spec c 48); [lia|]. destruct (N.eqb_spec c 48); [lia|]. done.
Qed.

(** ** The message selector *)

Lemma get_subject c :
  well_formed_message c →
  Py.get c (lit "subject") (VStr []) = Ok (VStr (subject_of c)).
Proof.
  intros (d & -> & [H|[s H]]); simpl; by rewrite H.
Qed.

Lemma parse_parsed_date now c :
  parse_date_from_subject now (VStr (subject_of c)) = Ok (parsed_date now c).
Proof.
  unfold parsed_date. destruct (parse_str_total now (subject_of c)) as [r ->].
  by destruct r.
Qed.

Lemma sort_key_date_key now c :
  well_formed_message c → sort_key now c = Ok (date_key now c).
Proof.
  intros Hc. unfold sort_key. rewrite get_subject by done. simpl.
  rewrite parse_parsed_date. simpl. unfold date_key.
  destruct (parsed_date now c) as [d|] eqn:E; [|done].
  destruct d; [|done]. exfalso.
  pose proof (parse_parsed_date now c) as H. rewrite E in H.
  by apply parse_nonempty in H.
Qed.

Lemma find_message_by_date_cons now c rest target :
  well_formed_message c →
  find_message_by_date now (c :: rest) target =
  if decide (parsed_date now c = Some target) then Ok (Some c)
  else find_message_by_date now rest target.
Proof.
  intros Hc. simpl. rewrite get_subject by done. simpl.
  rewrite parse_parsed_date. simpl. unfold date_eqb.
  destruct (parsed_date now c) as [d|].
  - destruct (decide (d = target)) as [->|Hne].
    + rewrite bool_decide_eq_true_2 by done. by rewrite decide_True.
    + rewrite bool_decide_eq_false_2 by done. rewrite decide_False; [done|congruence].
  - by rewrite decide_False.
Qed.

Lemma mapM_Ok {A B} (f : A → result B) (g : A → B) (l : list A) :
  Forall (fun a => f a = Ok (g a)) l → mapM f l = Ok (map g l).
Proof.
  induction 1 as [|a l Ha _ IH]; simpl; [done|].
  rewrite Ha. simpl. rewrite IH. done.
Qed.

Lemma zip_map_self {A B} (g : A → B) (l : list A) :
  zip (map g l) l = map (fun a => (g a, a)) l.
Proof. induction l as [|a l IH]; simpl; [done|]. by rewrite IH. Qed.

Lemma map_eq_app_cons {A B} (f : A → B) (l : list A) l1 x l2 :
  map f l = l1 ++ x :: l2 →
  ∃ k1 a k2, l = k1 ++ a :: k2 ∧ l1 = map f k1 ∧ x = f a ∧ l2 = map f k2.
Proof.
  revert l1. induction l as [|b l IH]; intros l1 E.
  - by destruct l1.
  - destruct l1 as [|y l1]; simpl in E.
    + injection E as <- <-. by exists [], b, l.
    + injection E as <- E. destruct (IH _ E) as (k1 & a & k2 & -> & -> & -> & ->).
      by exists (b :: k1), a, k2.
Qed.

Lemma find_latest_message_spec now cands :
  Forall well_formed_message cands → cands ≠ [] →
  ∃ l1 c l2, cands = l1 ++ c :: l2 ∧
    find_latest_message now cands = Ok (Some c) ∧
    (∀ c', c' ∈ l1 → str_lt (date_key now c') (date_key now c)) ∧
    (∀ c', c' ∈ l2 → str_le (date_key now c') (date_key now c)).
Proof.
  intros Hwf Hne. unfold find_latest_message.
  destruct cands as [|c0 cands0]; [done|]. set (cands := c0 :: cands0) in *.
  rewrite (mapM_Ok _ (date_key now)); cycle 1.
  { eapply Forall_impl; [exact Hwf|]. intros c. apply sort_key_date_key. }
  simpl. rewrite zip_map_self.
  destruct (sorted_reverse_head (map (fun a => (date_key now a, a)) cands))
    as (l1 & x & l2 & E & Hh & H1 & H2); [done|].
  apply map_eq_app_cons in E as (k1 & c & k2 & E & -> & -> & ->).
  exists k1, c, k2. split; [done|]. split.
  - destruct (sorted_reverse _) as [|y ys]; [done|]. simpl in Hh. injection Hh as ->. done.
  - split.
    + intros c' Hc'. apply (H1 (date_key now c', c')).
      apply list_elem_of_fmap. by exists c'.
    + intros c' Hc'. apply (H2 (date_key now c', c')).
      apply list_elem_of_fmap. by exists c'.
Qed.

(** C7: over well-formed messages, [find_message_by_date] returns the
    first message, in the order of the list, whose parsed subject date is
    exactly the target date; it returns nothing when no message has that
    date, and nothing for the empty list. *)
Theorem find_message_by_date_first_match now cands target :
  Forall well_formed_message cands →
  find_message_by_date now [] target = Ok None ∧
  (∀ l1 c l2,
     cands = l1 ++ c :: l2 →
     parsed_date now c = Some target →
     (∀ c', c' ∈ l1 → parsed_date now c' ≠ Some target) →
     find_message_by_date now cands target = Ok (Some c)) ∧
  ((∀ c, c ∈ cands → parsed_date now c ≠ Some target) →
   find_message_by_date now cands target = Ok None).
Proof.
  intros Hwf. split; [done|]. split.
  - intros l1 c l2 -> Hc. revert Hwf.
    induction l1 as [|a l1 IH]; cbn [app]; intros Hwf Hbefore.
    + inversion Hwf; subst. rewrite find_message_by_date_cons by done.
      by rewrite decide_True.
    + inversion Hwf; subst.
      rewrite find_message_by_date_cons by done.
      rewrite decide_False by (apply Hbefore; by left).
      apply IH; [done|]. intros c' Hc'. apply Hbefore. by right.
  - induction Hwf as [|a l Ha _ IH]; intros Hnone; [done|].
    rewrite find_message_by_date_cons by done.
    rewrite decide_False by (apply Hnone; by left).
    apply IH. intros c Hc. apply Hnone. by right.
Qed.

(** C3: over well-formed messages, [find_latest_message] returns nothing
    for the empty list and otherwise a message [c] of the list whose date
    key (its parsed subject date, ["00000000"] when the subject yields
    none) is greatest in the lexicographic order of strings: every message
    after [c] has a key at most that of [c], and every message before [c]
    has a strictly smaller key, so among equal keys the earliest message of
    the input is returned.  With the clock year at least 1 no parsed date
    is below ["00000000"]: a message without a date sorts last. *)
Theorem find_latest_message_earliest_greatest now cands :
  Forall well_formed_message cands →
  find_latest_message now [] = Ok None ∧
  (cands ≠ [] →
   ∃ l1 c l2, cands = l1 ++ c :: l2 ∧
     find_latest_message now cands = Ok (Some c) ∧
     (∀ c', c' ∈ l1 → str_lt (date_key now c') (date_key now c)) ∧
     (∀ c', c' ∈ l2 → str_le (date_key now c') (date_key now c))) ∧
  (∀ c, parsed_date now c = None → date_key now c = lit "00000000") ∧
  (∀ c d, parsed_date now c = Some d → date_key now c = d) ∧
  (1 <= year now → ∀ c, str_le (lit "00000000") (date_key now c)).
Proof.
  intros Hwf. split_and!.
  - done.
  - by apply find_latest_message_spec.
  - intros c H. unfold date_key. by rewrite H.
  - intros c d H. unfold date_key. by rewrite H.
  - intros Hy c. unfold str_le, date_key.
    destruct (parsed_date now c) as [d|] eqn:E; [|done].
    pose proof (parse_parsed_date now c) as H. rewrite E in H.
    by apply (parsed_not_below_zeros now _ _ Hy H).
Qed.

Lemma find_message_by_date_first_match_witness :
  find_message_by_date sample_now [msg1; msg4; msg2; msg3] (lit "20250906") = Ok (Some msg2).
Proof.
  refine (proj1 (proj2 (find_message_by_date_first_match sample_now
            [msg1; msg4; msg2; msg3] (lit "20250906") _)) [msg1; msg4] msg2 [msg3] _ _ _).
  - repeat (constructor; [wf_tac|]). constructor.
  - reflexivity.
  - reflexivity.
  - intros c' Hc'. apply elem_of_cons in Hc' as [->|Hc'].
    + vm_compute. discriminate.
    + apply list_elem_of_singleton in Hc' as ->. vm_compute. discriminate.
Defined.

Lemma find_latest_message_earliest_greatest_witness :
  ∃ l1 c l2, [msg1; msg4; msg2; msg3] = l1 ++ c :: l2 ∧
    find_latest_message sample_now [msg1; msg4; msg2; msg3] = Ok (Some c) ∧
    (∀ c', c' ∈ l1 → str_lt (date_key sample_now c') (date_key sample_now c)) ∧
    (∀ c', c' ∈ l2 → str_le (date_key sample_now c') (date_key sample_now c)).
Proof.
  refine (proj1 (proj2 (find_latest_message_earliest_greatest sample_now
            [msg1; msg4; msg2; msg3] _)) _).
  - repeat (constructor; [wf_tac|]). constructor.
  - discriminate.
Defined.

Example find_latest_message_ties :
  find_latest_message sample_now [msg1; msg4; msg2; msg3] = Ok (Some msg2) ∧
  find_latest_message sample_now [msg1; msg4; msg3; msg2] = Ok (Some msg3).
Proof. split; reflexivity. Qed.

Lemma parse_empty now : parse_date_from_subject now (VStr []) = Ok None.
Proof. reflexivity. Qed.

Lemma find_message_by_date_skip now c l1 l2 target :
  lacks_subject c →
  find_message_by_date now (l1 ++ c :: l2) target =
  find_message_by_date now (l1 ++ l2) target.
Proof.
  intros (d & -> & Hd). induction l1 as [|a l1 IH]; cbn [app].
  - cbn [find_message_by_date Py.get]. rewrite Hd. reflexivity.
  - cbn [find_message_by_date]. destruct (Py.get a _ _) as [subject|e]; [|done]. simpl.
    destruct (parse_date_from_subject now subject) as [p|e]; [|done]. simpl.
    by destruct (date_eqb p target).
Qed.

Lemma find_message_by_date_total now cands target :
  Forall well_formed_message cands →
  ∃ r, find_message_by_date now cands target = Ok r.
Proof.
  induction 1 as [|c l Hc _ [r IH]]; [by exists None|].
  rewrite find_message_by_date_cons by done.
  destruct (decide _); eauto.
Qed.

Lemma find_latest_message_total now cands :
  Forall well_formed_message cands →
  ∃ r, find_latest_message now cands = Ok r.
Proof.
  intros Hwf. destruct (decide (cands = [])) as [->|Hne]; [by exists None|].
  destruct (find_latest_message_spec now cands Hwf Hne) as (_ & c & _ & _ & H & _).
  eauto.
Qed.

Lemma lacks_subject_well_formed c : lacks_subject c → well_formed_message c.
Proof. intros (d & -> & H). exists d. auto. Qed.

(** C10: a message that has no ['subject'] key is read as a message with
    the empty subject.  Fetching its subject gives the empty string, which
    has no date; so in target-date mode the message is passed over, with
    whatever stands around it in the list, and in latest mode its key is
    ["00000000"].  Neither function raises on it: on a list of well-formed
    messages that holds it both return. *)
Theorem message_without_subject_is_empty_subject now c :
  lacks_subject c →
  Py.get c (lit "subject") (VStr []) = Ok (VStr []) ∧
  parse_date_from_subject now (VStr []) = Ok None ∧
  parsed_date now c = None ∧
  sort_key now c = Ok (lit "00000000") ∧
  (∀ l1 l2 target,
     find_message_by_date now (l1 ++ c :: l2) target =
     find_message_by_date now (l1 ++ l2) target) ∧
  (∀ cands target,
     Forall well_formed_message cands → c ∈ cands →
     (∃ r, find_message_by_date now cands target = Ok r) ∧
     (∃ r, find_latest_message now cands = Ok (Some r))).
Proof.
  intros Hc. pose proof Hc as (d & -> & Hd). split_and!.
  - simpl. by rewrite Hd.
  - reflexivity.
  - unfold parsed_date, subject_of. by rewrite Hd.
  - unfold sort_key. cbn [Py.get]. rewrite Hd. reflexivity.
  - intros l1 l2 target. by apply find_message_by_date_skip.
  - intros cands target Hwf Hin. split.
    + by apply find_message_by_date_total.
    + destruct (find_latest_message_spec now cands Hwf) as (_ & r & _ & _ & H & _).
      * intros ->. by apply elem_of_nil in Hin.
      * eauto.
Qed.

Lemma message_without_subject_is_empty_subject_witness :
  sort_key sample_now msg4 = Ok (lit "00000000") ∧
  find_message_by_date sample_now ([msg1] ++ msg4 :: [msg2]) (lit "20250906") =
  find_message_by_date sample_now ([msg1] ++ [msg2]) (lit "20250906").
Proof.
  assert (lacks_subject msg4) as H by (eexists; split; reflexivity).
  pose proof (message_without_subject_is_empty_subject sample_now msg4 H)
    as (_ & _ & _ & Hk & Hskip & _).
  split; [exact Hk|apply Hskip].
Defined.

(** ** The clock *)

Lemma parse_year_only now1 now2 v :
  year now1 = year now2 →
  parse_date_from_subject now1 v = parse_date_from_subject now2 v.
Proof. intros H. unfold parse_date_from_subject. by rewrite H. Qed.

Lemma parse_clock_free now1 now2 s :
  clock_free s →
  parse_date_from_subject now1 (VStr s) = parse_date_from_subject now2 (VStr s).
Proof.
  intros Hs. rewrite !parse_unfold.
  destruct (re_search pattern1 s) as [g|] eqn:E1; [done|].
  destruct Hs as [[i Hi]|[(i & run & rest & E & H8 & Hmin & [ymd Hv])|Hno]].
  - rewrite search_pattern1_None in E1. destruct (E1 i Hi).
  - rewrite (search_pattern2_first s i run rest) by done.
    change (group 1 [run]) with run. by rewrite Hv.
  - rewrite !pattern3_result_None by done.
    destruct (re_search pattern2 s) as [g|]; [|done].
    by destruct (strptime (group 1 g)).
Qed.

Lemma select_ext now1 now2 cands target :
  Forall well_formed_message cands →
  (∀ c, c ∈ cands → parsed_date now1 c = parsed_date now2 c) →
  find_message_by_date now1 cands target = find_message_by_date now2 cands target ∧
  find_latest_message now1 cands = find_latest_message now2 cands.
Proof.
  intros Hwf Heq. split.
  - induction Hwf as [|c l Hc _ IH]; [done|].
    rewrite !find_message_by_date_cons by done.
    rewrite (Heq c) by (by left). rewrite IH; [done|].
    intros c' Hc'. apply Heq. by right.
  - unfold find_latest_message. destruct cands as [|c0 cands0]; [done|].
    set (cands := c0 :: cands0) in *.
    rewrite (mapM_Ok (sort_key now1) (date_key now1)); cycle 1.
    { eapply Forall_impl; [exact Hwf|]. intros c. apply sort_key_date_key. }
    rewrite (mapM_Ok (sort_key now2) (date_key now2)); cycle 1.
    { eapply Forall_impl; [exact Hwf|]. intros c. apply sort_key_date_key. }
    assert (map (date_key now1) cands = map (date_key now2) cands) as ->; [|done].
    apply map_ext_in. intros c Hc. unfold date_key.
    rewrite (Heq c); [done|]. by apply list_elem_of_In.
Qed.

(** C4, as the code has it: on well-formed messages both selectors
    return, without raising.  The clock enters their result through its
    calendar year only: two calls with the same messages and target date
    under clocks of the same year return the same result; and when no
    subject reaches the year-less pattern (each has a year-bearing date,
    or a first eight-digit run that is a calendar date, or no text M
    U+C6D4 D U+C77C) the result is the same under any two clocks. *)
Theorem selector_total_and_clock_year_only now1 now2 cands target :
  Forall well_formed_message cands →
  ((∃ r, find_message_by_date now1 cands target = Ok r) ∧
   (∃ r, find_latest_message now1 cands = Ok r)) ∧
  (year now1 = year now2 →
   find_message_by_date now1 cands target = find_message_by_date now2 cands target ∧
   find_latest_message now1 cands = find_latest_message now2 cands) ∧
  ((∀ c, c ∈ cands → clock_free (subject_of c)) →
   find_message_by_date now1 cands target = find_message_by_date now2 cands target ∧
   find_latest_message now1 cands = find_latest_message now2 cands).
Proof.
  intros Hwf. split_and!.
  - by apply find_message_by_date_total.
  - by apply find_latest_message_total.
  - intros Hy. apply select_ext; [done|]. intros c _. unfold parsed_date.
    by rewrite (parse_year_only now1 now2).
  - intros Hfree. apply select_ext; [done|]. intros c Hc. unfold parsed_date.
    by rewrite (parse_clock_free now1 now2) by auto.
Qed.

Lemma selector_total_and_clock_year_only_witness :
  find_message_by_date sample_2025 [msg1; msg4; msg2; msg3] (lit "20250906") =
  find_message_by_date sample_now [msg1; msg4; msg2; msg3] (lit "20250906") ∧
  find_latest_message sample_2025 [msg1; msg4; msg2; msg3] =
  find_latest_message sample_now [msg1; msg4; msg2; msg3].
Proof.
  refine (proj2 (proj2 (selector_total_and_clock_year_only sample_2025 sample_now
            [msg1; msg4; msg2; msg3] (lit "20250906") _)) _).
  - repeat (constructor; [wf_tac|]). constructor.
  - intros c Hc.
    repeat (apply elem_of_cons in Hc as [->|Hc]);
      [left; exists 0%nat| right; right | left; exists 0%nat | left; exists 0%nat | by apply elem_of_nil in Hc].
    + apply year_date_at_match. vm_compute. discriminate.
    + apply search_pattern3_None. reflexivity.
    + apply year_date_at_match. vm_compute. discriminate.
    + apply year_date_at_match. vm_compute. discriminate.
Defined.

(** The same messages and target date, one call in 2025 and one in 2026:
    the results differ, in both modes. *)
Lemma selector_depends_on_clock :
  find_message_by_date sample_2025 [msg_md] (lit "20250905") = Ok (Some msg_md) ∧
  find_message_by_date sample_now [msg_md] (lit "20250905") = Ok None ∧
  find_latest_message sample_2025 [msg_eve; msg_new] = Ok (Some msg_eve) ∧
  find_latest_message sample_now [msg_eve; msg_new] = Ok (Some msg_new) ∧
  ¬ (∀ now1 now2 cands target,
       find_message_by_date now1 cands target = find_message_by_date now2 cands target ∧
       find_latest_message now1 cands = find_latest_message now2 cands).
Proof.
  split_and!; try reflexivity.
  intros H. destruct (H sample_2025 sample_now [msg_md] (lit "20250905")) as [H1 _].
  vm_compute in H1. discriminate.
Qed.

(** ** The table normaliser *)

Lemma or_list_default d key l :
  has_list key d l →
  ∃ v, Py.get (VDict d) key VNone = Ok v ∧ Py.or_ v (VList []) = VList l.
Proof.
  intros [H|[-> [H|H]]]; simpl; rewrite H; eexists; (split; [reflexivity|]).
  - by destruct l.
  - reflexivity.
  - reflexivity.
Qed.

Lemma mapM_len_lists (R : list (list pyval)) :
  mapM Py.len (VList <$> R) = Ok (length <$> R).
Proof.
  induction R as [|r R IH]; [done|].
  rewrite !fmap_cons. cbn [mapM Py.len mbind result_bind]. by rewrite IH.
Qed.

Lemma normalize_rows_lists (R : list (list pyval)) n :
  _normalize_rows (VList (VList <$> R)) n = Ok (pad_or_truncate n <$> R).
Proof.
  unfold _normalize_rows. cbn [Py.iter mbind result_bind].
  induction R as [|r R IH]; [done|].
  rewrite !fmap_cons. cbn [mapM Py.iter mbind result_bind]. by rewrite IH.
Qed.

Lemma pad_or_truncate_length n r :
  (0 ≤ n)%Z → length (pad_or_truncate n r) = Z.to_nat n.
Proof.
  intros Hn. unfold pad_or_truncate, slice_stop. cbn zeta. repeat case_decide; try lia.
  - rewrite length_app, length_replicate. lia.
  - rewrite length_take. lia.
Qed.


Lemma pad_or_truncate_spec (n : nat) r :
  ((length r < n)%nat →
     pad_or_truncate (Z.of_nat n) r = r ++ replicate (n - length r) VNone) ∧
  ((n < length r)%nat → pad_or_truncate (Z.of_nat n) r = take n r) ∧
  (length r = n → pad_or_truncate (Z.of_nat n) r = r).
Proof.
  unfold pad_or_truncate, slice_stop. cbn zeta.
  repeat case_decide; split_and!; intros; try lia; try done.
  - do 2 f_equal. lia.
  - f_equal. lia.
Qed.

Lemma table_to_sheet_lists idx t H R :
  table_of t H R →
  table_to_sheet idx t =
  Ok {| sheet_name := lit "Table" ++ str_of_nat idx;
        columns := VList (match H with [] => col_names (target_columns H R) | _ => H end);
        data := pad_or_truncate (Z.of_nat (target_columns H R)) <$> R |}.
Proof.
  intros (d & -> & Hh & Hr). unfold table_to_sheet.
  destruct (or_list_default _ _ _ Hh) as (h & Eh & Eho).
  destruct (or_list_default _ _ _ Hr) as (r & Er & Ero).
  rewrite Eh. cbn [mbind result_bind]. rewrite Eho, Er.
  cbn [mbind result_bind]. rewrite Ero.
  destruct H as [|h0 H0].
  - cbn [Py.truthy Py.iter mbind result_bind]. rewrite mapM_len_lists.
    cbn [mbind result_bind]. rewrite normalize_rows_lists. reflexivity.
  - cbn [Py.truthy Py.len mbind result_bind]. rewrite normalize_rows_lists.
    cbn [mbind result_bind]. rewrite decide_False by auto. reflexivity.
Qed.

Lemma expected_sheet_normalised name H R :
  normalised_from H R
    {| sheet_name := name;
       columns := VList (match H with [] => col_names (target_columns H R) | _ => H end);
       data := pad_or_truncate (Z.of_nat (target_columns H R)) <$> R |}.
Proof.
  unfold normalised_from. cbn [columns data]. eexists. split; [reflexivity|]. split_and!.
  - intros Hne. by destruct H.
  - intros -> i Hi. unfold col_names.
    rewrite list_lookup_fmap, lookup_seq_lt by done. reflexivity.
  - by rewrite length_fmap.
  - intros i r Hr. exists (pad_or_truncate (Z.of_nat (target_columns H R)) r). split.
    + by rewrite list_lookup_fmap, Hr.
    + apply pad_or_truncate_spec.
  - destruct H; [|done]. unfold col_names. by rewrite length_map, length_seq.
  - apply Forall_fmap, Forall_true. intros r. cbn.
    rewrite pad_or_truncate_length by lia. lia.
Qed.

Lemma table_to_sheet_normalised idx t H R :
  table_of t H R →
  ∃ sh, table_to_sheet idx t = Ok sh ∧
        sheet_name sh = lit "Table" ++ str_of_nat idx ∧ normalised_from H R sh.
Proof.
  intros Ht. eexists. split; [by apply table_to_sheet_lists|].
  split; [done|apply expected_sheet_normalised].
Qed.

Lemma bind_Ok {A B} (m : result A) (f : A → result B) b :
  (m ≫= f) = Ok b → ∃ a, m = Ok a ∧ f a = Ok b.
Proof. destruct m as [a|e]; [|done]. intros H. by exists a. Qed.

Lemma write_table_inv pd p done idx t sh :
  write_table pd p done idx t = Ok sh →
  table_to_sheet idx t = Ok sh ∧
  DataFrame pd (data sh) (columns sh) = Ok () ∧
  to_excel pd p done sh = Ok ().
Proof.
  unfold write_table. intros H.
  apply bind_Ok in H as (sh' & Hs & H). apply bind_Ok in H as ([] & Hdf & H).
  apply bind_Ok in H as ([] & Hx & [= <-]). done.
Qed.

Lemma write_table_accepted pd p done idx t sh :
  table_to_sheet idx t = Ok sh →
  DataFrame pd (data sh) (columns sh) = Ok () →
  to_excel pd p done sh = Ok () →
  write_table pd p done idx t = Ok sh.
Proof.
  intros Hs Hdf Hx. unfold write_table. rewrite Hs. cbn [mbind result_bind].
  rewrite Hdf. cbn [mbind result_bind]. by rewrite Hx.
Qed.

Lemma accepts_tail pd p idx t ts :
  accepts pd p idx (t :: ts) → accepts pd p (S idx) ts.
Proof.
  intros Ha k t' sh Hk Hs. apply (Ha (S k) t' sh); [done|].
  by replace (idx + S k)%nat with (S idx + k)%nat by lia.
Qed.

Lemma write_tables_ok pd p idx ts specs done :
  Forall2 (fun t HR => table_of t HR.1 HR.2) ts specs →
  accepts pd p idx ts →
  ∃ sheets, write_tables pd p idx ts done = (Ok (), done ++ sheets) ∧
    length sheets = length specs ∧
    ∀ k H R, specs !! k = Some (H, R) →
      ∃ sh, sheets !! k = Some sh ∧
            sheet_name sh = lit "Table" ++ str_of_nat (idx + k) ∧
            normalised_from H R sh.
Proof.
  intros HF. revert idx done.
  induction HF as [|t [H R] ts specs Ht _ IH]; intros idx done Ha.
  - exists []. rewrite app_nil_r. split_and!; [done|done|]. intros k H R Hk. done.
  - cbn [write_tables].
    destruct (table_to_sheet_normalised idx t H R Ht) as (sh & Hsh & Hname & Hnorm).
    destruct (Ha 0%nat t sh eq_refl) as [Hdf Hx]; [by rewrite Nat.add_0_r|].
    rewrite (write_table_accepted pd p done idx t sh Hsh Hdf (Hx done)).
    destruct (IH (S idx) (done ++ [sh]) (accepts_tail _ _ _ _ _ Ha))
      as (sheets & -> & Hlen & Hk).
    exists (sh :: sheets). split_and!.
    + by rewrite <- app_assoc.
    + simpl. by rewrite Hlen.
    + intros [|k] H' R' Hs.
      * injection Hs as <- <-. exists sh. rewrite Nat.add_0_r. auto.
      * destruct (Hk k H' R' Hs) as (sh' & ? & ? & ?). exists sh'.
        replace (idx + S k)%nat with (S idx + k)%nat by lia. auto.
Qed.

Lemma write_tables_done pd p idx ts done r w :
  write_tables pd p idx ts done = (r, w) →
  ∃ sheets, w = done ++ sheets ∧
    (length sheets <= length ts)%nat ∧
    (∀ k sh, sheets !! k = Some sh →
       ∃ t, ts !! k = Some t ∧ table_to_sheet (idx + k) t = Ok sh) ∧
    (∀ u, r = Ok u → length sheets = length ts) ∧
    (∀ e, r = Raise e →
       ∃ t, ts !! length sheets = Some t ∧
            write_table pd p w (idx + length sheets) t = Raise e).
Proof.
  revert idx done. induction ts as [|t ts IH]; intros idx done; cbn [write_tables].
  - intros [= <- <-]. exists []. rewrite app_nil_r. split_and!; try done.
  - destruct (write_table pd p done idx t) as [sh|e] eqn:Et.
    + intros H. apply IH in H as (sheets & -> & Hlen & Hk & Hok & Herr).
      apply write_table_inv in Et as (Et & _ & _).
      exists (sh :: sheets). split_and!.
      * by rewrite <- app_assoc.
      * simpl. lia.
      * intros [|k] sh' Hs.
        -- injection Hs as <-. exists t. by rewrite Nat.add_0_r.
        -- destruct (Hk k sh' Hs) as (t' & ? & ?). exists t'.
           by replace (idx + S k)%nat with (S idx + k)%nat by lia.
      * intros u Hu. simpl. by rewrite (Hok u).
      * intros e He. destruct (Herr e He) as (t' & ? & ?). exists t'. simpl.
        by replace (idx + S (length sheets))%nat with (S idx + length sheets)%nat by lia.
    + intros [= <- <-]. exists []. rewrite app_nil_r. split_and!; try done.
      * simpl. lia.
      * intros e' [= <-]. exists t. by rewrite Nat.add_0_r.
Qed.

Lemma write_tables_accepted pd p idx ts done r w :
  write_tables pd p idx ts done = (r, w) →
  ∃ sheets, w = done ++ sheets ∧
    ∀ k sh, sheets !! k = Some sh →
      DataFrame pd (data sh) (columns sh) = Ok () ∧
      to_excel pd p (done ++ take k sheets) sh = Ok ().
Proof.
  revert idx done. induction ts as [|t ts IH]; intros idx done; cbn [write_tables].
  - intros [= <- <-]. exists []. rewrite app_nil_r. split; [done|]. intros k sh Hk. done.
  - destruct (write_table pd p done idx t) as [sh|e] eqn:Et.
    + intros H. apply IH in H as (sheets & -> & Hk).
      apply write_table_inv in Et as (_ & Hdf & Hx).
      exists (sh :: sheets). split; [by rewrite <- app_assoc|].
      intros [|k] sh' Hs.
      * injection Hs as <-. cbn [take]. by rewrite app_nil_r.
      * destruct (Hk k sh' Hs) as [? Hx']. split; [done|].
        cbn [take]. by rewrite <- app_assoc in Hx'.
    + intros [= <- <-]. exists []. rewrite app_nil_r. split; [done|]. intros k sh Hk. done.
Qed.

Lemma write_tables_app pd p idx ts done w rest :
  write_tables pd p idx ts done = (Ok (), w) →
  write_tables pd p idx (ts ++ rest) done = write_tables pd p (idx + length ts) rest w.
Proof.
  revert idx done. induction ts as [|t ts IH]; intros idx done H.
  - cbn [write_tables] in H. injection H as <-. cbn [app length]. by rewrite Nat.add_0_r.
  - cbn [write_tables app] in *. destruct (write_table pd p done idx t) as [sh|e]; [|done].
    rewrite (IH _ _ H). cbn [length].
    by replace (idx + S (length ts))%nat with (S idx + length ts)%nat by lia.
Qed.

Lemma tables_value t :
  JSONToExcelConverter.isinstance_list (Py.or_ t (VList [])) = true →
  Py.truthy (Py.or_ t (VList [])) = true →
  ∃ ts, t = VList ts ∧ ts ≠ [] ∧ Py.or_ t (VList []) = VList ts.
Proof.
  unfold Py.or_. destruct (Py.truthy t) eqn:Et; [|done].
  intros Hl _. destruct t; try done. exists l. split_and!; [done| |done].
  intros ->. done.
Qed.

Lemma with_writer_inv pd p ts r o :
  with_writer pd p (VList ts) = (r, o) →
  (writer_opened o = false ∧ written o = [] ∧ ∃ e, r = Raise e) ∨
  (ExcelWriter pd p = Ok () ∧ writer_opened o = true ∧
   ∃ r', write_tables pd p 1 ts [] = (r', written o) ∧
     ((r' = Ok () ∧ r = Ok p ∧ ExcelWriter_exit pd p (written o) = Ok ()) ∨
      (∃ e, r = Raise e))).
Proof.
  unfold with_writer. destruct (ExcelWriter pd p) as [[]|e0].
  2:{ intros [= <- <-]. left. eauto. }
  cbn [Py.iter]. destruct (write_tables pd p 1 ts []) as [r' w] eqn:Ew.
  destruct (ExcelWriter_exit pd p w) as [[]|e1] eqn:Ex.
  - destruct r' as [[]|e2]; intros [= <- <-]; right; (split_and!; [done|done|]);
      eexists; (split; [reflexivity|]); eauto.
  - intros [= <- <-]. right. split_and!; [done|done|]. eauto.
Qed.

Lemma with_writer_fails pd p ts w e :
  ExcelWriter pd p = Ok () →
  write_tables pd p 1 ts [] = (Raise e, w) →
  ∃ e', with_writer pd p (VList ts) = (Raise e', {| writer_opened := true; written := w |}).
Proof.
  intros Ho Hw. unfold with_writer. rewrite Ho. cbn [Py.iter]. rewrite Hw.
  destruct (ExcelWriter_exit pd p w) as [[]|e1]; eauto.
Qed.

Lemma with_writer_returns pd p ts q o :
  with_writer pd p (VList ts) = (Ok q, o) →
  ExcelWriter pd p = Ok () ∧ ExcelWriter_exit pd p (written o) = Ok ().
Proof.
  intros H. apply with_writer_inv in H
    as [(_ & _ & e & ?)|(Ho & _ & r' & _ & [(_ & _ & Hx)|(e & ?)])]; done.
Qed.

Lemma convert_tables pd json_path d ts out_xlsx :
  Py.dict_lookup (lit "tables") d = Some (VList ts) → ts ≠ [] →
  convert pd json_path (Document (VDict d)) out_xlsx =
  with_writer pd (out_path_of json_path out_xlsx) (VList ts).
Proof.
  intros Hd Hne. unfold convert. cbn [Py.get]. rewrite Hd.
  assert (Py.or_ (VList ts) (VList []) = VList ts) as -> by (by destruct ts).
  assert (Py.truthy (VList ts) = true) as -> by (by destruct ts).
  reflexivity.
Qed.

Lemma convert_inv pd json_path file out_xlsx r o :
  convert pd json_path file out_xlsx = (r, o) →
  (writer_opened o = false ∧ written o = [] ∧ ∃ e, r = Raise e) ∨
  (∃ d ts r', file = Document (VDict d) ∧
     Py.dict_lookup (lit "tables") d = Some (VList ts) ∧ ts ≠ [] ∧
     writer_opened o = true ∧
     write_tables pd (out_path_of json_path out_xlsx) 1 ts [] = (r', written o) ∧
     ((∃ u, r' = Ok u ∧
            r = Ok (match out_xlsx with None => WithSuffixXlsx json_path | Some q => Path q end)) ∨
      (∃ e, r = Raise e))).
Proof.
  unfold convert. destruct file as [| |data].
  - intros [= <- <-]. left. eauto.
  - intros [= <- <-]. left. eauto.
  - destruct (Py.get data (lit "tables") VNone) as [t|e] eqn:Eg.
    2:{ intros [= <- <-]. left. eauto. }
    destruct (JSONToExcelConverter.isinstance_list (Py.or_ t (VList []))) eqn:El; cbn [negb orb].
    2:{ intros [= <- <-]. left. eauto. }
    destruct (Py.truthy (Py.or_ t (VList []))) eqn:Et; cbn [negb].
    2:{ intros [= <- <-]. left. eauto. }
    destruct (tables_value t El Et) as (ts & -> & Hne & ->).
    destruct data; try done. cbn [Py.get] in Eg.
    destruct (Py.dict_lookup (lit "tables") d) as [v|] eqn:Ed; [|done].
    injection Eg as ->. intros H.
    apply with_writer_inv in H as [H|(_ & Ho & r' & Hw & [(-> & -> & _)|He])]; [by left|..];
      right; exists d, ts; eexists; (split_and!; [done..|exact Hw|]); eauto.
Qed.

Lemma json_tables_to_excel_inv pd json_path file out_xlsx r o :
  json_tables_to_excel pd json_path file out_xlsx = (r, o) →
  ∃ r0, convert pd json_path file out_xlsx = (r0, o) ∧
        ((∃ p, r0 = Ok p ∧ r = Ok p) ∨ (∃ e, r0 = Raise e ∧ r = Raise FileProcessingError)).
Proof.
  unfold json_tables_to_excel.
  destruct (convert pd json_path file out_xlsx) as [[p|e] o'].
  - intros [= <- <-]. exists (Ok p). split; [done|]. left. eauto.
  - intros [= <- <-]. exists (Raise e). split; [done|]. right. eauto.
Qed.

(** C2: every table of the input, with headers [H] and rows [R], is
    normalised to [N] column names and rows of [N] cells each, where [N]
    is the number of headers when there are some and else the greatest
    row length (0 without rows): the given headers, or [col_1 .. col_N]
    when there are none; each row shorter than [N] right-padded with
    nulls, each longer row cut to its first [N] cells.  This is what
    [pd.DataFrame] and [df.to_excel] are handed for the table, under the
    name [Table1], [Table2], and so on.  Whatever pandas does with the
    frames, the sheets the writer holds at the end of the call are these
    normalised tables, in the order of the input and up to the table the
    call stopped at, each of them taken by [pd.DataFrame] and
    [df.to_excel]; the call returns only if the writer opened and closed
    and every table was written; and if pandas raises nothing, the call
    does return, with one sheet for every table. *)
Theorem tables_normalised pd json_path d out_xlsx ts specs :
  Py.dict_lookup (lit "tables") d = Some (VList ts) →
  ts ≠ [] →
  Forall2 (fun t HR => table_of t HR.1 HR.2) ts specs →
  (∀ k H R, specs !! k = Some (H, R) →
     ∃ t sh, ts !! k = Some t ∧ table_to_sheet (k + 1) t = Ok sh ∧
       sheet_name sh = lit "Table" ++ str_of_nat (k + 1) ∧
       normalised_from H R sh) ∧
  (∀ r o, json_tables_to_excel pd json_path (Document (VDict d)) out_xlsx = (r, o) →
     (length (written o) <= length specs)%nat ∧
     (∀ k sh, written o !! k = Some sh →
        (∃ H R, specs !! k = Some (H, R) ∧
           sheet_name sh = lit "Table" ++ str_of_nat (k + 1) ∧
           normalised_from H R sh) ∧
        DataFrame pd (data sh) (columns sh) = Ok () ∧
        to_excel pd (out_path_of json_path out_xlsx) (take k (written o)) sh = Ok ()) ∧
     (∀ p, r = Ok p →
        length (written o) = length specs ∧
        ExcelWriter pd (out_path_of json_path out_xlsx) = Ok () ∧
        ExcelWriter_exit pd (out_path_of json_path out_xlsx) (written o) = Ok ())) ∧
  (ExcelWriter pd (out_path_of json_path out_xlsx) = Ok () →
   accepts pd (out_path_of json_path out_xlsx) 1 ts →
   (∀ w, ExcelWriter_exit pd (out_path_of json_path out_xlsx) w = Ok ()) →
   ∃ sheets,
     json_tables_to_excel pd json_path (Document (VDict d)) out_xlsx =
       (Ok (out_path_of json_path out_xlsx),
        {| writer_opened := true; written := sheets |}) ∧
     length sheets = length specs).
Proof.
  intros Hd Hne HF.
  assert (∀ k H R, specs !! k = Some (H, R) →
     ∃ t sh, ts !! k = Some t ∧ table_to_sheet (k + 1) t = Ok sh ∧
       sheet_name sh = lit "Table" ++ str_of_nat (k + 1) ∧
       normalised_from H R sh) as Hnorm.
  { intros k H R Hk.
    destruct (Forall2_lookup_r _ _ _ _ _ HF Hk) as (t & Ht & Htab). cbn in Htab.
    destruct (table_to_sheet_normalised (k + 1) t H R Htab) as (sh & ? & ? & ?).
    by exists t, sh. }
  split_and!; [exact Hnorm| |].
  - intros r o H.
    apply json_tables_to_excel_inv in H as (r0 & Hc & Hr).
    pose proof Hc as Hc'. rewrite (convert_tables _ _ _ _ _ Hd Hne) in Hc'.
    apply convert_inv in Hc
      as [(_ & Hw & e & ->)|(d' & ts' & r' & [= <-] & Hd' & _ & _ & Hw & Hr')].
    { rewrite Hw. split_and!.
      - simpl. lia.
      - intros k sh Hk. done.
      - intros p ->. by destruct Hr as [(? & ? & _)|(? & _ & ?)]. }
    assert (ts' = ts) as -> by congruence.
    pose proof (write_tables_accepted _ _ _ _ _ _ _ Hw) as (sheets' & Hs' & Hacc).
    apply write_tables_done in Hw as (sheets & Hs & Hlen & Hk & Hok & _).
    cbn [app] in Hs, Hs'. assert (sheets' = sheets) as -> by congruence. clear Hs'.
    rewrite Hs. pose proof (Forall2_length _ _ _ HF) as Hl. split_and!.
    + lia.
    + intros k sh Hsh. destruct (Hk k sh Hsh) as (t & Ht & Hsheet).
      destruct (lookup_lt_is_Some_2 specs k) as [[H R] HHR].
      { rewrite <- Hl. by eapply lookup_lt_Some. }
      destruct (Hnorm k H R HHR) as (t' & sh' & Ht' & Hsheet' & ? & ?).
      assert (t' = t) as -> by congruence.
      replace (1 + k)%nat with (k + 1)%nat in Hsheet by lia.
      assert (sh' = sh) as -> by congruence.
      destruct (Hacc k sh Hsh) as [Hdf Hx]. cbn [app] in Hx.
      split; [by exists H, R|done].
    + intros p ->. destruct Hr as [(p' & -> & _)|(? & _ & ?)]; [|done].
      destruct Hr' as [(u & -> & _)|(e & ?)]; [|done].
      apply with_writer_returns in Hc' as [Hopen Hexit]. rewrite Hs in Hexit.
      rewrite (Hok u eq_refl). split_and!; [lia|done|done].
  - intros Hopen Hacc Hexit. unfold json_tables_to_excel.
    rewrite (convert_tables _ _ _ _ _ Hd Hne). unfold with_writer. rewrite Hopen.
    cbn [Py.iter].
    destruct (write_tables_ok pd _ 1 ts specs [] HF Hacc) as (sheets & -> & Hlen & _).
    cbn [app]. rewrite Hexit. by exists sheets.
Qed.

(** C1: a document whose ["tables"] property is missing, is not a list or
    is the empty list is rejected before the workbook writer is opened and
    before any table is processed or written.  The validation error raised
    for it does not reach the caller: the handler around the whole block
    turns every exception into [FileProcessingError]. *)
Theorem no_tables_raises_file_processing_error pd json_path data out_xlsx :
  no_tables data →
  convert pd json_path (Document data) out_xlsx =
    (Raise ValidationError, {| writer_opened := false; written := [] |}) ∧
  json_tables_to_excel pd json_path (Document data) out_xlsx =
    (Raise FileProcessingError, {| writer_opened := false; written := [] |}).
Proof.
  intros (d & -> & Hd).
  assert (convert pd json_path (Document (VDict d)) out_xlsx =
          (Raise ValidationError, {| writer_opened := false; written := [] |})) as Hc.
  { unfold convert. cbn [Py.get].
    destruct Hd as [->|(v & -> & [Hv| ->])]; [reflexivity| |reflexivity].
    unfold Py.or_. destruct (Py.truthy v); [|reflexivity].
    by rewrite Hv. }
  split; [done|]. unfold json_tables_to_excel. by rewrite Hc.
Qed.

Lemma tables_normalised_witness :
  ∃ sheets,
    json_tables_to_excel pandas_ok (lit "t.json")
      (Document (VDict [(lit "tables", VList [table1; table2])])) None =
      (Ok (WithSuffixXlsx (lit "t.json")),
       {| writer_opened := true; written := sheets |}) ∧
    length sheets = 2%nat.
Proof.
  refine (proj2 (proj2 (tables_normalised pandas_ok (lit "t.json")
              [(lit "tables", VList [table1; table2])] None
              [table1; table2]
              [([VStr (lit "a"); VStr (lit "b")],
                [[VStr (lit "1")]; [VStr (lit "2"); VStr (lit "3"); VStr (lit "4")]]);
               ([], [[VStr (lit "x"); VStr (lit "y")]; [VStr (lit "z")]])] _ _ _)) _ _ _).
  - reflexivity.
  - discriminate.
  - repeat constructor; eexists; (split; [reflexivity|]); split; by left.
  - reflexivity.
  - intros k t sh _ _. split; [reflexivity|]. intros done. reflexivity.
  - intros w. reflexivity.
Defined.

Example tables_normalised_example :
  json_tables_to_excel pandas_ok (lit "t.json")
    (Document (VDict [(lit "tables", VList [table1; table2])])) None =
  (Ok (WithSuffixXlsx (lit "t.json")),
   {| writer_opened := true;
      written :=
        [ {| sheet_name := lit "Table1";
             columns := VList [VStr (lit "a"); VStr (lit "b")];
             data := [[VStr (lit "1"); VNone]; [VStr (lit "2"); VStr (lit "3")]] |};
          {| sheet_name := lit "Table2";
             columns := VList [VStr (lit "col_1"); VStr (lit "col_2")];
             data := [[VStr (lit "x"); VStr (lit "y")]; [VStr (lit "z"); VNone]] |} ] |}).
Proof. reflexivity. Qed.

(** The same document with a control character in a cell of the second
    table: openpyxl refuses the cell, the call fails, and the first sheet
    is with the writer. *)
Example tables_refused_example :
  json_tables_to_excel pandas_openpyxl (lit "t.json")
    (Document (VDict [(lit "tables", VList [table1; table_bell])])) None =
  (Raise FileProcessingError,
   {| writer_opened := true;
      written :=
        [ {| sheet_name := lit "Table1";
             columns := VList [VStr (lit "a"); VStr (lit "b")];
             data := [[VStr (lit "1"); VNone]; [VStr (lit "2"); VStr (lit "3")]] |} ] |}).
Proof. reflexivity. Qed.

Lemma no_tables_raises_file_processing_error_witness :
  json_tables_to_excel pandas_ok (lit "t.json")
    (Document (VDict [(lit "tables", VList [])])) None =
    (Raise FileProcessingError, {| writer_opened := false; written := [] |}).
Proof.
  refine (proj2 (no_tables_raises_file_processing_error pandas_ok (lit "t.json")
                   (VDict [(lit "tables", VList [])]) None _)).
  eexists. split; [reflexivity|]. right. eexists. split; [reflexivity|]. by right.
Defined.


(** ** File names *)

Import FileNames FileNameSpec.

Lemma replace_one_char c s :
  replace [c] (lit "_") s = map (fun x => if c =? x then 95 else x) s.
Proof.
  unfold replace. induction s as [|x s IH]; [done|].
  cbn [replace_from starts_with length Nat.sub map]. rewrite IH.
  destruct (c =? x); reflexivity.
Qed.

Lemma replace_unsafe_chars chars s :
  fold_left (fun name char => replace [char] (lit "_") name) chars s =
  map (fun x => if char_in x chars then 95 else x) s.
Proof.
  revert s. induction chars as [|ch chars IH]; intros s; cbn [fold_left].
  - symmetry. apply map_id.
  - rewrite IH, replace_one_char, map_map. apply map_ext. intros x.
    unfold char_in. cbn [existsb]. rewrite (N.eqb_sym x ch).
    destruct (ch =? x); [|done].
    cbn [orb]. by destruct (existsb (N.eqb 95) chars).
Qed.

Lemma replace_uu_match t :
  replace (lit "__") (lit "_") (95 :: 95 :: t) = 95 :: replace (lit "__") (lit "_") t.
Proof. reflexivity. Qed.

Lemma replace_uu_other c t :
  starts_with (lit "__") (c :: t) = false →
  replace (lit "__") (lit "_") (c :: t) = c :: replace (lit "__") (lit "_") t.
Proof. intros H. unfold replace. cbn [replace_from]. by rewrite H. Qed.

Lemma starts_with_uu c t :
  starts_with (lit "__") (c :: t) = true → c = 95 ∧ ∃ t', t = 95 :: t'.
Proof.
  change (lit "__") with [95; 95]. cbn [starts_with].
  destruct (N.eqb_spec 95 c) as [<-|]; [|done]. destruct t as [|c' t']; [done|].
  destruct (N.eqb_spec 95 c') as [<-|]; [|done]. eauto.
Qed.

(** Induction along one pass of [replace('__', '_')]. *)
Lemma uu_ind (P : pystr → Prop) :
  P [] →
  (∀ t, P t → P (95 :: 95 :: t)) →
  (∀ c t, starts_with (lit "__") (c :: t) = false → P t → P (c :: t)) →
  ∀ s, P s.
Proof.
  intros H0 H2 H1 s.
  assert (∀ n s, (length s <= n)%nat → P s) as Hn; [|by apply (Hn (length s))].
  clear s. induction n as [|n IH]; intros s Hs.
  - destruct s; [done|simpl in Hs; lia].
  - destruct s as [|c t]; [done|].
    destruct (starts_with (lit "__") (c :: t)) eqn:E.
    + apply starts_with_uu in E as (-> & t' & ->). apply H2, IH. simpl in Hs. lia.
    + apply H1; [done|]. apply IH. simpl in Hs. lia.
Qed.

Lemma replace_uu_length s :
  (length (replace (lit "__") (lit "_") s) <= length s)%nat.
Proof.
  induction s as [|t IH|c t E IH] using uu_ind; [done| |].
  - rewrite replace_uu_match. simpl. lia.
  - rewrite replace_uu_other by done. simpl. lia.
Qed.

Lemma replace_uu_shorter s :
  contains (lit "__") s = true →
  (length (replace (lit "__") (lit "_") s) < length s)%nat.
Proof.
  induction s as [|t IH|c t E IH] using uu_ind; [done| |].
  - intros _. rewrite replace_uu_match. pose proof (replace_uu_length t). simpl. lia.
  - cbn [contains]. rewrite E. cbn [orb]. intros H.
    rewrite replace_uu_other by done. specialize (IH H). simpl. lia.
Qed.

Lemma replace_uu_elem s x : x ∈ replace (lit "__") (lit "_") s → x ∈ s.
Proof.
  induction s as [|t IH|c t E IH] using uu_ind; [done| |].
  - rewrite replace_uu_match. intros H. apply elem_of_cons in H as [->|H]; [by left|].
    right. right. by apply IH.
  - rewrite replace_uu_other by done. intros H.
    apply elem_of_cons in H as [->|H]; [by left|]. right. by apply IH.
Qed.

Lemma replace_uu_filter (keep : N → bool) s :
  keep 95 = false →
  List.filter keep (replace (lit "__") (lit "_") s) = List.filter keep s.
Proof.
  intros H95. induction s as [|t IH|c t E IH] using uu_ind; [done| |].
  - rewrite replace_uu_match. cbn [List.filter]. by rewrite H95.
  - rewrite replace_uu_other by done. cbn [List.filter]. by rewrite IH.
Qed.

(** The loop leaves no two underscores in a row: it ends because its
    condition fails, never because the rounds run out. *)
Lemma squeeze_no_uu rounds s :
  (length s <= rounds)%nat → contains (lit "__") (squeeze rounds s) = false.
Proof.
  revert s. induction rounds as [|n IH]; intros s Hs.
  - destruct s; [done|simpl in Hs; lia].
  - cbn [squeeze]. destruct (contains (lit "__") s) eqn:E; [|done].
    apply IH. pose proof (replace_uu_shorter s E). lia.
Qed.

Lemma squeeze_elem rounds s x : x ∈ squeeze rounds s → x ∈ s.
Proof.
  revert s. induction rounds as [|n IH]; intros s.
  - cbn [squeeze]. by destruct (contains _ s).
  - cbn [squeeze]. destruct (contains _ s); [|done].
    intros H. by apply replace_uu_elem, IH.
Qed.

Lemma squeeze_filter (keep : N → bool) rounds s :
  keep 95 = false → List.filter keep (squeeze rounds s) = List.filter keep s.
Proof.
  intros H95. revert s. induction rounds as [|n IH]; intros s.
  - cbn [squeeze]. by destruct (contains _ s).
  - cbn [squeeze]. destruct (contains _ s); [|done].
    by rewrite IH, replace_uu_filter.
Qed.

Lemma squeeze_fixed rounds s : contains (lit "__") s = false → squeeze rounds s = s.
Proof. intros H. destruct rounds; cbn [squeeze]; by rewrite H. Qed.

Lemma lstrip_split chars s :
  ∃ a, s = a ++ lstrip chars s ∧ Forall (fun c => char_in c chars = true) a.
Proof.
  induction s as [|c t (a & E & Ha)]; [by exists []|]. cbn [lstrip].
  destruct (char_in c chars) eqn:Ec.
  - exists (c :: a). split; [simpl; by rewrite <- E|by constructor].
  - by exists [].
Qed.

Lemma lstrip_head chars s c : head (lstrip chars s) = Some c → char_in c chars = false.
Proof.
  induction s as [|x t IH]; [done|]. cbn [lstrip].
  destruct (char_in x chars) eqn:Ex; [done|]. by intros [= <-].
Qed.

Lemma lstrip_fixed chars s :
  (∀ c, head s = Some c → char_in c chars = false) → lstrip chars s = s.
Proof.
  destruct s as [|c t]; [done|]. intros H. cbn [lstrip]. by rewrite (H c).
Qed.

Lemma strip_split chars s :
  ∃ a b, s = a ++ strip chars s ++ b ∧
         Forall (fun c => char_in c chars = true) a ∧
         Forall (fun c => char_in c chars = true) b.
Proof.
  unfold strip, rstrip.
  destruct (lstrip_split chars s) as (a & Ea & Ha).
  destruct (lstrip_split chars (reverse (lstrip chars s))) as (b & Eb & Hb).
  exists a, (reverse b). split_and!; [|done|by apply Forall_reverse].
  rewrite Ea at 1. f_equal. apply (f_equal reverse) in Eb.
  by rewrite reverse_involutive, reverse_app in Eb.
Qed.

Lemma strip_head chars s c : head (strip chars s) = Some c → char_in c chars = false.
Proof.
  intros H. unfold strip, rstrip in H.
  destruct (lstrip_split chars (reverse (lstrip chars s))) as (b & Eb & Hb).
  apply (f_equal reverse) in Eb. rewrite reverse_involutive, reverse_app in Eb.
  set (r := reverse (lstrip chars (reverse (lstrip chars s)))) in *.
  destruct r as [|x r']; [done|]. injection H as ->.
  apply (lstrip_head chars s). by rewrite Eb.
Qed.

Lemma strip_last chars s c : last (strip chars s) = Some c → char_in c chars = false.
Proof.
  unfold strip, rstrip. rewrite last_reverse. apply lstrip_head.
Qed.

Lemma strip_fixed chars s :
  (∀ c, head s = Some c → char_in c chars = false) →
  (∀ c, last s = Some c → char_in c chars = false) →
  strip chars s = s.
Proof.
  intros Hh Hl. unfold strip, rstrip. rewrite (lstrip_fixed chars s) by done.
  rewrite lstrip_fixed; [apply reverse_involutive|].
  intros c. rewrite head_reverse. apply Hl.
Qed.

Lemma starts_with_app sub s b :
  starts_with sub s = true → starts_with sub (s ++ b) = true.
Proof.
  revert s. induction sub as [|x sub IH]; intros [|y s]; try done. simpl.
  rewrite !andb_true_iff. intros [? ?]. auto.
Qed.

Lemma contains_app_r sub s b : contains sub s = true → contains sub (s ++ b) = true.
Proof.
  induction s as [|c t IH].
  - cbn [contains]. rewrite orb_false_r. intros H. destruct sub; [|done]. by destruct b.
  - cbn [contains app]. rewrite !orb_true_iff. intros [H|H].
    + left. by apply (starts_with_app sub (c :: t) b).
    + right. by apply IH.
Qed.

Lemma contains_app_l sub a s : contains sub s = true → contains sub (a ++ s) = true.
Proof.
  intros H. induction a as [|c a IH]; [done|].
  cbn [app contains]. rewrite IH. apply orb_true_r.
Qed.

Lemma filter_all_out (keep : N → bool) chars (a : pystr) :
  (∀ c, char_in c chars = true → keep c = false) →
  Forall (fun c => char_in c chars = true) a → List.filter keep a = [].
Proof.
  intros Hk. induction 1 as [|c a Hc _ IH]; [done|].
  cbn [List.filter]. by rewrite (Hk c Hc).
Qed.

Lemma strip_filter (keep : N → bool) chars s :
  (∀ c, char_in c chars = true → keep c = false) →
  List.filter keep (strip chars s) = List.filter keep s.
Proof.
  intros Hk. destruct (strip_split chars s) as (a & b & E & Ha & Hb).
  rewrite E at 2. rewrite !List.filter_app.
  rewrite (filter_all_out keep chars a), (filter_all_out keep chars b) by done.
  by rewrite app_nil_r.
Qed.

Lemma char_in_underscore c : char_in c (lit "_") = true ↔ c = 95.
Proof.
  unfold char_in. change (lit "_") with [95]. cbn [existsb]. rewrite orb_false_r.
  apply N.eqb_eq.
Qed.

Lemma clean_filename_unfold s :
  clean_filename s =
  strip (lit "_")
    (squeeze (length s) (map (fun x => if char_in x unsafe_chars then 95 else x) s)).
Proof.
  unfold clean_filename. rewrite replace_unsafe_chars. by rewrite length_map.
Qed.

Lemma clean_filename_chars_safe s c :
  c ∈ clean_filename s → char_in c unsafe_chars = false.
Proof.
  rewrite clean_filename_unfold. intros H.
  destruct (strip_split (lit "_")
              (squeeze (length s) (map (fun x => if char_in x unsafe_chars then 95 else x) s)))
    as (a & b & E & _ & _).
  assert (c ∈ squeeze (length s) (map (fun x => if char_in x unsafe_chars then 95 else x) s)) as H'.
  { rewrite E. rewrite !elem_of_app. auto. }
  apply squeeze_elem, list_elem_of_In, in_map_iff in H' as (x & Hx & _).
  destruct (char_in x unsafe_chars) eqn:Ex; by subst.
Qed.

Lemma clean_filename_uu s :
  contains (lit "__") (clean_filename s) = false ∧
  head (clean_filename s) ≠ Some 95 ∧
  last (clean_filename s) ≠ Some 95.
Proof.
  rewrite clean_filename_unfold.
  set (m := squeeze (length s) (map (fun x => if char_in x unsafe_chars then 95 else x) s)).
  split_and!.
  - destruct (contains (lit "__") (strip (lit "_") m)) eqn:E; [|done].
    destruct (strip_split (lit "_") m) as (a & b & Em & _ & _).
    assert (contains (lit "__") m = true) as Hm.
    { rewrite Em. by apply contains_app_l, contains_app_r. }
    unfold m in Hm. rewrite squeeze_no_uu in Hm; [done|]. by rewrite length_map.
  - intros H. by apply strip_head in H.
  - intros H. by apply strip_last in H.
Qed.

Lemma clean_filename_of_clean_name s : clean_name s → clean_filename s = s.
Proof.
  intros (Hu & Huu & Hh & Hl). rewrite clean_filename_unfold.
  assert (map (fun x => if char_in x unsafe_chars then 95 else x) s = s) as ->.
  { rewrite <- (map_id s) at 2. apply map_ext_in. intros x Hx.
    rewrite Forall_forall in Hu. by rewrite Hu by (by apply list_elem_of_In). }
  rewrite squeeze_fixed by done. apply strip_fixed.
  - intros c Hc. destruct (char_in c (lit "_")) eqn:E; [|done].
    apply char_in_underscore in E as ->. done.
  - intros c Hc. destruct (char_in c (lit "_")) eqn:E; [|done].
    apply char_in_underscore in E as ->. done.
Qed.

Lemma clean_filename_is_clean_name s : clean_name (clean_filename s).
Proof.
  destruct (clean_filename_uu s) as (Huu & Hh & Hl).
  split_and!; try done. apply Forall_forall. intros c Hc.
  by apply (clean_filename_chars_safe s).
Qed.

Lemma kept_underscore : kept 95 = false.
Proof. reflexivity. Qed.

Lemma sanitize_filter s :
  List.filter kept (map (fun x => if char_in x unsafe_chars then 95 else x) s) =
  List.filter kept s.
Proof.
  induction s as [|x s IH]; [done|]. cbn [map List.filter]. rewrite IH.
  destruct (char_in x unsafe_chars) eqn:E; [|done].
  rewrite kept_underscore. unfold kept. by rewrite E.
Qed.

(** X1: no character of a cleaned file name is one of the unsafe
    characters of [clean_filename]. *)
Theorem clean_filename_no_unsafe s c :
  c ∈ clean_filename s → char_in c unsafe_chars = false.
Proof. apply clean_filename_chars_safe. Qed.

(** X2: a cleaned file name has no two underscores in a row and neither
    begins nor ends with an underscore.  The loop that squeezes the
    underscores ends with none doubled: as many rounds as the name has
    characters are never used up. *)
Theorem clean_filename_underscores s :
  contains (lit "__") (squeeze (length s) s) = false ∧
  contains (lit "__") (clean_filename s) = false ∧
  head (clean_filename s) ≠ Some 95 ∧
  last (clean_filename s) ≠ Some 95.
Proof. split; [by apply squeeze_no_uu|apply clean_filename_uu]. Qed.

(** X3: [clean_filename] is idempotent, and the names it leaves unchanged
    are exactly the clean ones: no unsafe character, no two underscores in
    a row, no underscore at either end. *)
Theorem clean_filename_idempotent s :
  clean_filename (clean_filename s) = clean_filename s ∧
  (clean_filename s = s ↔ clean_name s).
Proof.
  split.
  - apply clean_filename_of_clean_name, clean_filename_is_clean_name.
  - split.
    + intros E. rewrite <- E. apply clean_filename_is_clean_name.
    + apply clean_filename_of_clean_name.
Qed.

(** X4: [clean_filename] only touches unsafe characters and underscores:
    all other characters of the name are kept, in their order. *)
Theorem clean_filename_keeps_other_characters s :
  List.filter kept (clean_filename s) = List.filter kept s.
Proof.
  rewrite clean_filename_unfold, strip_filter, squeeze_filter, sanitize_filter.
  - done.
  - apply kept_underscore.
  - intros c Hc. apply char_in_underscore in Hc as ->. apply kept_underscore.
Qed.

Lemma clean_filename_no_unsafe_witness :
  char_in 116 unsafe_chars = false.
Proof.
  apply (clean_filename_no_unsafe (lit "<t>") 116). vm_compute. by left.
Defined.

(** ** More on the subject date parser *)

Lemma search_pattern2_Some s g :
  re_search pattern2 s = Some g →
  ∃ i run rest, g = [run] ∧ drop i s = run ++ rest ∧ eight_digits run ∧
    ∀ l, (l < i)%nat → ¬ eight_digits_at l s.
Proof.
  intros H. apply re_search_Some in H as (i & rest & H & Hmin).
  apply pattern2_match in H as (run & -> & E & H8).
  exists i, run, rest. split_and!; auto.
  intros l Hl. rewrite eight_digits_at_match. rewrite Hmin by done. auto.
Qed.

Lemma first_window_unique s i j run run' rest rest' :
  drop i s = run ++ rest → eight_digits run → (∀ l, (l < i)%nat → ¬ eight_digits_at l s) →
  drop j s = run' ++ rest' → eight_digits run' → (∀ l, (l < j)%nat → ¬ eight_digits_at l s) →
  run = run'.
Proof.
  intros E H8 Hmin E' H8' Hmin'.
  pose proof (search_pattern2_first s i run rest E H8 Hmin) as H1.
  pose proof (search_pattern2_first s j run' rest' E' H8' Hmin') as H2.
  congruence.
Qed.

Lemma parse_None_iff now s :
  parse_date_from_subject now (VStr s) = Ok None ↔
  (∀ i, ¬ year_date_at i s) ∧
  (∀ i, ¬ md_date_at i s) ∧
  (∀ i run rest, drop i s = run ++ rest → eight_digits run →
     (∀ l, (l < i)%nat → ¬ eight_digits_at l s) → ¬ calendar_valid run).
Proof.
  rewrite parse_unfold. split.
  - destruct (re_search pattern1 s) as [g|] eqn:E1; [done|].
    rewrite search_pattern1_None in E1.
    assert (pattern3_result now s = None → ∀ i, ¬ md_date_at i s) as H3.
    { unfold pattern3_result. destruct (re_search pattern3 s) eqn:E3; [done|].
      intros _. by apply search_pattern3_None. }
    destruct (re_search pattern2 s) as [g|] eqn:E2.
    + apply search_pattern2_Some in E2 as (j & run' & rest' & -> & E' & H8' & Hmin').
      change (group 1 [run']) with run'.
      destruct (strptime run') as [ymd|e] eqn:Ev; [done|].
      intros [= H]. split_and!; auto.
      intros i run rest E H8 Hmin [ymd Hv].
      rewrite (first_window_unique s i j run run' rest rest') in Hv by done. congruence.
    + intros [= H]. split_and!; auto.
      intros i run rest E H8 Hmin _. rewrite search_pattern2_None in E2.
      apply (E2 i). by exists run, rest.
  - intros (H1 & H3 & H2). apply search_pattern1_None in H1. rewrite H1.
    rewrite (pattern3_result_None now s H3).
    destruct (re_search pattern2 s) as [g|] eqn:E2; [|done].
    apply search_pattern2_Some in E2 as (j & run' & rest' & -> & E' & H8' & Hmin').
    change (group 1 [run']) with run'.
    destruct (strptime run') as [ymd|e] eqn:Ev; [|done].
    destruct (H2 j run' rest' E' H8' Hmin'). by exists ymd.
Qed.

Lemma drop_head_elem (s : pystr) i c t : drop i s = c :: t → c ∈ s.
Proof.
  intros E. rewrite <- (take_drop i s), E. apply elem_of_app. right. by left.
Qed.

Lemma all_digits_head s c t : all_digits s → s = c :: t → is_digit c = true.
Proof. intros H ->. by inversion H. Qed.

Lemma short_num_head M : short_num M → ∃ c t, M = c :: t ∧ is_digit c = true.
Proof.
  intros [HL HD]. destruct M as [|c t]; [simpl in HL; lia|].
  exists c, t. split; [done|]. by inversion HD.
Qed.

Lemma year_date_has_digit i s : year_date_at i s → ∃ c, c ∈ s ∧ is_digit c = true.
Proof.
  intros (Y & M & D & rest & E & HL & HD & _).
  destruct Y as [|c Y]; [done|]. exists c. split.
  - eapply (drop_head_elem s i c). rewrite E. reflexivity.
  - by inversion HD.
Qed.

Lemma md_date_has_digit i s : md_date_at i s → ∃ c, c ∈ s ∧ is_digit c = true.
Proof.
  intros (M & D & rest & E & HM & _).
  destruct (short_num_head M HM) as (c & t & -> & Hc). exists c. split; [|done].
  eapply (drop_head_elem s i c). rewrite E. reflexivity.
Qed.

Lemma eight_digits_has_digit i s : eight_digits_at i s → ∃ c, c ∈ s ∧ is_digit c = true.
Proof.
  intros (run & rest & E & HL & HD).
  destruct run as [|c run]; [done|]. exists c. split.
  - eapply (drop_head_elem s i c). rewrite E. reflexivity.
  - by inversion HD.
Qed.

(** X5: a subject has no date exactly when it holds no year-bearing date,
    no year-less date M U+C6D4 D U+C77C, and its first run of eight
    consecutive digits, if there is one, is not a calendar date. *)
Theorem parse_absent_iff now s :
  parse_date_from_subject now (VStr s) = Ok None ↔
  (∀ i, ¬ year_date_at i s) ∧
  (∀ i, ¬ md_date_at i s) ∧
  (∀ i run rest, drop i s = run ++ rest → eight_digits run →
     (∀ l, (l < i)%nat → ¬ eight_digits_at l s) → ¬ calendar_valid run).
Proof. apply parse_None_iff. Qed.

(** X6: a subject without any decimal digit has no date. *)
Theorem parse_without_digits now s :
  Forall (fun c => is_digit c = false) s →
  parse_date_from_subject now (VStr s) = Ok None.
Proof.
  intros Hs. rewrite Forall_forall in Hs. apply parse_None_iff. split_and!.
  - intros i H. apply year_date_has_digit in H as (c & Hc & Hd).
    rewrite (Hs c Hc) in Hd. done.
  - intros i H. apply md_date_has_digit in H as (c & Hc & Hd).
    rewrite (Hs c Hc) in Hd. done.
  - intros i run rest E H8 _ _.
    assert (eight_digits_at i s) as H by (by exists run, rest).
    apply eight_digits_has_digit in H as (c & Hc & Hd).
    rewrite (Hs c Hc) in Hd. done.
Qed.

(** X7: in a subject with no year-bearing date, a first run of eight
    consecutive digits that is a calendar date under [%Y%m%d] is returned
    as it stands. *)
Theorem valid_eight_digits_returned now pre run post :
  let s := pre ++ run ++ post in
  (∀ i, ¬ year_date_at i s) →
  eight_digits run →
  (∀ l, (l < length pre)%nat → ¬ eight_digits_at l s) →
  calendar_valid run →
  parse_date_from_subject now (VStr s) = Ok (Some run).
Proof.
  intros s H1 H8 Hmin [ymd Hv]. rewrite parse_unfold.
  apply search_pattern1_None in H1. rewrite H1.
  rewrite (search_pattern2_first s (length pre) run post); [|apply drop_prefix|done|done].
  change (group 1 [run]) with run. by rewrite Hv.
Qed.

(** X8: in a subject with no year-bearing date and no run of eight
    consecutive digits, the first year-less date M U+C6D4 D U+C77C gives
    the year of the clock followed by the zero-padded month and day. *)
Theorem year_less_date_takes_clock_year now pre M D post :
  let s := pre ++ md_text M D ++ post in
  (∀ i, ¬ year_date_at i s) →
  (∀ i, ¬ eight_digits_at i s) →
  md_shape M D →
  (∀ l, (l < length pre)%nat → ¬ md_date_at l s) →
  parse_date_from_subject now (VStr s) =
    Ok (Some (str_of_N (year now) ++ pad2 M ++ pad2 D)).
Proof.
  intros s H1 H2 Hs Hmin. rewrite parse_unfold.
  apply search_pattern1_None in H1. rewrite H1.
  apply search_pattern2_None in H2. rewrite H2.
  rewrite (pattern3_result_first now s (length pre) M D post); auto.
  apply drop_prefix.
Qed.

Lemma uint_codes_digits u : all_digits (uint_codes u).
Proof. induction u; simpl; constructor; auto. Qed.

Lemma pad2_digits M : all_digits M → all_digits (pad2 M).
Proof.
  intros H. unfold pad2. apply Forall_app. split; [|done].
  by apply Forall_replicate.
Qed.

Lemma str_of_N_four_digits n : 1000 <= n <= 9999 → length (str_of_N n) = 4%nat.
Proof.
  intros Hn.
  assert (forallb (fun a => forallb (fun b =>
            Nat.eqb (length (str_of_N (1000 + 100 * N.of_nat a + N.of_nat b))) 4)
            (seq 0 100)) (seq 0 90) = true) as Hall by (vm_compute; reflexivity).
  rewrite forallb_forall in Hall.
  assert (∃ q r, n = 1000 + 100 * q + r ∧ q < 90 ∧ r < 100) as (q & r & -> & Hq & Hr).
  { exists ((n - 1000) / 100), ((n - 1000) mod 100).
    pose proof (N.div_mod' (n - 1000) 100) as Hdm. split_and!.
    - lia.
    - apply N.div_lt_upper_bound; lia.
    - apply N.mod_lt. lia. }
  specialize (Hall (N.to_nat q)). rewrite forallb_forall in Hall.
  assert (In (N.to_nat q) (seq 0 90)) as Hiq by (apply in_seq; lia).
  assert (In (N.to_nat r) (seq 0 100)) as Hir by (apply in_seq; lia).
  specialize (Hall Hiq (N.to_nat r) Hir).
  rewrite !N2Nat.id in Hall. by apply Nat.eqb_eq.
Qed.

(** X9: a parsed date consists of decimal digits only, and has eight of
    them when the year of the clock has four digits. *)
Theorem parsed_date_shape now s d :
  parse_date_from_subject now (VStr s) = Ok (Some d) →
  all_digits d ∧ (1000 <= year now <= 9999 → length d = 8%nat).
Proof.
  intros H.
  apply parse_Some_cases in H as [(Y & M & D & Hs & ->)|[[[HL HD] _]|(M & D & [HM HD] & ->)]].
  - destruct Hs as (HL & HYd & HM & HD). split.
    + unfold all_digits. rewrite !Forall_app. split_and!; [done| |].
      * apply pad2_digits, HM.
      * apply pad2_digits, HD.
    + intros _. rewrite !length_app, !pad2_length by done. lia.
  - done.
  - split.
    + unfold all_digits. rewrite !Forall_app. split_and!.
      * apply uint_codes_digits.
      * apply pad2_digits, HM.
      * apply pad2_digits, HD.
    + intros Hy. rewrite !length_app, !pad2_length by done.
      rewrite str_of_N_four_digits by done. lia.
Qed.

Lemma parse_without_digits_witness :
  parse_date_from_subject sample_now (VStr (lit "weekly report")) = Ok None.
Proof.
  apply (parse_without_digits sample_now (lit "weekly report")).
  repeat constructor.
Defined.

Lemma valid_eight_digits_returned_witness :
  parse_date_from_subject sample_now (VStr (lit "SO " ++ lit "20250902" ++ lit " due")) =
  Ok (Some (lit "20250902")).
Proof.
  refine (valid_eight_digits_returned sample_now (lit "SO ") (lit "20250902") (lit " due")
            _ _ _ _).
  - apply search_pattern1_None. reflexivity.
  - shape_tac.
  - intros l Hl. rewrite eight_digits_at_match. offsets l Hl no_match_here.
  - eexists. vm_compute. reflexivity.
Defined.

Lemma year_less_date_takes_clock_year_witness :
  parse_date_from_subject sample_now
    (VStr (lit "memo " ++ md_text (lit "9") (lit "04") ++ lit " test")) =
  Ok (Some (lit "20260904")).
Proof.
  refine (year_less_date_takes_clock_year sample_now (lit "memo ") (lit "9") (lit "04")
            (lit " test") _ _ _ _).
  - apply search_pattern1_None. reflexivity.
  - apply search_pattern2_None. reflexivity.
  - shape_tac.
  - intros l Hl. rewrite md_date_at_match. offsets l Hl no_match_here.
Defined.

Lemma parsed_date_shape_witness :
  all_digits (lit "20250902") ∧
  (1000 <= year sample_now <= 9999 → length (lit "20250902") = 8%nat).
Proof.
  apply (parsed_date_shape sample_now (lit "SO 20250902") (lit "20250902")).
  reflexivity.
Defined.

(** ** More on the message selector *)

Lemma find_message_by_date_first now l1 c l2 target :
  Forall well_formed_message l1 → well_formed_message c →
  parsed_date now c = Some target →
  (∀ c', c' ∈ l1 → parsed_date now c' ≠ Some target) →
  find_message_by_date now (l1 ++ c :: l2) target = Ok (Some c).
Proof.
  intros Hwf Hc Hd. induction Hwf as [|a l1 Ha _ IH]; cbn [app]; intros Hbefore.
  - rewrite find_message_by_date_cons by done. by rewrite decide_True.
  - rewrite find_message_by_date_cons by done.
    rewrite decide_False by (apply Hbefore; by left).
    apply IH. intros c' Hc'. apply Hbefore. by right.
Qed.

Lemma date_key_parsed now c d : parsed_date now c = Some d → date_key now c = d.
Proof. intros H. unfold date_key. by rewrite H. Qed.

(** X10: the message [find_latest_message] returns, when its subject has
    a date, is the message [find_message_by_date] returns for that date. *)
Theorem latest_is_found_by_its_date now cands c d :
  Forall well_formed_message cands →
  find_latest_message now cands = Ok (Some c) →
  parsed_date now c = Some d →
  find_message_by_date now cands d = Ok (Some c).
Proof.
  intros Hwf Hl Hd.
  destruct (decide (cands = [])) as [->|Hne]; [done|].
  destruct (find_latest_message_spec now cands Hwf Hne) as (l1 & c' & l2 & -> & Hl' & H1 & _).
  rewrite Hl' in Hl. injection Hl as ->.
  apply Forall_app in Hwf as [Hwf1 Hwf2]. inversion Hwf2; subst.
  apply find_message_by_date_first; auto.
  intros x Hx Hxd. specialize (H1 x Hx). unfold str_lt in H1.
  rewrite (date_key_parsed now x d Hxd), (date_key_parsed now c d Hd) in H1.
  by rewrite str_ltb_irrefl in H1.
Qed.

Lemma fmap_inj_on_NoDup {A B} (f : A → B) (l : list A) x y :
  NoDup (f <$> l) → x ∈ l → y ∈ l → f x = f y → x = y.
Proof.
  induction l as [|a l IH]; intros Hnd Hx Hy E; [by apply elem_of_nil in Hx|].
  rewrite fmap_cons in Hnd. apply NoDup_cons in Hnd as [Ha Hnd].
  apply elem_of_cons in Hx as [->|Hx]; apply elem_of_cons in Hy as [->|Hy].
  - done.
  - destruct Ha. rewrite E. apply list_elem_of_fmap. by exists y.
  - destruct Ha. rewrite <- E. apply list_elem_of_fmap. by exists x.
  - by apply IH.
Qed.

(** X11: when the messages have pairwise different date keys, the message
    [find_latest_message] returns does not depend on the order of the
    list. *)
Theorem find_latest_message_order_independent now cands cands' :
  Forall well_formed_message cands →
  NoDup (date_key now <$> cands) →
  cands ≡ₚ cands' →
  find_latest_message now cands' = find_latest_message now cands.
Proof.
  intros Hwf Hnd Hp.
  assert (Forall well_formed_message cands') as Hwf' by (by rewrite <- Hp).
  destruct (decide (cands = [])) as [->|Hne].
  { apply Permutation_nil_l in Hp. by subst. }
  assert (cands' ≠ []) as Hne'.
  { intros ->. by apply Permutation_nil_r in Hp. }
  destruct (find_latest_message_spec now cands Hwf Hne) as (l1 & c & l2 & E & -> & H1 & H2).
  destruct (find_latest_message_spec now cands' Hwf' Hne') as (k1 & c' & k2 & E' & -> & K1 & K2).
  assert (∀ x, x ∈ cands → str_ltb (date_key now c) (date_key now x) = false) as Hmax.
  { intros x Hx. rewrite E in Hx. apply elem_of_app in Hx as [Hx|Hx].
    - by apply str_ltb_asym, H1.
    - apply elem_of_cons in Hx as [->|Hx]; [apply str_ltb_irrefl|by apply H2]. }
  assert (∀ x, x ∈ cands' → str_ltb (date_key now c') (date_key now x) = false) as Hmax'.
  { intros x Hx. rewrite E' in Hx. apply elem_of_app in Hx as [Hx|Hx].
    - by apply str_ltb_asym, K1.
    - apply elem_of_cons in Hx as [->|Hx]; [apply str_ltb_irrefl|by apply K2]. }
  assert (c ∈ cands) as Hc by (rewrite E; apply elem_of_app; right; by left).
  assert (c' ∈ cands') as Hc' by (rewrite E'; apply elem_of_app; right; by left).
  assert (c' ∈ cands) as Hc'0 by (by rewrite Hp).
  assert (c ∈ cands') as Hc0' by (by rewrite <- Hp).
  do 2 f_equal.
  apply (fmap_inj_on_NoDup (date_key now) cands); auto.
  apply str_ltb_total; auto.
Qed.

(** X12: [find_message_by_date] stops at the first match: the messages
    after it are not looked at, whatever they are. *)
Theorem find_message_by_date_ignores_the_rest now l1 c l2 target :
  Forall well_formed_message l1 → well_formed_message c →
  parsed_date now c = Some target →
  find_message_by_date now (l1 ++ c :: l2) target =
  find_message_by_date now (l1 ++ [c]) target ∧
  ∃ r, find_message_by_date now (l1 ++ c :: l2) target = Ok (Some r).
Proof.
  intros Hwf Hc Hd. induction Hwf as [|a l1 Ha _ [IH1 [r IH2]]]; cbn [app].
  - rewrite !find_message_by_date_cons by done. rewrite !decide_True by done. eauto.
  - rewrite !find_message_by_date_cons by done.
    destruct (decide (parsed_date now a = Some target)); eauto.
Qed.

Lemma mapM_app_raise {A B} (f : A → result B) (g : A → B) l1 bad l2 e :
  Forall (fun a => f a = Ok (g a)) l1 → f bad = Raise e →
  mapM f (l1 ++ bad :: l2) = Raise e.
Proof.
  intros H Hbad. induction H as [|a l1 Ha _ IH]; cbn [app mapM].
  - by rewrite Hbad.
  - rewrite Ha. cbn [mbind result_bind]. by rewrite IH.
Qed.

(** X13: [find_latest_message] computes the key of every message before
    it picks one: a message whose ['subject'] is not a [str] makes it
    raise [TypeError], wherever the message stands, even behind a message
    with a date. *)
Theorem find_latest_message_raises_on_bad_subject now l1 d v l2 :
  Forall well_formed_message l1 →
  Py.dict_lookup (lit "subject") d = Some v →
  (∀ s, v ≠ VStr s) →
  find_latest_message now (l1 ++ VDict d :: l2) = Raise TypeError.
Proof.
  intros Hwf Hd Hv. unfold find_latest_message.
  destruct (l1 ++ VDict d :: l2) as [|x xs] eqn:E; [by destruct l1|].
  rewrite <- E.
  rewrite (mapM_app_raise (sort_key now) (date_key now) l1 (VDict d) l2 TypeError); [done| |].
  - eapply Forall_impl; [exact Hwf|]. intros c. apply sort_key_date_key.
  - unfold sort_key. cbn [Py.get]. rewrite Hd. cbn [mbind result_bind].
    destruct v; try done. by destruct (Hv s).
Qed.

Lemma latest_is_found_by_its_date_witness :
  find_message_by_date sample_now [msg1; msg4; msg2; msg3] (lit "20250906") = Ok (Some msg2).
Proof.
  refine (latest_is_found_by_its_date sample_now [msg1; msg4; msg2; msg3] msg2
            (lit "20250906") _ _ _).
  - repeat (constructor; [wf_tac|]). constructor.
  - reflexivity.
  - reflexivity.
Defined.

Lemma find_latest_message_order_independent_witness :
  find_latest_message sample_now [msg2; msg1; msg4] =
  find_latest_message sample_now [msg1; msg4; msg2].
Proof.
  refine (find_latest_message_order_independent sample_now
            [msg1; msg4; msg2] [msg2; msg1; msg4] _ _ _).
  - repeat (constructor; [wf_tac|]). constructor.
  - apply (bool_decide_unpack _). vm_compute. exact I.
  - change [msg1; msg4; msg2] with ([msg1; msg4] ++ [msg2]).
    change [msg2; msg1; msg4] with ([msg2] ++ [msg1; msg4]).
    apply Permutation_app_comm.
Defined.

Lemma find_message_by_date_ignores_the_rest_witness :
  find_message_by_date sample_now ([msg1; msg4] ++ msg2 :: [VNone; VInt 3]) (lit "20250906") =
  find_message_by_date sample_now ([msg1; msg4] ++ [msg2]) (lit "20250906").
Proof.
  refine (proj1 (find_message_by_date_ignores_the_rest sample_now [msg1; msg4] msg2
                   [VNone; VInt 3] (lit "20250906") _ _ _)).
  - repeat (constructor; [wf_tac|]). constructor.
  - wf_tac.
  - reflexivity.
Defined.

Lemma find_latest_message_raises_on_bad_subject_witness :
  find_latest_message sample_now ([msg2] ++ VDict [(lit "subject", VNone)] :: [msg1]) =
  Raise TypeError.
Proof.
  refine (find_latest_message_raises_on_bad_subject sample_now [msg2]
            [(lit "subject", VNone)] VNone [msg1] _ _ _).
  - repeat (constructor; [wf_tac|]). constructor.
  - reflexivity.
  - discriminate.
Defined.

(** ** More on the table converter *)

Lemma mapM_Ok_inv {A B} (f : A → result B) l l' :
  mapM f l = Ok l' → Forall2 (fun a b => f a = Ok b) l l'.
Proof.
  revert l'. induction l as [|a l IH]; intros l'; cbn [mapM].
  - intros [= <-]. constructor.
  - intros H. apply bind_Ok in H as (b & Hb & H).
    apply bind_Ok in H as (bs & Hbs & [= <-]). constructor; auto.
Qed.

Lemma normalize_rows_inv rows n R' :
  _normalize_rows rows n = Ok R' →
  ∃ rs, Py.iter rows = Ok rs ∧
        Forall2 (fun row r' => ∃ cells, Py.iter row = Ok cells ∧ r' = pad_or_truncate n cells) rs R'.
Proof.
  unfold _normalize_rows. intros H. apply bind_Ok in H as (rs & Hrs & H).
  exists rs. split; [done|]. apply mapM_Ok_inv in H.
  eapply Forall2_impl; [exact H|]. intros row r' Hr. cbn beta in Hr.
  apply bind_Ok in Hr as (cells & Hc & [= <-]). eauto.
Qed.

Lemma normalize_rows_rectangular rows n R' :
  (0 ≤ n)%Z →
  _normalize_rows rows n = Ok R' → Forall (fun r' => length r' = Z.to_nat n) R'.
Proof.
  intros Hn H. apply normalize_rows_inv in H as (rs & _ & HF).
  induction HF as [|row r' rs R' (cells & _ & ->) _ IH]; constructor; auto.
  by apply pad_or_truncate_length.
Qed.



Lemma table_to_sheet_name idx t sh :
  table_to_sheet idx t = Ok sh → sheet_name sh = lit "Table" ++ str_of_nat idx.
Proof.
  unfold table_to_sheet. intros H.
  apply bind_Ok in H as (h & _ & H). apply bind_Ok in H as (r & _ & H).
  apply bind_Ok in H as (n & _ & H). apply bind_Ok in H as (R' & _ & H).
  apply bind_Ok in H as (h' & _ & [= <-]). reflexivity.
Qed.

(** X15: headers that are there are never cut or replaced: whenever a
    table with a non-empty ["headers"] value is emitted, the sheet carries
    that value unchanged as its columns, and every row has as many cells
    as the headers have entries. *)
Theorem headers_pass_through idx d h sh :
  Py.dict_lookup (lit "headers") d = Some h →
  Py.truthy h = true →
  table_to_sheet idx (VDict d) = Ok sh →
  columns sh = h ∧
  ∃ n, Py.len h = Ok n ∧ Forall (fun r' => length r' = n) (data sh).
Proof.
  intros Hd Ht.
  assert (Py.or_ h (VList []) = h) as Eo by (unfold Py.or_; by rewrite Ht).
  unfold table_to_sheet. cbn [Py.get]. rewrite Hd.
  cbn [mbind result_bind]. rewrite !Eo, !Ht.
  intros H. apply bind_Ok in H as (n & Hn & H).
  apply bind_Ok in H as (R' & HR & H).
  rewrite Hn in H. cbn [mbind result_bind] in H.
  rewrite decide_False in H by auto.
  cbn [mbind result_bind] in H. rewrite Ht in H. injection H as <-.
  split; [done|]. exists n. split; [done|]. cbn [data].
  apply normalize_rows_rectangular in HR; [|lia]. by rewrite Nat2Z.id in HR.
Qed.

(** X16: the converter fails with [FileProcessingError] and nothing
    else; and when it returns, the document was an object whose
    ["tables"] is a non-empty list, the path is the one asked for (or the
    JSON path with the suffix [.xlsx]), and the writer received exactly one
    sheet for each table, in the order of the tables. *)
Theorem converter_outcome pd json_path file out_xlsx :
  (∀ e o, json_tables_to_excel pd json_path file out_xlsx = (Raise e, o) →
          e = FileProcessingError) ∧
  (∀ p o, json_tables_to_excel pd json_path file out_xlsx = (Ok p, o) →
     ∃ d ts, file = Document (VDict d) ∧
       Py.dict_lookup (lit "tables") d = Some (VList ts) ∧ ts ≠ [] ∧
       p = match out_xlsx with None => WithSuffixXlsx json_path | Some q => Path q end ∧
       writer_opened o = true ∧
       length (written o) = length ts ∧
       ∀ k t, ts !! k = Some t →
         ∃ sh, written o !! k = Some sh ∧ table_to_sheet (k + 1) t = Ok sh).
Proof.
  split.
  - intros e o H. apply json_tables_to_excel_inv in H as (r0 & _ & [(p & _ & ?)|(e0 & _ & ?)]);
      congruence.
  - intros p o H. apply json_tables_to_excel_inv in H as (r0 & Hc & [(p' & -> & [= ->])|(e0 & _ & ?)]);
      [|done].
    apply convert_inv in Hc as [(_ & _ & e & ?)|(d & ts & r' & -> & Hd & Hne & Ho & Hw & Hr)]; [done|].
    destruct Hr as [(u & -> & [= ->])|(e & ?)]; [|done].
    apply write_tables_done in Hw as (sheets & Hs & _ & Hk & Hok & _).
    cbn [app] in Hs. specialize (Hok u eq_refl).
    exists d, ts. split_and!; try done.
    + by rewrite Hs.
    + intros k t Ht. rewrite Hs.
      destruct (lookup_lt_is_Some_2 sheets k) as [sh Hsh].
      { rewrite Hok. by eapply lookup_lt_Some. }
      exists sh. split; [done|]. destruct (Hk k sh Hsh) as (t' & Ht' & Hsheet).
      assert (t' = t) as -> by congruence.
      by replace (k + 1)%nat with (1 + k)%nat by lia.
Qed.

(** X17: when a table fails to convert, in the normalisation or in
    pandas, the sheets of the tables before it, which pandas took, have
    already gone to the writer: the call fails with
    [FileProcessingError] after the writer was opened, with one
    normalised sheet written for each earlier table. *)
Theorem converter_partial_output pd json_path d out_xlsx ts1 bad ts2 specs e :
  Py.dict_lookup (lit "tables") d = Some (VList (ts1 ++ bad :: ts2)) →
  Forall2 (fun t HR => table_of t HR.1 HR.2) ts1 specs →
  ExcelWriter pd (out_path_of json_path out_xlsx) = Ok () →
  accepts pd (out_path_of json_path out_xlsx) 1 ts1 →
  (∀ done, write_table pd (out_path_of json_path out_xlsx) done (length ts1 + 1) bad
           = Raise e) →
  ∃ sheets,
    json_tables_to_excel pd json_path (Document (VDict d)) out_xlsx =
      (Raise FileProcessingError, {| writer_opened := true; written := sheets |}) ∧
    length sheets = length ts1 ∧
    ∀ k H R, specs !! k = Some (H, R) →
      ∃ sh, sheets !! k = Some sh ∧
            sheet_name sh = lit "Table" ++ str_of_nat (k + 1) ∧
            normalised_from H R sh.
Proof.
  intros Hd HF Hopen Hacc Hbad.
  destruct (write_tables_ok pd _ 1 ts1 specs [] HF Hacc) as (sheets & Hw & Hlen & Hk).
  cbn [app] in Hw.
  exists sheets. split_and!.
  - unfold json_tables_to_excel. rewrite (convert_tables _ _ _ _ _ Hd) by (by destruct ts1).
    destruct (with_writer_fails pd (out_path_of json_path out_xlsx)
                (ts1 ++ bad :: ts2) sheets e Hopen) as (e' & ->); [|done].
    rewrite (write_tables_app _ _ _ _ _ _ _ Hw). cbn [write_tables].
    replace (1 + length ts1)%nat with (length ts1 + 1)%nat by lia. by rewrite Hbad.
  - apply Forall2_length in HF. by rewrite Hlen.
  - intros k H R Hs. destruct (Hk k H R Hs) as (sh & ? & ? & ?). exists sh.
    by replace (k + 1)%nat with (1 + k)%nat by lia.
Qed.

Lemma uint_codes_inj u u' : uint_codes u = uint_codes u' → u = u'.
Proof.
  revert u'. induction u; intros u'; destruct u'; simpl; try done;
    intros [= H]; f_equal; by apply IHu.
Qed.

Lemma str_of_nat_inj i j : str_of_nat i = str_of_nat j → i = j.
Proof.
  unfold str_of_nat. intros H. apply uint_codes_inj in H.
  by apply DecimalNat.Unsigned.to_uint_inj.
Qed.

(** X18: the sheets of one conversion have pairwise different names, so
    no table overwrites another. *)
Theorem sheet_names_distinct pd json_path file out_xlsx p o :
  json_tables_to_excel pd json_path file out_xlsx = (Ok p, o) →
  NoDup (sheet_name <$> written o).
Proof.
  intros H. apply json_tables_to_excel_inv in H as (r0 & Hc & [(p' & -> & _)|(e0 & _ & ?)]); [|done].
  apply convert_inv in Hc as [(_ & _ & e & ?)|(d & ts & r' & -> & Hd & Hne & Ho & Hw & Hr)]; [done|].
  apply write_tables_done in Hw as (sheets & Hs & _ & Hk & _ & _). cbn [app] in Hs.
  rewrite Hs. apply NoDup_alt. intros i j name Hi Hj.
  rewrite list_lookup_fmap in Hi, Hj.
  destruct (sheets !! i) as [shi|] eqn:Ei; [|done].
  destruct (sheets !! j) as [shj|] eqn:Ej; [|done].
  injection Hi as Hi. injection Hj as Hj.
  destruct (Hk i shi Ei) as (ti & _ & Hti). destruct (Hk j shj Ej) as (tj & _ & Htj).
  apply table_to_sheet_name in Hti, Htj. rewrite Hti in Hi. rewrite Htj in Hj.
  rewrite <- Hj in Hi. apply app_inv_head in Hi. apply str_of_nat_inj in Hi. lia.
Qed.


(** A negative width, which the converter never passes, cuts from the
    end. *)
Example normalize_rows_negative_width :
  _normalize_rows (VList [VList [VInt 1; VInt 2; VInt 3]; VList [VInt 4]; VList []]) (-1) =
  Ok [[VInt 1; VInt 2]; []; []].
Proof. reflexivity. Qed.

Lemma headers_pass_through_witness :
  columns {| sheet_name := lit "Table1";
             columns := VList [VStr (lit "a"); VStr (lit "b")];
             data := [[VStr (lit "1"); VNone]; [VStr (lit "2"); VStr (lit "3")]] |}
  = VList [VStr (lit "a"); VStr (lit "b")].
Proof.
  refine (proj1 (headers_pass_through 1
            [(lit "headers", VList [VStr (lit "a"); VStr (lit "b")]);
             (lit "rows", VList [VList [VStr (lit "1")];
                                 VList [VStr (lit "2"); VStr (lit "3"); VStr (lit "4")]])]
            (VList [VStr (lit "a"); VStr (lit "b")]) _ _ _ _)).
  - reflexivity.
  - reflexivity.
  - reflexivity.
Defined.

Lemma converter_partial_output_witness :
  ∃ sheets,
    json_tables_to_excel pandas_openpyxl (lit "t.json")
      (Document (VDict [(lit "tables", VList ([table1] ++ table_bell :: [table2]))])) None =
      (Raise FileProcessingError, {| writer_opened := true; written := sheets |}) ∧
    length sheets = 1%nat.
Proof.
  destruct (converter_partial_output pandas_openpyxl (lit "t.json")
              [(lit "tables", VList ([table1] ++ table_bell :: [table2]))] None
              [table1] table_bell [table2]
              [([VStr (lit "a"); VStr (lit "b")],
                [[VStr (lit "1")]; [VStr (lit "2"); VStr (lit "3"); VStr (lit "4")]])]
              (LibraryError (lit "IllegalCharacterError")))
    as (sheets & H & Hlen & _).
  - reflexivity.
  - repeat constructor; eexists; (split; [reflexivity|]); split; by left.
  - reflexivity.
  - intros [|k] t sh Hk Hs; [|done]. injection Hk as <-. injection Hs as <-.
    split; [reflexivity|]. intros done. reflexivity.
  - intros done. reflexivity.
  - exists sheets. split; [exact H|exact Hlen].
Defined.

Lemma sheet_names_distinct_witness :
  NoDup [lit "Table1"; lit "Table2"].
Proof.
  refine (sheet_names_distinct pandas_ok (lit "t.json")
            (Document (VDict [(lit "tables", VList [table1; table2])])) None
            (WithSuffixXlsx (lit "t.json"))
            {| writer_opened := true;
               written :=
                 [ {| sheet_name := lit "Table1";
                      columns := VList [VStr (lit "a"); VStr (lit "b")];
                      data := [[VStr (lit "1"); VNone]; [VStr (lit "2"); VStr (lit "3")]] |};
                   {| sheet_name := lit "Table2";
                      columns := VList [VStr (lit "col_1"); VStr (lit "col_2")];
                      data := [[VStr (lit "x"); VStr (lit "y")]; [VStr (lit "z"); VNone]] |} ] |}
            _).
  reflexivity.
Defined.

(** ** Time stamps and the saved file *)

Import Models Workflow WorkflowSpec.

Lemma uint_codes_ascii u : ascii_digits (uint_codes u).
Proof. induction u; simpl; constructor; auto; lia. Qed.

Lemma two_digits_spec n :
  n < 100 → length (two_digits n) = 2%nat ∧ ascii_digits (two_digits n).
Proof.
  intros Hn.
  assert (forallb (fun k =>
            Nat.eqb (length (two_digits (N.of_nat k))) 2 &&
            forallb (fun c => (48 <=? c) && (c <=? 57)) (two_digits (N.of_nat k)))
            (seq 0 100) = true) as Hall by (vm_compute; reflexivity).
  rewrite forallb_forall in Hall. specialize (Hall (N.to_nat n)).
  rewrite N2Nat.id in Hall.
  assert (In (N.to_nat n) (seq 0 100)) as Hin by (apply in_seq; lia).
  apply Hall, andb_true_iff in Hin as [HL HD]. split; [by apply Nat.eqb_eq|].
  apply Forall_forall. intros c Hc. rewrite forallb_forall in HD.
  apply list_elem_of_In, HD, andb_true_iff in Hc as [H1 H2].
  apply N.leb_le in H1, H2. lia.
Qed.

(** X19: with a four-digit year, the time stamp is eight ASCII digits, an
    underscore and six ASCII digits: fifteen characters. *)
Theorem generate_timestamp_shape now :
  clock_in_range now →
  ∃ date time,
    generate_timestamp now = date ++ lit "_" ++ time ∧
    length date = 8%nat ∧ length time = 6%nat ∧
    ascii_digits date ∧ ascii_digits time ∧
    length (generate_timestamp now) = 15%nat.
Proof.
  intros (Hy & Hm & Hd & Hh & Hmi & Hs).
  destruct (two_digits_spec (month now)) as [Lm Dm]; [lia|].
  destruct (two_digits_spec (day now)) as [Ld Dd]; [lia|].
  destruct (two_digits_spec (hour now)) as [Lh Dh]; [lia|].
  destruct (two_digits_spec (minute now)) as [Lmi Dmi]; [lia|].
  destruct (two_digits_spec (second now)) as [Ls Ds]; [lia|].
  pose proof (str_of_N_four_digits (year now) Hy) as Ly.
  exists (str_of_N (year now) ++ two_digits (month now) ++ two_digits (day now)),
         (two_digits (hour now) ++ two_digits (minute now) ++ two_digits (second now)).
  split_and!.
  - unfold generate_timestamp. by rewrite <- !app_assoc.
  - rewrite !length_app. lia.
  - rewrite !length_app. lia.
  - unfold ascii_digits. rewrite !Forall_app. split_and!; auto. apply uint_codes_ascii.
  - unfold ascii_digits. rewrite !Forall_app. by split_and!.
  - unfold generate_timestamp. rewrite !length_app. simpl. lia.
Qed.

Lemma generate_timestamp_shape_witness :
  length (generate_timestamp sample_now) = 15%nat.
Proof.
  destruct (generate_timestamp_shape sample_now) as (d & t & _ & _ & _ & _ & _ & H).
  - unfold clock_in_range. simpl. lia.
  - exact H.
Defined.

Lemma zfill_elem width s c : c ∈ zfill width s → c = 48 ∨ c ∈ s.
Proof.
  unfold zfill. destruct (decide (width <= length s)%nat) as [_|_]; [auto|].
  destruct s as [|x t].
  - intros H. apply elem_of_replicate in H as [-> _]. auto.
  - destruct ((x =? 43) || (x =? 45)).
    + intros H. apply elem_of_cons in H as [->|H]; [right; by left|].
      apply elem_of_app in H as [H|H].
      * apply elem_of_replicate in H as [-> _]. auto.
      * right. by right.
    + intros H. apply elem_of_app in H as [H|H]; [|auto].
      apply elem_of_replicate in H as [-> _]. auto.
Qed.

Lemma two_digits_elem n c : c ∈ two_digits n → 48 <= c <= 57.
Proof.
  intros H. apply zfill_elem in H as [->|H]; [lia|].
  pose proof (uint_codes_ascii (N.to_uint n)) as Ha.
  unfold ascii_digits in Ha. rewrite Forall_forall in Ha. by apply Ha.
Qed.

Lemma generate_timestamp_elem now c :
  c ∈ generate_timestamp now → 48 <= c <= 57 ∨ c = 95.
Proof.
  unfold generate_timestamp. rewrite !elem_of_app.
  intros [H|[H|[H|[H|[H|[H|H]]]]]]; try (left; by apply (two_digits_elem _ c H)).
  - left. pose proof (uint_codes_ascii (N.to_uint (year now))) as Ha.
    unfold ascii_digits in Ha. rewrite Forall_forall in Ha. by apply Ha.
  - right. by apply list_elem_of_singleton in H.
Qed.

Lemma safe_range c : 48 <= c <= 57 ∨ c = 95 → char_in c unsafe_chars = false.
Proof.
  intros H. unfold char_in, unsafe_chars. simpl.
  repeat (match goal with |- context [c =? ?k] => destruct (N.eqb_spec c k); [lia|] end).
  reflexivity.
Qed.

Lemma save_email_html_name now config email f :
  save_email_html now config email = Ok (Some f) →
  file_name f =
    clean_filename (sender_name config) ++ lit "_" ++ generate_timestamp now ++ lit ".html".
Proof.
  unfold save_email_html. destruct (negb (has_html email) && negb (has_tables email)); [done|].
  destruct (has_tables email).
  - destruct (as_str (tables_html email)); [|done]. by intros [= <-].
  - destruct (as_str (html_content email)); [|done]. by intros [= <-].
Qed.

(** X20: the file [save_email_html] asks to be written is named after the
    cleaned sender name and the time stamp,
    [<sender>_<YYYYMMDD_HHMMSS>.html], and no character of that name is one
    of the unsafe characters, whatever the configured sender name. *)
Theorem save_email_html_safe_name now config email f :
  save_email_html now config email = Ok (Some f) →
  file_name f =
    clean_filename (sender_name config) ++ lit "_" ++ generate_timestamp now ++ lit ".html" ∧
  ∀ c, c ∈ file_name f → char_in c unsafe_chars = false.
Proof.
  intros H. pose proof (save_email_html_name _ _ _ _ H) as E. split; [done|].
  intros c. rewrite E, !elem_of_app. intros [Hc|[Hc|[Hc|Hc]]].
  - by apply (clean_filename_chars_safe (sender_name config)).
  - apply list_elem_of_singleton in Hc as ->. reflexivity.
  - by apply safe_range, (generate_timestamp_elem now).
  - change (lit ".html") with [46; 104; 116; 109; 108] in Hc.
    repeat (apply elem_of_cons in Hc as [->|Hc]; [reflexivity|]).
    by apply elem_of_nil in Hc.
Qed.

Lemma lstrip_all chars s :
  Forall (fun c => char_in c chars = true) s → lstrip chars s = [].
Proof. induction 1 as [|c s Hc _ IH]; [done|]. cbn [lstrip]. by rewrite Hc. Qed.

Lemma strip_empty_iff chars s :
  strip chars s = [] ↔ Forall (fun c => char_in c chars = true) s.
Proof.
  split.
  - intros E. destruct (strip_split chars s) as (a & b & Es & Ha & Hb).
    rewrite E in Es. rewrite Es. apply Forall_app. by split.
  - intros H. unfold strip, rstrip. by rewrite (lstrip_all chars s H).
Qed.

Lemma and_stripped_false_iff s : and_stripped s = false ↔ blank s.
Proof.
  destruct s as [text|]; [|done]. unfold and_stripped, blank.
  rewrite <- strip_empty_iff. destruct text as [|c t]; [done|].
  destruct (strip whitespace (c :: t)); split; done.
Qed.

(** X21: [save_email_html] never raises, and it writes nothing exactly
    when the mail has neither tables nor HTML (each absent or white space
    only).  Otherwise the tables come first: with tables the content is
    the table document around them, whatever the HTML body is, and the
    HTML body is wrapped only when there are no tables. *)
Theorem save_email_html_content now config email :
  (save_email_html now config email = Ok None ↔
   blank (html_content email) ∧ blank (tables_html email)) ∧
  (¬ blank (tables_html email) →
   ∃ tables f, tables_html email = Some tables ∧
     save_email_html now config email = Ok (Some f) ∧
     file_content f = create_table_html tables) ∧
  (blank (tables_html email) → ¬ blank (html_content email) →
   ∃ html f, html_content email = Some html ∧
     save_email_html now config email = Ok (Some f) ∧
     file_content f = create_full_html html).
Proof.
  assert (and_stripped (html_content email) = true →
          ¬ blank (html_content email) ∧ ∃ h, html_content email = Some h) as Hh1.
  { intros E. split.
    - intros Hb. apply and_stripped_false_iff in Hb. congruence.
    - destruct (html_content email); [eauto|done]. }
  assert (and_stripped (tables_html email) = true →
          ¬ blank (tables_html email) ∧ ∃ t, tables_html email = Some t) as Ht1.
  { intros E. split.
    - intros Hb. apply and_stripped_false_iff in Hb. congruence.
    - destruct (tables_html email); [eauto|done]. }
  pose proof (proj1 (and_stripped_false_iff (html_content email))) as Hh0.
  pose proof (proj1 (and_stripped_false_iff (tables_html email))) as Ht0.
  unfold save_email_html, has_html, has_tables.
  destruct (and_stripped (html_content email)) eqn:Eh;
    destruct (and_stripped (tables_html email)) eqn:Et; cbn [negb andb].
  - destruct (Ht1 eq_refl) as [Hnb [t Etb]]. rewrite Etb in *.
    cbn [as_str mbind result_bind]. split_and!.
    + split; [done|]. by intros [_ Hb].
    + intros _. eauto.
    + done.
  - destruct (Hh1 eq_refl) as [Hnb [h Ehb]]. rewrite Ehb in *.
    cbn [as_str mbind result_bind]. split_and!.
    + split; [done|]. by intros [Hb _].
    + intros Hb. destruct Hb. by apply Ht0.
    + intros _ _. eauto.
  - destruct (Ht1 eq_refl) as [Hnb [t Etb]]. rewrite Etb in *.
    cbn [as_str mbind result_bind]. split_and!.
    + split; [done|]. by intros [_ Hb].
    + intros _. eauto.
    + done.
  - split_and!.
    + split; [|done]. intros _. split; [by apply Hh0|by apply Ht0].
    + intros Hb. destruct Hb. by apply Ht0.
    + intros _ Hb. destruct Hb. by apply Hh0.
Qed.

Import WorkflowSamples.

Lemma save_email_html_safe_name_witness :
  ∃ f, save_email_html sample_now sample_config sample_email = Ok (Some f) ∧
       file_name f = lit "Joy_Food _orders_20261104_093000.html".
Proof.
  eexists. split; [reflexivity|].
  etransitivity.
  - refine (proj1 (save_email_html_safe_name sample_now sample_config sample_email _ _)).
    reflexivity.
  - vm_compute. reflexivity.
Defined.

(** ** Choosing the mail to fetch *)

Lemma parsed_date_nonempty_dict now d t : parsed_date now (VDict d) = Some t → d ≠ [].
Proof. intros H ->. done. Qed.

Lemma parsed_date_has_subject now d t :
  well_formed_message (VDict d) → parsed_date now (VDict d) = Some t →
  ∃ s, Py.dict_lookup (lit "subject") d = Some (VStr s).
Proof.
  intros (d' & [= <-] & [H|H]) Hp; [|done].
  unfold parsed_date, subject_of in Hp. by rewrite H in Hp.
Qed.

Lemma truthy_dict d : d ≠ [] → Py.truthy (VDict d) = true.
Proof. by destruct d. Qed.

Lemma extract_unfold_list now config extractor target msgs :
  given (config_message_id config) = false →
  list_messages_from_sender extractor (sender_name config) (max_results config) = Done msgs →
  msgs ≠ [] →
  extract_email_data now config (Some extractor) target =
  (selected_message ←
     (if given target then
        selected ← of_result (find_message_by_date now msgs (default [] target));
        match selected with
        | Some message =>
            if Py.truthy message then
              _ ← getitem message (lit "subject");
              Done selected
            else Done selected
        | None => Done selected
        end
      else
        selected ← of_result (find_latest_message now msgs);
        match selected with
        | Some message =>
            if Py.truthy message then
              subject ← getitem message (lit "subject");
              _ ← of_result (parse_date_from_subject now subject);
              Done selected
            else Done selected
        | None => Done selected
        end);
   match selected_message with
   | Some message =>
       if Py.truthy message then
         id ← getitem message (lit "id");
         email ← get_email_data extractor id;
         Done (Some email)
       else Done None
   | None => Done None
   end).
Proof.
  intros Hid Hl Hne. unfold extract_email_data. rewrite Hid, Hl.
  cbn [mbind outcome_bind]. by destruct msgs.
Qed.

Lemma fetch_unfold extractor d :
  d ≠ [] →
  (if Py.truthy (VDict d) then
     id ← getitem (VDict d) (lit "id");
     email ← get_email_data extractor id;
     Done (Some email)
   else Done None) = fetch extractor d.
Proof.
  intros Hd. rewrite truthy_dict by done. unfold fetch, getitem.
  destruct (Py.dict_lookup (lit "id") d) as [id|]; [|done].
  cbn [mbind outcome_bind]. by destruct (get_email_data extractor id).
Qed.

(** X22: with no message id configured and a target date given,
    [extract_email_data] fetches the mail of the first listed message whose
    subject date is the target date, by the ['id'] of that message, and
    returns nothing, without fetching, when no listed message has that
    date. *)
Theorem extract_email_data_by_date now config extractor t msgs :
  given (config_message_id config) = false →
  t ≠ [] →
  list_messages_from_sender extractor (sender_name config) (max_results config) = Done msgs →
  (∀ l1 d l2,
     msgs = l1 ++ VDict d :: l2 →
     Forall well_formed_message l1 → well_formed_message (VDict d) →
     parsed_date now (VDict d) = Some t →
     (∀ c', c' ∈ l1 → parsed_date now c' ≠ Some t) →
     extract_email_data now config (Some extractor) (Some t) = fetch extractor d) ∧
  (Forall well_formed_message msgs →
   (∀ c, c ∈ msgs → parsed_date now c ≠ Some t) →
   extract_email_data now config (Some extractor) (Some t) = Done None).
Proof.
  intros Hid Ht Hl.
  assert (given (Some t) = true) as Hg by (by destruct t).
  split.
  - intros l1 d l2 -> Hwf Hc Hd Hbefore.
    rewrite (extract_unfold_list now config extractor (Some t) _ Hid Hl) by (by destruct l1).
    rewrite Hg. change (default [] (Some t)) with t.
    rewrite (find_message_by_date_first now l1 (VDict d) l2 t) by done.
    cbn [of_result mbind outcome_bind].
    pose proof (parsed_date_nonempty_dict now d t Hd) as Hdne.
    rewrite truthy_dict by done.
    destruct (parsed_date_has_subject now d t Hc Hd) as [s Hs].
    assert (getitem (VDict d) (lit "subject") = Done (VStr s)) as ->
      by (unfold getitem; by rewrite Hs).
    cbn [mbind outcome_bind]. by apply fetch_unfold.
  - intros Hwf Hnone. destruct (decide (msgs = [])) as [->|Hne].
    { unfold extract_email_data. rewrite Hid, Hl. reflexivity. }
    rewrite (extract_unfold_list now config extractor (Some t) msgs Hid Hl Hne).
    rewrite Hg. change (default [] (Some t)) with t.
    assert (find_message_by_date now msgs t = Ok None) as ->; [|done].
    clear Hl Hne. induction Hwf as [|a l Ha _ IH]; [done|].
    rewrite find_message_by_date_cons by done.
    rewrite decide_False by (apply Hnone; by left).
    apply IH. intros c Hc. apply Hnone. by right.
Qed.

Lemma has_subject_well_formed c : has_subject c → well_formed_message c.
Proof. intros (d & s & -> & H). exists d. split; [done|]. right. eauto. Qed.

(** X23: with no message id configured and no target date (absent or
    empty), on a non-empty listing whose messages all carry a ['subject']
    that is a [str], [extract_email_data] fetches the mail of the message
    [find_latest_message] picks, by its ['id']. *)
Theorem extract_email_data_latest now config extractor target msgs :
  given (config_message_id config) = false →
  given target = false →
  list_messages_from_sender extractor (sender_name config) (max_results config) = Done msgs →
  msgs ≠ [] →
  Forall has_subject msgs →
  ∃ d, find_latest_message now msgs = Ok (Some (VDict d)) ∧
       VDict d ∈ msgs ∧
       extract_email_data now config (Some extractor) target = fetch extractor d.
Proof.
  intros Hid Hg Hl Hne Hs.
  assert (Forall well_formed_message msgs) as Hwf.
  { eapply Forall_impl; [exact Hs|]. apply has_subject_well_formed. }
  destruct (find_latest_message_spec now msgs Hwf Hne) as (l1 & c & l2 & E & Hlatest & _).
  assert (c ∈ msgs) as Hc by (rewrite E; apply elem_of_app; right; by left).
  rewrite Forall_forall in Hs. destruct (Hs c Hc) as (d & s & -> & Hd).
  exists d. split_and!; [done|done|].
  rewrite (extract_unfold_list now config extractor target msgs Hid Hl Hne).
  rewrite Hg, Hlatest. cbn [of_result mbind outcome_bind].
  assert (d ≠ []) as Hdne by (intros ->; done).
  rewrite truthy_dict by done.
  assert (getitem (VDict d) (lit "subject") = Done (VStr s)) as ->
    by (unfold getitem; by rewrite Hd).
  cbn [mbind outcome_bind].
  destruct (parse_str_total now s) as [r ->]. cbn [of_result mbind outcome_bind].
  by apply fetch_unfold.
Qed.

(** X24: without a target date, [extract_email_data] reads the
    ['subject'] of the message it picked with a subscript: when that
    message is a non-empty [dict] without the key, which
    [find_latest_message] accepts, the call raises [KeyError] and nothing
    is fetched. *)
Theorem extract_email_data_latest_key_error now config extractor target msgs d :
  given (config_message_id config) = false →
  given target = false →
  list_messages_from_sender extractor (sender_name config) (max_results config) = Done msgs →
  find_latest_message now msgs = Ok (Some (VDict d)) →
  d ≠ [] →
  Py.dict_lookup (lit "subject") d = None →
  extract_email_data now config (Some extractor) target = Failed KeyError.
Proof.
  intros Hid Hg Hl Hlatest Hdne Hd.
  assert (msgs ≠ []) as Hne by (intros ->; done).
  rewrite (extract_unfold_list now config extractor target msgs Hid Hl Hne).
  rewrite Hg, Hlatest. cbn [of_result mbind outcome_bind].
  rewrite truthy_dict by done.
  assert (getitem (VDict d) (lit "subject") = Failed KeyError) as ->
    by (unfold getitem; by rewrite Hd).
  reflexivity.
Qed.

Lemma extract_email_data_by_date_witness :
  extract_email_data sample_now sample_config (Some sample_extractor) (Some (lit "20250906")) =
  fetch sample_extractor [(lit "id", VStr (lit "msg2"));
                          (lit "subject",
                           VStr (year_text (lit "2025") (lit "09") (lit "06") ++ lit " report"))].
Proof.
  refine (proj1 (extract_email_data_by_date sample_now sample_config sample_extractor
                   (lit "20250906") [msg1; msg2; msg3] _ _ _)
            [msg1] _ [msg3] _ _ _ _ _).
  - reflexivity.
  - discriminate.
  - reflexivity.
  - reflexivity.
  - repeat (constructor; [wf_tac|]). constructor.
  - wf_tac.
  - reflexivity.
  - intros c' Hc'. apply list_elem_of_singleton in Hc' as ->. vm_compute. discriminate.
Defined.

Lemma extract_email_data_latest_witness :
  ∃ d, find_latest_message sample_now [msg1; msg2; msg3] = Ok (Some (VDict d)) ∧
       VDict d ∈ [msg1; msg2; msg3] ∧
       extract_email_data sample_now sample_config (Some sample_extractor) None =
       fetch sample_extractor d.
Proof.
  refine (extract_email_data_latest sample_now sample_config sample_extractor None
            [msg1; msg2; msg3] _ _ _ _ _).
  - reflexivity.
  - reflexivity.
  - reflexivity.
  - discriminate.
  - repeat (constructor; [eexists _, _; split; reflexivity|]). constructor.
Defined.

Lemma extract_email_data_latest_key_error_witness :
  extract_email_data sample_now sample_config (Some bare_extractor) None = Failed KeyError.
Proof.
  refine (extract_email_data_latest_key_error sample_now sample_config bare_extractor None
            [msg4] [(lit "id", VStr (lit "msg4"))] _ _ _ _ _ _).
  - reflexivity.
  - reflexivity.
  - reflexivity.
  - reflexivity.
  - discriminate.
  - reflexivity.
Defined.
